(** * Address-space graphics (ASG) host core: pools, protocol handler, snapshot

    A shallow embedding of [host-common/address_space_graphics.cpp]
    (namespace [android::emulation::asg]): the [Globals] block pools with
    their sub-allocation API, the per-context protocol handler
    [AddressSpaceGraphicsContext], and the snapshot wire format.

    Conventions.
    - Unsigned machine integers are [Z] with the wrap-around written out
      ([wrap32], [wrap64]); pointers are [Z] with [0] for [nullptr].
    - Code that can call [crashhandler_die] returns an [outcome]; the
      constructor [Die] carries which call site aborted.
    - Collaborators that are not part of this translation unit (the
      sub-allocator, the address-space device functions, the control ops,
      the consumer interface) are parameters: records of operations over an
      abstract host world. *)

From Stdlib Require Import ZArith List Lia Bool.
From Stdlib.Strings Require Import Byte.
From stdpp Require Import base option list gmap.

Local Open Scope Z_scope.

(** ** Machine integers *)

Definition wrap32 (z : Z) : Z := z mod 2 ^ 32.
Definition wrap64 (z : Z) : Z := z mod 2 ^ 64.

Definition is_u32 (z : Z) : Prop := 0 <= z < 2 ^ 32.
Definition is_u64 (z : Z) : Prop := 0 <= z < 2 ^ 64.

(** A C++ [bool] converted to an integer, and an integer used as a
    condition. *)
Definition Z_of_bool (b : bool) : Z := if b then 1 else 0.
Definition truthy (z : Z) : bool := negb (z =? 0).

(** ** The byte stream ([base::Stream]) *)

Module Stream.

Definition t : Type := list byte.

Definition byte_of_Z (z : Z) : byte :=
  match Byte.of_N (Z.to_N (z mod 256)) with
  | Some b => b
  | None => x00
  end.

Definition Z_of_byte (b : byte) : Z := Z.of_N (Byte.to_N b).

(** Modelled from the spec: [base::Stream] is not part of this
    translation unit; "all multi-byte integers written big-endian via
    fixed-width put/get primitives (32-bit and 64-bit)".  [be_bytes n v]
    is the [n]-byte big-endian image of [v], most significant byte
    first. *)
Fixpoint be_bytes (n : nat) (v : Z) : list byte :=
  match n with
  | O => []
  | S k => byte_of_Z (Z.shiftr v (8 * Z.of_nat k)) :: be_bytes k v
  end.

Fixpoint be_value (acc : Z) (l : list byte) : Z :=
  match l with
  | [] => acc
  | b :: rest => be_value (acc * 256 + Z_of_byte b) rest
  end.

Definition putBe32 (v : Z) : t := be_bytes 4 v.
Definition putBe64 (v : Z) : t := be_bytes 8 v.

(** Modelled from the spec: [Stream::read] of [n] bytes.  A stream that
    holds fewer than [n] bytes is reported as [None]. *)
Definition read (n : nat) (s : t) : option (list byte * t) :=
  if (n <=? length s)%nat then Some (firstn n s, skipn n s) else None.

Definition getBe (n : nat) (s : t) : option (Z * t) :=
  match read n s with
  | Some (bs, rest) => Some (be_value 0 bs, rest)
  | None => None
  end.

Definition getBe32 : t -> option (Z * t) := getBe 4.
Definition getBe64 : t -> option (Z * t) := getBe 8.

(** Modelled from the spec: "strings are length-prefixed". *)
Definition putString (str : list byte) : t :=
  putBe32 (Z.of_nat (length str)) ++ str.

Definition getString (s : t) : option (list byte * t) :=
  match getBe32 s with
  | Some (len, rest) => read (Z.to_nat len) rest
  | None => None
  end.

End Stream.

(** ** Outcomes of code that may abort *)

(** One constructor per [crashhandler_die] / [GFXSTREAM_ABORT] call site. *)
Inductive FatalReason : Type :=
| ConsumerInterfaceNotSet          (* getConsumerInterface *)
| WantedSizeGreaterThanBlockSize   (* newAllocation, size check *)
| FailedToAllocate                 (* newAllocation, fresh block is full *)
| BlockIndexNotFound               (* deleteAllocation *)
| FailedToFree                     (* deleteAllocation *)
| DedicatedWithoutHandle           (* allocRingAndBufferStorageDedicated *)
| ExternalAddressSizeTooSmall      (* allocRingAndBufferStorageDedicated *)
| AbortReasonOther                 (* fillAllocFromLoad, default case *)
| LoadVirtioWithoutDedicated       (* loadBlockLocked *)
| LoadVirtioWithoutResources       (* loadBlockLocked *)
| LoadVirtioWithoutReplacement     (* loadBlockLocked *)
| DedicatedWithoutVirtioGpu        (* fillBlockLocked *)
| DedicatedWithoutExternalAddr     (* fillBlockLocked *)
| VirtioGpuWithoutDedicated        (* fillBlockLocked *)
| FailedToAllocatePhysical         (* fillBlockLocked *)
| FailedToAllocateRing             (* constructor *)
| FailedToAllocateBuffer           (* constructor *)
| UnknownConsumerCommand (cmd : Z) (* onUnavailableRead *).

(** Steps on which C++ gives no defined result and which the code does not
    guard: they are kept apart from the aborts above. *)
Inductive UndefReason : Type :=
| NullSubAllocator   (* [block.subAlloc->...] on a null or deleted pointer *)
| NullControlOps     (* [mControlOps->...] before [initialize] *)
| EmptyFunction      (* call of an unset [std::function] *)
| ShortStream        (* a read past the end of the stream *).

Inductive outcome (A : Type) : Type :=
| Ok (a : A)
| Die (r : FatalReason)
| Undef (u : UndefReason).

Arguments Ok {A} a.
Arguments Die {A} r.
Arguments Undef {A} u.

(** State-and-abort monad used for every method that touches the pools. *)
Definition M (S A : Type) : Type := S -> outcome (A * S).

Definition ret {S A : Type} (a : A) : M S A := fun s => Ok (a, s).

Definition bind {S A B : Type} (m : M S A) (k : A -> M S B) : M S B :=
  fun s =>
    match m s with
    | Ok (a, s') => k a s'
    | Die r => Die r
    | Undef u => Undef u
    end.

Definition die {S A : Type} (r : FatalReason) : M S A := fun _ => Die r.
Definition undef {S A : Type} (u : UndefReason) : M S A := fun _ => Undef u.
Definition gets {S A : Type} (f : S -> A) : M S A := fun s => Ok (f s, s).
Definition modify {S : Type} (f : S -> S) : M S unit := fun s => Ok (tt, f s).

Declare Scope asg_scope.
Delimit Scope asg_scope with asg.
Notation "x <- m ;; k" := (bind m (fun x => k))
  (at level 100, m at next level, right associativity) : asg_scope.
Notation "m ;;; k" := (bind m (fun _ => k))
  (at level 100, right associativity) : asg_scope.
Local Open Scope asg_scope.

(** ** Data model *)

Module AllocationCreateInfo.
Record t : Type := mk {
  virtioGpu : bool;
  hostmemRegisterFixed : bool;
  fromLoad : bool;
  size : Z;
  hostmemId : Z;
  externalAddr : Z;
  dedicatedContextHandle : option Z
}.
(** [struct AllocationCreateInfo create = {0};] *)
Definition zero : t := mk false false false 0 0 0 None.
End AllocationCreateInfo.

Module Block.
(** [subAlloc] is [None] for a null pointer and after [delete].  The last
    field is not a C++ member: it is the bytes held by the [bufferSize]-byte
    storage at [buffer] when this core owns that storage (a non-external
    block); for an external block the bytes belong to the collaborator and
    the model keeps none. *)
Record t (SA : Type) : Type := mk {
  buffer : Z;
  bufferSize : Z;
  subAlloc : option SA;
  offsetIntoPhys : Z;
  isEmpty : bool;
  dedicatedContextHandle : option Z;
  usesVirtioGpuHostmem : bool;
  hostmemId : Z;
  external : bool;
  contents : list byte
}.
Arguments mk {SA}.
Arguments buffer {SA}.
Arguments bufferSize {SA}.
Arguments subAlloc {SA}.
Arguments offsetIntoPhys {SA}.
Arguments isEmpty {SA}.
Arguments dedicatedContextHandle {SA}.
Arguments usesVirtioGpuHostmem {SA}.
Arguments hostmemId {SA}.
Arguments external {SA}.
Arguments contents {SA}.

(** Default member initialisers of [struct Block]. *)
Definition default {SA : Type} : t SA :=
  mk 0 0 None 0 true None false 0 false [].

Definition with_subAlloc {SA : Type} (sa : option SA) (b : t SA) : t SA :=
  mk (buffer b) (bufferSize b) sa (offsetIntoPhys b) (isEmpty b)
     (dedicatedContextHandle b) (usesVirtioGpuHostmem b) (hostmemId b)
     (external b) (contents b).

Definition with_contents {SA : Type} (bs : list byte) (b : t SA) : t SA :=
  mk (buffer b) (bufferSize b) (subAlloc b) (offsetIntoPhys b) (isEmpty b)
     (dedicatedContextHandle b) (usesVirtioGpuHostmem b) (hostmemId b)
     (external b) bs.

Definition with_offsetIntoPhys {SA : Type} (off : Z) (b : t SA) : t SA :=
  mk (buffer b) (bufferSize b) (subAlloc b) off (isEmpty b)
     (dedicatedContextHandle b) (usesVirtioGpuHostmem b) (hostmemId b)
     (external b) (contents b).

Definition with_isEmpty {SA : Type} (e : bool) (b : t SA) : t SA :=
  mk (buffer b) (bufferSize b) (subAlloc b) (offsetIntoPhys b) e
     (dedicatedContextHandle b) (usesVirtioGpuHostmem b) (hostmemId b)
     (external b) (contents b).
End Block.

Module Allocation.
Record t : Type := mk {
  buffer : Z;
  blockIndex : Z;
  offsetIntoPhys : Z;
  size : Z;
  dedicatedContextHandle : option Z;
  hostmemId : Z;
  isView : bool
}.
(** Default member initialisers of [struct Allocation]. *)
Definition default : t := mk 0 0 0 0 None 0 false.
End Allocation.

(** Which members of [ConsumerInterface] hold a callable. *)
Module ConsumerInterface.
Record t : Type := mk {
  create : bool;
  destroy : bool;
  preSave : bool;
  globalPreSave : bool;
  save : bool;
  globalPostSave : bool;
  postSave : bool;
  postLoad : bool;
  globalPreLoad : bool
}.
Definition unset : t := mk false false false false false false false false false.
Definition all_set : t := mk true true true true true true true true true.
End ConsumerInterface.

Record Globals (SA : Type) : Type := mkGlobals {
  mPerContextBufferSize : Z;
  mInitialized : bool;
  mControlOps : Z;
  mConsumerInterface : ConsumerInterface.t;
  mRingBlocks : list (Block.t SA);
  mBufferBlocks : list (Block.t SA);
  mCombinedBlocks : list (Block.t SA)
}.
Arguments mkGlobals {SA}.
Arguments mPerContextBufferSize {SA}.
Arguments mInitialized {SA}.
Arguments mControlOps {SA}.
Arguments mConsumerInterface {SA}.
Arguments mRingBlocks {SA}.
Arguments mBufferBlocks {SA}.
Arguments mCombinedBlocks {SA}.

(** The three [std::vector<Block>&] arguments the pool methods are called
    with. *)
Inductive Pool : Type := RingPool | BufferPool | CombinedPool.

Definition pool_get {SA : Type} (p : Pool) (g : Globals SA) : list (Block.t SA) :=
  match p with
  | RingPool => mRingBlocks g
  | BufferPool => mBufferBlocks g
  | CombinedPool => mCombinedBlocks g
  end.

Definition pool_set {SA : Type} (p : Pool) (bs : list (Block.t SA))
    (g : Globals SA) : Globals SA :=
  match p with
  | RingPool =>
      mkGlobals (mPerContextBufferSize g) (mInitialized g) (mControlOps g)
        (mConsumerInterface g) bs (mBufferBlocks g) (mCombinedBlocks g)
  | BufferPool =>
      mkGlobals (mPerContextBufferSize g) (mInitialized g) (mControlOps g)
        (mConsumerInterface g) (mRingBlocks g) bs (mCombinedBlocks g)
  | CombinedPool =>
      mkGlobals (mPerContextBufferSize g) (mInitialized g) (mControlOps g)
        (mConsumerInterface g) (mRingBlocks g) (mBufferBlocks g) bs
  end.

(** The process state the pool methods run in: the host world behind the
    collaborators, and the [Globals] singleton. *)
Record Sys (SA W : Type) : Type := mkSys {
  world : W;
  globals : Globals SA
}.
Arguments mkSys {SA W}.
Arguments world {SA W}.
Arguments globals {SA W}.

(** ** Collaborators *)

(** [android::base::SubAllocator] (aemu/base/SubAllocator.h, not part of
    these sources), by its interface: the constructor over
    (buffer, totalSize, pageSize), [alloc] (null when there is no room),
    [free], [getOffset], [empty], [save] and [load]. *)
Class SubAllocator (SA : Type) : Type := {
  sa_new : Z -> Z -> Z -> SA;
  sa_alloc : Z -> SA -> Z * SA;
  sa_free : Z -> SA -> bool * SA;
  sa_getOffset : Z -> SA -> Z;
  sa_empty : SA -> bool;
  sa_save : SA -> Stream.t;
  sa_load : Stream.t -> SA -> option (SA * Stream.t)
}.

(** Constants and enumerations of headers that are not part of these
    sources ([address_space_graphics_types.h], [address_space_graphics.h],
    the hardware configuration). *)
Inductive asg_command : Type :=
| ASG_GET_RING
| ASG_GET_BUFFER
| ASG_SET_VERSION
| ASG_NOTIFY_AVAILABLE
| ASG_GET_CONFIG
| ASG_unlisted.

Class Platform : Type := {
  ADDRESS_SPACE_GRAPHICS_BLOCK_SIZE : Z;
  ADDRESS_SPACE_GRAPHICS_PAGE_SIZE : Z;
  sizeof_asg_ring_storage : Z;
  hw_gltransport_asg_writeBufferSize : Z;
  hw_gltransport_asg_writeStepSize : Z;
  (** initial value of the member [mVersion] *)
  initial_mVersion : Z;
  (** capacity of the [MessageChannel] behind [mConsumerMessages] *)
  consumer_channel_capacity : nat;
  (** [static_cast<asg_command>(info->metadata)] *)
  asg_command_of : Z -> asg_command
}.

Inductive asg_host_state : Type :=
| ASG_HOST_STATE_NEED_NOTIFY
| ASG_HOST_STATE_CAN_CONSUME
| ASG_HOST_STATE_EXIT
| ASG_HOST_STATE_unlisted (v : Z).

Record asg_ring_config : Type := mk_ring_config {
  buffer_size : Z;
  flush_interval : Z;
  host_consumed_pos : Z;
  guest_write_pos : Z;
  transfer_mode : Z;
  transfer_size : Z;
  in_error : Z
}.

(** [struct asg_context]: the two storage pointers, and the shared header
    cells that [ring_config] and [host_state] point to. *)
Record asg_context : Type := mk_asg_context {
  ring_storage : Z;
  ctx_buffer : Z;
  ctx_buffer_size : Z;
  ring_config : asg_ring_config;
  host_state : asg_host_state
}.

(** The address-space device functions
    ([get_address_space_device_hw_funcs()]), the aligned-buffer facility,
    the control ops behind [mControlOps], the consumer interface and
    [asg_context_create], as operations on an abstract host world. *)
Class Host (W : Type) : Type := {
  allocSharedHostRegionLocked : Z -> W -> Z * Z * W;
  allocSharedHostRegionFixedLocked : Z -> Z -> W -> Z * W;
  freeSharedHostRegionLocked : Z -> W -> W;
  getPhysAddrStartLocked : W -> Z;
  aligned_buf_alloc : Z -> Z -> W -> Z * W;
  aligned_buf_free : Z -> W -> W;
  (** the bytes found in storage just obtained from [aligned_buf_alloc] *)
  fresh_bytes : Z -> Z -> W -> list byte;
  add_memory_mapping : Z -> Z -> Z -> W -> W;
  remove_memory_mapping : Z -> Z -> Z -> W -> W;
  hostmem_unregister : Z -> W -> W;
  consumer_create :
    asg_context -> option Stream.t -> Z -> Z -> option (list byte) ->
    W -> Z * Stream.t * W;
  consumer_destroy : Z -> W -> W;
  consumer_preSave : Z -> W -> W;
  consumer_save : Z -> W -> Stream.t * W;
  consumer_postSave : Z -> W -> W;
  consumer_postLoad : Z -> W -> W;
  consumer_globalPreLoad : W -> W;
  asg_context_create : Z -> Z -> Z -> W -> asg_context
}.

(** ** [class Globals] *)

(** [mLock] serialises the pool methods; the model is sequential and has no
    counterpart for it. *)

Section GlobalsMethods.
Context {SA W : Type} `{SubAllocator SA} `{Platform} `{Host W}.

Abbreviation St := (Sys SA W).
Abbreviation BlockT := (Block.t SA).

Definition host_call {A : Type} (f : W -> A * W) : M St A :=
  fun s => let '(a, w') := f (world s) in Ok (a, mkSys w' (globals s)).

Definition host_do (f : W -> W) : M St unit :=
  fun s => Ok (tt, mkSys (f (world s)) (globals s)).

Definition host_get {A : Type} (f : W -> A) : M St A :=
  fun s => Ok (f (world s), s).

(** A call through [mControlOps->]. *)
Definition control_op (f : W -> W) : M St unit :=
  fun s =>
    if mControlOps (globals s) =? 0 then Undef NullControlOps
    else Ok (tt, mkSys (f (world s)) (globals s)).

Definition get_pool (p : Pool) : M St (list BlockT) :=
  gets (fun s => pool_get p (globals s)).

Definition put_pool (p : Pool) (bs : list BlockT) : M St unit :=
  modify (fun s => mkSys (world s) (pool_set p bs (globals s))).

(** Assignment through the reference [existingBlocks[index]]. *)
Definition set_block (p : Pool) (index : nat) (b : BlockT) : M St unit :=
  modify (fun s =>
    mkSys (world s)
      (pool_set p (<[index := b]> (pool_get p (globals s))) (globals s))).

Definition initialize (ops : Z) : M St unit :=
  fun s =>
    let g := globals s in
    if mInitialized g then Ok (tt, s)
    else Ok (tt, mkSys (world s)
               (mkGlobals (mPerContextBufferSize g) true ops
                  (mConsumerInterface g) (mRingBlocks g) (mBufferBlocks g)
                  (mCombinedBlocks g))).

Definition setConsumer (iface : ConsumerInterface.t) : M St unit :=
  modify (fun s =>
    let g := globals s in
    mkSys (world s)
      (mkGlobals (mPerContextBufferSize g) (mInitialized g) (mControlOps g)
         iface (mRingBlocks g) (mBufferBlocks g) (mCombinedBlocks g))).

Definition getConsumerInterface : M St ConsumerInterface.t :=
  iface <- gets (fun s => mConsumerInterface (globals s)) ;;
  if negb (ConsumerInterface.create iface)
     || negb (ConsumerInterface.destroy iface)
     || negb (ConsumerInterface.preSave iface)
     || negb (ConsumerInterface.globalPreSave iface)
     || negb (ConsumerInterface.save iface)
     || negb (ConsumerInterface.globalPostSave iface)
     || negb (ConsumerInterface.postSave iface)
  then die ConsumerInterfaceNotSet
  else ret iface.

Definition perContextBufferSize : M St Z :=
  gets (fun s => mPerContextBufferSize (globals s)).

Definition fillBlockLocked (block : BlockT) (create : AllocationCreateInfo.t)
  : M St BlockT :=
  match AllocationCreateInfo.dedicatedContextHandle create with
  | Some _ =>
      if negb (AllocationCreateInfo.virtioGpu create)
      then die DedicatedWithoutVirtioGpu
      else if AllocationCreateInfo.externalAddr create =? 0
      then die DedicatedWithoutExternalAddr
      else
        let buffer := AllocationCreateInfo.externalAddr create in
        let bufferSize := AllocationCreateInfo.size create in
        ret {| Block.external := true;
               Block.buffer := buffer;
               Block.bufferSize := bufferSize;
               Block.subAlloc :=
                 Some (sa_new buffer bufferSize ADDRESS_SPACE_GRAPHICS_PAGE_SIZE);
               Block.offsetIntoPhys := 0;
               Block.isEmpty := false;
               Block.usesVirtioGpuHostmem := AllocationCreateInfo.virtioGpu create;
               Block.hostmemId := AllocationCreateInfo.hostmemId create;
               Block.dedicatedContextHandle :=
                 AllocationCreateInfo.dedicatedContextHandle create;
               Block.contents := [] |}
  | None =>
      if AllocationCreateInfo.virtioGpu create
      then die VirtioGpuWithoutDedicated
      else
        offsetIntoPhys <-
          (if AllocationCreateInfo.fromLoad create
           then
             let offsetIntoPhys := Block.offsetIntoPhys block in
             allocRes <- host_call
               (allocSharedHostRegionFixedLocked
                  ADDRESS_SPACE_GRAPHICS_BLOCK_SIZE offsetIntoPhys) ;;
             (* alloc failures are disregarded on load *)
             ret offsetIntoPhys
           else
             r <- host_call
               (fun w =>
                  let '(allocRes, off, w') :=
                    allocSharedHostRegionLocked
                      ADDRESS_SPACE_GRAPHICS_BLOCK_SIZE w in
                  ((allocRes, off), w')) ;;
             if truthy (fst r) then die FailedToAllocatePhysical
             else ret (snd r)) ;;
        buf <- host_call
          (aligned_buf_alloc ADDRESS_SPACE_GRAPHICS_PAGE_SIZE
             ADDRESS_SPACE_GRAPHICS_BLOCK_SIZE) ;;
        physStart <- host_get getPhysAddrStartLocked ;;
        control_op
          (add_memory_mapping (wrap64 (physStart + offsetIntoPhys)) buf
             ADDRESS_SPACE_GRAPHICS_BLOCK_SIZE) ;;;
        bytes <- host_get (fresh_bytes buf ADDRESS_SPACE_GRAPHICS_BLOCK_SIZE) ;;
        ret {| Block.buffer := buf;
               Block.bufferSize := ADDRESS_SPACE_GRAPHICS_BLOCK_SIZE;
               Block.subAlloc :=
                 Some (sa_new buf ADDRESS_SPACE_GRAPHICS_BLOCK_SIZE
                         ADDRESS_SPACE_GRAPHICS_PAGE_SIZE);
               Block.offsetIntoPhys := offsetIntoPhys;
               Block.isEmpty := false;
               Block.dedicatedContextHandle := Block.dedicatedContextHandle block;
               Block.usesVirtioGpuHostmem := Block.usesVirtioGpuHostmem block;
               Block.hostmemId := Block.hostmemId block;
               Block.external := Block.external block;
               Block.contents := bytes |}
  end.

Definition destroyBlockLocked (block : BlockT) : M St BlockT :=
  (if Block.usesVirtioGpuHostmem block && negb (Block.external block)
   then control_op (hostmem_unregister (Block.hostmemId block))
   else if negb (Block.external block)
   then
     physStart <- host_get getPhysAddrStartLocked ;;
     control_op
       (remove_memory_mapping
          (wrap64 (physStart + Block.offsetIntoPhys block))
          (Block.buffer block) ADDRESS_SPACE_GRAPHICS_BLOCK_SIZE) ;;;
     host_do (freeSharedHostRegionLocked (Block.offsetIntoPhys block))
   else ret tt) ;;;
  (* delete block.subAlloc *)
  let block := Block.with_subAlloc None block in
  (if negb (Block.external block)
   then host_do (aligned_buf_free (Block.buffer block))
   else ret tt) ;;;
  ret (Block.with_isEmpty true block).

Definition shouldDestryBlockLocked (block : BlockT) : M St bool :=
  match Block.subAlloc block with
  | Some sa => ret (sa_empty sa)
  | None => undef NullSubAllocator
  end.

Fixpoint destroy_each (blocks : list BlockT) : M St unit :=
  match blocks with
  | [] => ret tt
  | block :: rest =>
      (if Block.isEmpty block then ret tt
       else destroyBlockLocked block ;;; ret tt) ;;;
      destroy_each rest
  end.

Definition clear : M St unit :=
  ring <- get_pool RingPool ;;
  destroy_each ring ;;;
  buffer <- get_pool BufferPool ;;
  destroy_each buffer ;;;
  combined <- get_pool CombinedPool ;;
  destroy_each combined ;;;
  put_pool RingPool [] ;;;
  put_pool BufferPool [] ;;;
  put_pool CombinedPool [].


(** The first-fit loop of [newAllocation]:
    [for (index = 0; index < existingBlocks.size(); index++)], with
    [remaining] the number of iterations left.  [Some res] is the early
    [return res]; [None] means the loop ran to its end. *)
Fixpoint newAllocation_scan (create : AllocationCreateInfo.t) (p : Pool)
    (remaining : nat) (index : nat) : M St (option Allocation.t) :=
  match remaining with
  | O => ret None
  | S remaining' =>
      blocks <- get_pool p ;;
      match blocks !! index with
      | None => ret None
      | Some block0 =>
          block <-
            (if Block.isEmpty block0
             then
               filled <- fillBlockLocked block0 create ;;
               set_block p index filled ;;;
               ret filled
             else ret block0) ;;
          if negb (bool_decide
                     (Block.dedicatedContextHandle block =
                      AllocationCreateInfo.dedicatedContextHandle create))
          then newAllocation_scan create p remaining' (S index)
          else
            match Block.subAlloc block with
            | None => undef NullSubAllocator
            | Some sa =>
                let '(buf, sa') := sa_alloc (AllocationCreateInfo.size create) sa in
                set_block p index (Block.with_subAlloc (Some sa') block) ;;;
                if negb (buf =? 0)
                then
                  ret (Some
                    {| Allocation.buffer := buf;
                       Allocation.blockIndex := Z.of_nat index;
                       Allocation.offsetIntoPhys :=
                         wrap64 (Block.offsetIntoPhys block + sa_getOffset buf sa');
                       Allocation.size := AllocationCreateInfo.size create;
                       Allocation.dedicatedContextHandle :=
                         AllocationCreateInfo.dedicatedContextHandle create;
                       Allocation.hostmemId := AllocationCreateInfo.hostmemId create;
                       Allocation.isView := false |})
                else (* block full *)
                  newAllocation_scan create p remaining' (S index)
            end
      end
  end.

Definition newAllocation (create : AllocationCreateInfo.t) (p : Pool)
  : M St Allocation.t :=
  if AllocationCreateInfo.size create >? ADDRESS_SPACE_GRAPHICS_BLOCK_SIZE
  then die WantedSizeGreaterThanBlockSize
  else
    existingBlocks <- get_pool p ;;
    found <- newAllocation_scan create p (length existingBlocks) 0 ;;
    match found with
    | Some res => ret res
    | None =>
        existingBlocks <- get_pool p ;;
        let index := length existingBlocks in
        newBlock <- fillBlockLocked Block.default create ;;
        match Block.subAlloc newBlock with
        | None => undef NullSubAllocator
        | Some sa =>
            let '(buf, sa') := sa_alloc (AllocationCreateInfo.size create) sa in
            let newBlock := Block.with_subAlloc (Some sa') newBlock in
            if buf =? 0 then die FailedToAllocate
            else
              put_pool p (existingBlocks ++ [newBlock]) ;;;
              ret {| Allocation.buffer := buf;
                     Allocation.blockIndex := Z.of_nat index;
                     Allocation.offsetIntoPhys :=
                       wrap64 (Block.offsetIntoPhys newBlock
                               + sa_getOffset buf sa');
                     Allocation.size := AllocationCreateInfo.size create;
                     Allocation.dedicatedContextHandle :=
                       AllocationCreateInfo.dedicatedContextHandle create;
                     Allocation.hostmemId := AllocationCreateInfo.hostmemId create;
                     Allocation.isView := false |}
        end
    end.

Definition deleteAllocation (alloc : Allocation.t) (p : Pool) : M St unit :=
  if Allocation.buffer alloc =? 0 then ret tt
  else
    existingBlocks <- get_pool p ;;
    if Z.of_nat (length existingBlocks) <=? Allocation.blockIndex alloc
    then die BlockIndexNotFound
    else
      let index := Z.to_nat (Allocation.blockIndex alloc) in
      match existingBlocks !! index with
      | None => die BlockIndexNotFound
      | Some block =>
          if Block.external block
          then
            destroyed <- destroyBlockLocked block ;;
            set_block p index destroyed
          else
            match Block.subAlloc block with
            | None => undef NullSubAllocator
            | Some sa =>
                let '(freed, sa') := sa_free (Allocation.buffer alloc) sa in
                let block := Block.with_subAlloc (Some sa') block in
                set_block p index block ;;;
                if negb freed then die FailedToFree
                else
                  should <- shouldDestryBlockLocked block ;;
                  if should
                  then
                    destroyed <- destroyBlockLocked block ;;
                    set_block p index destroyed
                  else ret tt
            end
      end.

Definition allocRingStorage : M St Allocation.t :=
  let create :=
    {| AllocationCreateInfo.virtioGpu := false;
       AllocationCreateInfo.hostmemRegisterFixed := false;
       AllocationCreateInfo.fromLoad := false;
       AllocationCreateInfo.size := sizeof_asg_ring_storage;
       AllocationCreateInfo.hostmemId := 0;
       AllocationCreateInfo.externalAddr := 0;
       AllocationCreateInfo.dedicatedContextHandle := None |} in
  newAllocation create RingPool.

Definition freeRingStorage (alloc : Allocation.t) : M St unit :=
  if Allocation.isView alloc then ret tt
  else deleteAllocation alloc RingPool.

Definition allocBuffer : M St Allocation.t :=
  size <- gets (fun s => mPerContextBufferSize (globals s)) ;;
  let create :=
    {| AllocationCreateInfo.virtioGpu := false;
       AllocationCreateInfo.hostmemRegisterFixed := false;
       AllocationCreateInfo.fromLoad := false;
       AllocationCreateInfo.size := size;
       AllocationCreateInfo.hostmemId := 0;
       AllocationCreateInfo.externalAddr := 0;
       AllocationCreateInfo.dedicatedContextHandle := None |} in
  newAllocation create BufferPool.

Definition freeBuffer (alloc : Allocation.t) : M St unit :=
  if Allocation.isView alloc then ret tt
  else deleteAllocation alloc BufferPool.

Definition allocRingAndBufferStorageDedicated
    (handle externalAddr externalAddrSize : Z) : M St Allocation.t :=
  if handle =? 0 then die DedicatedWithoutHandle
  else
    perCtx <- gets (fun s => mPerContextBufferSize (globals s)) ;;
    let size0 := wrap64 (sizeof_asg_ring_storage + perCtx) in
    create <-
      (if negb (externalAddr =? 0)
       then
         if externalAddrSize <? size0 then die ExternalAddressSizeTooSmall
         else
           ret {| AllocationCreateInfo.virtioGpu := true;
                  AllocationCreateInfo.hostmemRegisterFixed := false;
                  AllocationCreateInfo.fromLoad := false;
                  AllocationCreateInfo.size := externalAddrSize;
                  AllocationCreateInfo.hostmemId := 0;
                  AllocationCreateInfo.externalAddr := externalAddr;
                  AllocationCreateInfo.dedicatedContextHandle := Some handle |}
       else
         ret {| AllocationCreateInfo.virtioGpu := true;
                AllocationCreateInfo.hostmemRegisterFixed := false;
                AllocationCreateInfo.fromLoad := false;
                AllocationCreateInfo.size := size0;
                AllocationCreateInfo.hostmemId := 0;
                AllocationCreateInfo.externalAddr := 0;
                AllocationCreateInfo.dedicatedContextHandle := Some handle |}) ;;
    newAllocation create CombinedPool.

Definition allocRingViewIntoCombined (alloc : Allocation.t) : M St Allocation.t :=
  ret {| Allocation.buffer := Allocation.buffer alloc;
         Allocation.blockIndex := Allocation.blockIndex alloc;
         Allocation.offsetIntoPhys := Allocation.offsetIntoPhys alloc;
         Allocation.size := sizeof_asg_ring_storage;
         Allocation.dedicatedContextHandle := Allocation.dedicatedContextHandle alloc;
         Allocation.hostmemId := Allocation.hostmemId alloc;
         Allocation.isView := true |}.

Definition allocBufferViewIntoCombined (alloc : Allocation.t) : M St Allocation.t :=
  perCtx <- gets (fun s => mPerContextBufferSize (globals s)) ;;
  ret {| Allocation.buffer := Allocation.buffer alloc + sizeof_asg_ring_storage;
         Allocation.blockIndex := Allocation.blockIndex alloc;
         Allocation.offsetIntoPhys := Allocation.offsetIntoPhys alloc;
         Allocation.size := perCtx;
         Allocation.dedicatedContextHandle := Allocation.dedicatedContextHandle alloc;
         Allocation.hostmemId := Allocation.hostmemId alloc;
         Allocation.isView := true |}.

Definition freeRingAndBuffer (alloc : Allocation.t) : M St unit :=
  deleteAllocation alloc CombinedPool.

(** *** Snapshot of the pools *)

(** Writing to the stream: the state of the monad is the bytes written so
    far. *)
Definition emit (bs : Stream.t) : M Stream.t unit :=
  modify (fun out => out ++ bs).

Definition saveBlockLocked (block : BlockT) : M Stream.t unit :=
  if Block.isEmpty block then emit (Stream.putBe32 0)
  else
    emit (Stream.putBe32 1) ;;;
    emit (Stream.putBe64 (Block.bufferSize block)) ;;;
    emit (Stream.putBe64 (Block.offsetIntoPhys block)) ;;;
    match Block.dedicatedContextHandle block with
    | Some handle =>
        emit (Stream.putBe32 1) ;;;
        emit (Stream.putBe32 handle)
    | None => emit (Stream.putBe32 0)
    end ;;;
    emit (Stream.putBe32 (Z_of_bool (Block.usesVirtioGpuHostmem block))) ;;;
    emit (Stream.putBe64 (Block.hostmemId block)) ;;;
    match Block.subAlloc block with
    | Some sa => emit (sa_save sa)
    | None => undef NullSubAllocator
    end ;;;
    if negb (Block.external block)
    then emit (take (Z.to_nat (Block.bufferSize block)) (Block.contents block))
    else ret tt.

Fixpoint save_each (blocks : list BlockT) : M Stream.t unit :=
  match blocks with
  | [] => ret tt
  | block :: rest => saveBlockLocked block ;;; save_each rest
  end.

Definition save (g : Globals SA) : M Stream.t unit :=
  emit (Stream.putBe64 (Z.of_nat (length (mRingBlocks g)))) ;;;
  emit (Stream.putBe64 (Z.of_nat (length (mBufferBlocks g)))) ;;;
  emit (Stream.putBe64 (Z.of_nat (length (mCombinedBlocks g)))) ;;;
  save_each (mRingBlocks g) ;;;
  save_each (mBufferBlocks g) ;;;
  save_each (mCombinedBlocks g).

(** [AddressSpaceDeviceLoadResources::ExternalMemory] and the map from
    context handle to it. *)
Record ExternalMemory : Type := mkExternalMemory {
  externalAddress : Z;
  externalAddressSize : Z
}.

Definition LoadResources : Type := option (gmap Z ExternalMemory).

(** Reading from the stream: the state is the unread input together with
    the process state. *)
Abbreviation Ld := (Stream.t * St)%type.

Definition from_stream {A : Type} (f : Stream.t -> option (A * Stream.t))
  : M Ld A :=
  fun st =>
    match f (fst st) with
    | Some (a, rest) => Ok (a, (rest, snd st))
    | None => Undef ShortStream
    end.

Definition on_sys {A : Type} (m : M St A) : M Ld A :=
  fun st =>
    match m (snd st) with
    | Ok (a, s') => Ok (a, (fst st, s'))
    | Die r => Die r
    | Undef u => Undef u
    end.

Definition loadBlockLocked (resources : LoadResources) (block : BlockT)
  : M Ld BlockT :=
  filled <- from_stream Stream.getBe32 ;;
  if negb (truthy filled) then ret (Block.with_isEmpty true block)
  else
    let block := Block.with_isEmpty false block in
    size <- from_stream Stream.getBe64 ;;
    offsetIntoPhys <- from_stream Stream.getBe64 ;;
    let block := Block.with_offsetIntoPhys offsetIntoPhys block in
    hasHandle <- from_stream Stream.getBe32 ;;
    dedicatedContextHandle <-
      (if hasHandle =? 1
       then h <- from_stream Stream.getBe32 ;; ret (Some h)
       else ret None) ;;
    virtioWord <- from_stream Stream.getBe32 ;;
    let virtioGpu := truthy virtioWord in
    externalAddr <-
      (if virtioGpu
       then
         match dedicatedContextHandle with
         | None => die LoadVirtioWithoutDedicated
         | Some handle =>
             match resources with
             | None => die LoadVirtioWithoutResources
             | Some contextExternalMemoryMap =>
                 match contextExternalMemoryMap !! handle with
                 | None => die LoadVirtioWithoutReplacement
                 | Some externalMemory => ret (externalAddress externalMemory)
                 end
             end
         end
       else ret 0) ;;
    hostmemId <- from_stream Stream.getBe64 ;;
    let create :=
      {| AllocationCreateInfo.virtioGpu := virtioGpu;
         AllocationCreateInfo.hostmemRegisterFixed := true;
         AllocationCreateInfo.fromLoad := true;
         AllocationCreateInfo.size := size;
         AllocationCreateInfo.hostmemId := hostmemId;
         AllocationCreateInfo.externalAddr := externalAddr;
         AllocationCreateInfo.dedicatedContextHandle := dedicatedContextHandle |} in
    block <- on_sys (fillBlockLocked block create) ;;
    match Block.subAlloc block with
    | None => undef NullSubAllocator
    | Some sa =>
        sa' <- from_stream (fun s => sa_load s sa) ;;
        let block := Block.with_subAlloc (Some sa') block in
        if negb (Block.external block)
        then
          bytes <- from_stream (Stream.read (Z.to_nat (Block.bufferSize block))) ;;
          ret (Block.with_contents bytes block)
        else ret block
    end.

Fixpoint load_each (resources : LoadResources) (blocks : list BlockT)
  : M Ld (list BlockT) :=
  match blocks with
  | [] => ret []
  | block :: rest =>
      block' <- loadBlockLocked resources block ;;
      rest' <- load_each resources rest ;;
      ret (block' :: rest')
  end.

Definition load (resources : LoadResources) : M Ld bool :=
  on_sys clear ;;;
  iface <- on_sys (gets (fun s => mConsumerInterface (globals s))) ;;
  (if ConsumerInterface.globalPreLoad iface
   then on_sys (host_do consumer_globalPreLoad)
   else undef EmptyFunction) ;;;
  ringBlockCount <- from_stream Stream.getBe64 ;;
  bufferBlockCount <- from_stream Stream.getBe64 ;;
  combinedBlockCount <- from_stream Stream.getBe64 ;;
  ring <- load_each resources (replicate (Z.to_nat ringBlockCount) Block.default) ;;
  on_sys (put_pool RingPool ring) ;;;
  buffer <- load_each resources (replicate (Z.to_nat bufferBlockCount) Block.default) ;;
  on_sys (put_pool BufferPool buffer) ;;;
  combined <-
    load_each resources (replicate (Z.to_nat combinedBlockCount) Block.default) ;;
  on_sys (put_pool CombinedPool combined) ;;;
  ret true.

Inductive AllocType : Type :=
| AllocTypeRing
| AllocTypeBuffer
| AllocTypeCombined
| AllocType_unlisted.

Definition fillAllocFromLoad_block (block : BlockT) (alloc : Allocation.t)
  : Allocation.t :=
  {| Allocation.buffer :=
       Block.buffer block
       + wrap64 (Allocation.offsetIntoPhys alloc - Block.offsetIntoPhys block);
     Allocation.blockIndex := Allocation.blockIndex alloc;
     Allocation.offsetIntoPhys := Allocation.offsetIntoPhys alloc;
     Allocation.size := Allocation.size alloc;
     Allocation.dedicatedContextHandle := Block.dedicatedContextHandle block;
     Allocation.hostmemId := Block.hostmemId block;
     Allocation.isView := Allocation.isView alloc |}.

Definition fillAllocFromLoad_in (p : Pool) (alloc : Allocation.t)
  : M St Allocation.t :=
  blocks <- get_pool p ;;
  if Z.of_nat (length blocks) <=? Allocation.blockIndex alloc then ret alloc
  else
    match blocks !! Z.to_nat (Allocation.blockIndex alloc) with
    | Some block => ret (fillAllocFromLoad_block block alloc)
    | None => ret alloc
    end.

Definition fillAllocFromLoad (alloc : Allocation.t) (allocType : AllocType)
  : M St Allocation.t :=
  match allocType with
  | AllocTypeRing => fillAllocFromLoad_in RingPool alloc
  | AllocTypeBuffer => fillAllocFromLoad_in BufferPool alloc
  | AllocTypeCombined => fillAllocFromLoad_in CombinedPool alloc
  | AllocType_unlisted => die AbortReasonOther
  end.

End GlobalsMethods.

(** ** [class AddressSpaceGraphicsContext] *)

Inductive AddressSpaceDeviceType : Type :=
| Graphics
| VirtioGpuGraphics
| DeviceType_unlisted (v : Z).

(** The members of [struct AddressSpaceCreateInfo] that the constructor
    reads; [handle] is [0] when no dedicated handle is given. *)
Record AddressSpaceCreateInfo : Type := mkAddressSpaceCreateInfo {
  handle : Z;
  type : AddressSpaceDeviceType;
  fromSnapshot : bool;
  createRenderThread : bool;
  externalAddr : Z;
  externalAddrSize : Z;
  virtioGpuContextId : Z;
  virtioGpuCapsetId : Z;
  contextName : list byte;
  contextNameSize : Z
}.

(** The two members of [AddressSpaceDevicePingInfo] that [perform] uses. *)
Record AddressSpaceDevicePingInfo : Type := mkPingInfo {
  metadata : Z;
  size : Z
}.

Inductive ConsumerCommand : Type :=
| Wakeup
| Sleep
| Exit
| PausePreSnapshot
| ResumePostSnapshot
| Command_unlisted (v : Z).

Record VirtioGpuInfo : Type := mkVirtioGpuInfo {
  contextId : Z;
  capsetId : Z;
  name : option (list byte)
}.

Module AddressSpaceGraphicsContext.

(** [mConsumerMessages] is the queue of commands sent and not yet
    received, oldest first. *)
Record t : Type := mk {
  mRingAllocation : Allocation.t;
  mBufferAllocation : Allocation.t;
  mCombinedAllocation : Allocation.t;
  mHostContext : asg_context;
  mVersion : Z;
  mExiting : Z;
  mUnavailableReadCount : Z;
  mVirtioGpuInfo : option VirtioGpuInfo;
  mSavedConfig : asg_ring_config;
  mConsumerInterface : ConsumerInterface.t;
  mCurrentConsumer : Z;
  mConsumerMessages : list ConsumerCommand
}.

Definition set_host_state (st : asg_host_state) (c : t) : t :=
  let h := mHostContext c in
  mk (mRingAllocation c) (mBufferAllocation c) (mCombinedAllocation c)
     (mk_asg_context (ring_storage h) (ctx_buffer h) (ctx_buffer_size h)
        (ring_config h) st)
     (mVersion c) (mExiting c) (mUnavailableReadCount c) (mVirtioGpuInfo c)
     (mSavedConfig c) (mConsumerInterface c) (mCurrentConsumer c)
     (mConsumerMessages c).

Definition set_ring_config (cfg : asg_ring_config) (c : t) : t :=
  let h := mHostContext c in
  mk (mRingAllocation c) (mBufferAllocation c) (mCombinedAllocation c)
     (mk_asg_context (ring_storage h) (ctx_buffer h) (ctx_buffer_size h)
        cfg (host_state h))
     (mVersion c) (mExiting c) (mUnavailableReadCount c) (mVirtioGpuInfo c)
     (mSavedConfig c) (mConsumerInterface c) (mCurrentConsumer c)
     (mConsumerMessages c).

Definition set_mUnavailableReadCount (n : Z) (c : t) : t :=
  mk (mRingAllocation c) (mBufferAllocation c) (mCombinedAllocation c)
     (mHostContext c) (mVersion c) (mExiting c) n (mVirtioGpuInfo c)
     (mSavedConfig c) (mConsumerInterface c) (mCurrentConsumer c)
     (mConsumerMessages c).

Definition set_mConsumerMessages (q : list ConsumerCommand) (c : t) : t :=
  mk (mRingAllocation c) (mBufferAllocation c) (mCombinedAllocation c)
     (mHostContext c) (mVersion c) (mExiting c) (mUnavailableReadCount c)
     (mVirtioGpuInfo c) (mSavedConfig c) (mConsumerInterface c)
     (mCurrentConsumer c) q.

Definition set_mVersion (v : Z) (c : t) : t :=
  mk (mRingAllocation c) (mBufferAllocation c) (mCombinedAllocation c)
     (mHostContext c) v (mExiting c) (mUnavailableReadCount c)
     (mVirtioGpuInfo c) (mSavedConfig c) (mConsumerInterface c)
     (mCurrentConsumer c) (mConsumerMessages c).

Definition set_mExiting (e : Z) (c : t) : t :=
  mk (mRingAllocation c) (mBufferAllocation c) (mCombinedAllocation c)
     (mHostContext c) (mVersion c) e (mUnavailableReadCount c)
     (mVirtioGpuInfo c) (mSavedConfig c) (mConsumerInterface c)
     (mCurrentConsumer c) (mConsumerMessages c).

Definition set_mCurrentConsumer (h : Z) (c : t) : t :=
  mk (mRingAllocation c) (mBufferAllocation c) (mCombinedAllocation c)
     (mHostContext c) (mVersion c) (mExiting c) (mUnavailableReadCount c)
     (mVirtioGpuInfo c) (mSavedConfig c) (mConsumerInterface c) h
     (mConsumerMessages c).

(** *** [onUnavailableRead] *)

(** What the consumer thread does during one call, in order. *)
Inductive Event : Type :=
| EvYield                               (* ring_buffer_yield() *)
| EvHostState (st : asg_host_state)     (* *(mHostContext.host_state) = st *)
| EvReceived (cmd : ConsumerCommand)    (* receive(&cmd) handed over cmd *)
| EvParked                              (* receive(&cmd) found the queue empty *).

(** How a call ends: [Returned v] is [return v]; [Parked] is a call that
    sits in [mConsumerMessages.receive] because the queue is empty;
    [Aborted] is the [crashhandler_die] of the default case. *)
Inductive Ending : Type :=
| Returned (v : Z)
| Parked
| Aborted (r : FatalReason).

Record Call : Type := mkCall {
  ending : Ending;
  after : t;
  events : list Event
}.

Definition kMaxUnavailableReads : Z := 8.

(** The code from the label [sleep:] on.  [queue] is the content of
    [mConsumerMessages]; each [goto sleep] takes the next command. *)
Fixpoint sleep_loop (c : t) (queue : list ConsumerCommand) (done : list Event)
  : Call :=
  let c := set_host_state ASG_HOST_STATE_NEED_NOTIFY c in
  let done := done ++ [EvHostState ASG_HOST_STATE_NEED_NOTIFY] in
  match queue with
  | [] => mkCall Parked (set_mConsumerMessages [] c) (done ++ [EvParked])
  | cmd :: rest =>
      let c := set_mConsumerMessages rest c in
      let done := done ++ [EvReceived cmd] in
      match cmd with
      | Wakeup =>
          mkCall (Returned 1)
            (set_host_state ASG_HOST_STATE_CAN_CONSUME c)
            (done ++ [EvHostState ASG_HOST_STATE_CAN_CONSUME])
      | Exit =>
          mkCall (Returned (-1))
            (set_host_state ASG_HOST_STATE_EXIT c)
            (done ++ [EvHostState ASG_HOST_STATE_EXIT])
      | Sleep => sleep_loop c rest done
      | PausePreSnapshot => mkCall (Returned (-2)) c done
      | ResumePostSnapshot => mkCall (Returned (-3)) c done
      | Command_unlisted v =>
          mkCall (Aborted (UnknownConsumerCommand v)) c done
      end
  end.

Definition onUnavailableRead (c : t) : Call :=
  let c := set_mUnavailableReadCount (wrap32 (mUnavailableReadCount c + 1)) c in
  let done := [EvYield] in
  let c :=
    if truthy (mExiting c)
    then set_mUnavailableReadCount kMaxUnavailableReads c
    else c in
  if mUnavailableReadCount c >=? kMaxUnavailableReads
  then
    let c := set_mUnavailableReadCount 0 c in
    sleep_loop c (mConsumerMessages c) done
  else mkCall (Returned 0) c done.

Section Methods.
Context {SA W : Type} `{SubAllocator SA} `{Platform} `{Host W}.

Abbreviation St := (Sys SA W).

(** Members as they are before the constructor body runs. *)
Definition initial (iface : ConsumerInterface.t) : t :=
  {| mRingAllocation := Allocation.default;
     mBufferAllocation := Allocation.default;
     mCombinedAllocation := Allocation.default;
     mHostContext :=
       mk_asg_context 0 0 0 (mk_ring_config 0 0 0 0 0 0 0)
         (ASG_HOST_STATE_unlisted 0);
     mVersion := initial_mVersion;
     mExiting := 0;
     mUnavailableReadCount := 0;
     mVirtioGpuInfo := None;
     mSavedConfig := mk_ring_config 0 0 0 0 0 0 0;
     mConsumerInterface := iface;
     mCurrentConsumer := 0;
     mConsumerMessages := [] |}.

(** [mConsumerInterface.create(mHostContext, loadStream, mConsumerCallbacks,
    contextId, capsetId, name)]: the handle of the new consumer, and what
    the consumer left unread of the load stream. *)
Definition create_consumer (c : t) (loadStream : option Stream.t)
    (contextId capsetId : Z) (name : option (list byte))
  : W -> (Z * Stream.t) * W :=
  fun w =>
    let '(h, rest, w') :=
      consumer_create (mHostContext c) loadStream contextId capsetId name w in
    ((h, rest), w').

Definition in_world {A : Type} (f : W -> A * W) : M W A :=
  fun w => Ok (f w).

Definition virtio_contextId (c : t) : Z :=
  match mVirtioGpuInfo c with Some info => contextId info | None => 0 end.
Definition virtio_capsetId (c : t) : Z :=
  match mVirtioGpuInfo c with Some info => capsetId info | None => 0 end.
Definition virtio_name (c : t) : option (list byte) :=
  match mVirtioGpuInfo c with Some info => name info | None => None end.

(** The constructor. *)
Definition construct (create : AddressSpaceCreateInfo) : M St t :=
  iface <- getConsumerInterface ;;
  let this := initial iface in
  if fromSnapshot create then ret this
  else
    let isVirtio :=
      match type create with VirtioGpuGraphics => true | _ => false end in
    allocs <-
      (if isVirtio
       then
         combined <- allocRingAndBufferStorageDedicated
                       (handle create) (externalAddr create)
                       (externalAddrSize create) ;;
         ring <- allocRingViewIntoCombined combined ;;
         buffer <- allocBufferViewIntoCombined combined ;;
         ret (ring, buffer, combined)
       else
         ring <- allocRingStorage ;;
         buffer <- allocBuffer ;;
         ret (ring, buffer, Allocation.default)) ;;
    let '(ring, buffer, combined) := allocs in
    let info :=
      if isVirtio
      then Some {| contextId := virtioGpuContextId create;
                   capsetId := virtioGpuCapsetId create;
                   name :=
                     if truthy (contextNameSize create)
                     then Some (take (Z.to_nat (contextNameSize create))
                                  (contextName create))
                     else None |}
      else None in
    if Allocation.buffer ring =? 0 then die FailedToAllocateRing
    else if Allocation.buffer buffer =? 0 then die FailedToAllocateBuffer
    else
      perCtx <- perContextBufferSize ;;
      created <- host_get
        (asg_context_create (Allocation.buffer ring) (Allocation.buffer buffer)
           perCtx) ;;
      let config :=
        {| buffer_size := wrap32 perCtx;
           flush_interval := wrap32 hw_gltransport_asg_writeStepSize;
           host_consumed_pos := 0;
           guest_write_pos := 0;
           transfer_mode := 1;
           transfer_size := 0;
           in_error := 0 |} in
      let this :=
        {| mRingAllocation := ring;
           mBufferAllocation := buffer;
           mCombinedAllocation := combined;
           mHostContext :=
             mk_asg_context (ring_storage created) (ctx_buffer created)
               (ctx_buffer_size created) config (host_state created);
           mVersion := mVersion this;
           mExiting := mExiting this;
           mUnavailableReadCount := mUnavailableReadCount this;
           mVirtioGpuInfo := info;
           mSavedConfig := config;
           mConsumerInterface := iface;
           mCurrentConsumer := mCurrentConsumer this;
           mConsumerMessages := mConsumerMessages this |} in
      if createRenderThread create
      then
        if ConsumerInterface.create (mConsumerInterface this)
        then
          r <- host_call
                 (create_consumer this None (virtio_contextId this)
                    (virtio_capsetId this) (virtio_name this)) ;;
          ret (set_mCurrentConsumer (fst r) this)
        else undef EmptyFunction
      else ret this.

(** The destructor; the result is the object as the destructor leaves it.
    [send] is modelled as appending to the queue. *)
Definition destruct_ (c : t) : M St t :=
  c <-
    (if negb (mCurrentConsumer c =? 0)
     then
       let c := set_mExiting 1 c in
       let c := set_host_state ASG_HOST_STATE_EXIT c in
       let c := set_mConsumerMessages (mConsumerMessages c ++ [Exit]) c in
       (if ConsumerInterface.destroy (mConsumerInterface c)
        then host_do (consumer_destroy (mCurrentConsumer c))
        else undef EmptyFunction) ;;;
       ret c
     else ret c) ;;
  freeBuffer (mBufferAllocation c) ;;;
  freeRingStorage (mRingAllocation c) ;;;
  freeRingAndBuffer (mCombinedAllocation c) ;;;
  ret c.

Definition trySend (cmd : ConsumerCommand) (c : t) : t :=
  if (length (mConsumerMessages c) <? consumer_channel_capacity)%nat
  then set_mConsumerMessages (mConsumerMessages c ++ [cmd]) c
  else c.

Definition perform (c : t) (info : AddressSpaceDevicePingInfo)
  : M W (t * AddressSpaceDevicePingInfo) :=
  match asg_command_of (metadata info) with
  | ASG_GET_RING =>
      ret (c, {| metadata := Allocation.offsetIntoPhys (mRingAllocation c);
                 size := Allocation.size (mRingAllocation c) |})
  | ASG_GET_BUFFER =>
      ret (c, {| metadata := Allocation.offsetIntoPhys (mBufferAllocation c);
                 size := Allocation.size (mBufferAllocation c) |})
  | ASG_SET_VERSION =>
      let guestVersion := wrap32 (size info) in
      let info :=
        {| metadata := metadata info;
           size := if mVersion c >? guestVersion then guestVersion
                   else mVersion c |} in
      let c := set_mVersion (wrap32 (size info)) c in
      r <- (if ConsumerInterface.create (mConsumerInterface c)
            then in_world (create_consumer c None 0 0 None)
            else undef EmptyFunction) ;;
      let c := set_mCurrentConsumer (fst r) c in
      match mVirtioGpuInfo c with
      | Some _ =>
          ret (c, {| metadata := Allocation.hostmemId (mCombinedAllocation c);
                     size := size info |})
      | None => ret (c, info)
      end
  | ASG_NOTIFY_AVAILABLE =>
      ret (trySend Wakeup c, {| metadata := 0; size := size info |})
  | ASG_GET_CONFIG =>
      ret (set_ring_config (mSavedConfig c) c,
           {| metadata := 0; size := size info |})
  | ASG_unlisted => ret (c, info)
  end.

(** *** Snapshot of one context *)

(** [save] writes to the stream and calls the consumer: the state is the
    bytes written so far and the host world. *)
Abbreviation Sv := (Stream.t * W)%type.

Definition put (bs : Stream.t) : M Sv unit :=
  modify (fun st => (fst st ++ bs, snd st)).

Definition saveRingConfig (config : asg_ring_config) : M Sv unit :=
  put (Stream.putBe32 (buffer_size config)) ;;;
  put (Stream.putBe32 (flush_interval config)) ;;;
  put (Stream.putBe32 (host_consumed_pos config)) ;;;
  put (Stream.putBe32 (guest_write_pos config)) ;;;
  put (Stream.putBe32 (transfer_mode config)) ;;;
  put (Stream.putBe32 (transfer_size config)) ;;;
  put (Stream.putBe32 (in_error config)).

Definition saveAllocation (alloc : Allocation.t) : M Sv unit :=
  put (Stream.putBe64 (Allocation.blockIndex alloc)) ;;;
  put (Stream.putBe64 (Allocation.offsetIntoPhys alloc)) ;;;
  put (Stream.putBe64 (Allocation.size alloc)) ;;;
  put (Stream.putBe32 (Z_of_bool (Allocation.isView alloc))).

Definition save (c : t) : M Sv unit :=
  match mVirtioGpuInfo c with
  | Some info =>
      put (Stream.putBe32 1) ;;;
      put (Stream.putBe32 (contextId info)) ;;;
      put (Stream.putBe32 (capsetId info)) ;;;
      match name info with
      | Some str =>
          put (Stream.putBe32 1) ;;;
          put (Stream.putString str)
      | None => put (Stream.putBe32 0)
      end
  | None => put (Stream.putBe32 0)
  end ;;;
  put (Stream.putBe32 (mVersion c)) ;;;
  put (Stream.putBe32 (mExiting c)) ;;;
  put (Stream.putBe32 (mUnavailableReadCount c)) ;;;
  saveAllocation (mRingAllocation c) ;;;
  saveAllocation (mBufferAllocation c) ;;;
  saveAllocation (mCombinedAllocation c) ;;;
  saveRingConfig (mSavedConfig c) ;;;
  if negb (mCurrentConsumer c =? 0)
  then
    put (Stream.putBe32 1) ;;;
    if ConsumerInterface.save (mConsumerInterface c)
    then
      fun st =>
        let '(bytes, w') := consumer_save (mCurrentConsumer c) (snd st) in
        Ok (tt, (fst st ++ bytes, w'))
    else undef EmptyFunction
  else put (Stream.putBe32 0).

Abbreviation Ld := (Stream.t * St)%type.

Definition loadRingConfig : M Ld asg_ring_config :=
  buffer_size <- from_stream Stream.getBe32 ;;
  flush_interval <- from_stream Stream.getBe32 ;;
  host_consumed_pos <- from_stream Stream.getBe32 ;;
  guest_write_pos <- from_stream Stream.getBe32 ;;
  transfer_mode <- from_stream Stream.getBe32 ;;
  transfer_size <- from_stream Stream.getBe32 ;;
  in_error <- from_stream Stream.getBe32 ;;
  ret (mk_ring_config buffer_size flush_interval host_consumed_pos
         guest_write_pos transfer_mode transfer_size in_error).

Definition loadAllocation (alloc : Allocation.t) : M Ld Allocation.t :=
  blockIndex <- from_stream Stream.getBe64 ;;
  offsetIntoPhys <- from_stream Stream.getBe64 ;;
  size <- from_stream Stream.getBe64 ;;
  isView <- from_stream Stream.getBe32 ;;
  ret {| Allocation.buffer := Allocation.buffer alloc;
         Allocation.blockIndex := blockIndex;
         Allocation.offsetIntoPhys := offsetIntoPhys;
         Allocation.size := size;
         Allocation.dedicatedContextHandle := Allocation.dedicatedContextHandle alloc;
         Allocation.hostmemId := Allocation.hostmemId alloc;
         Allocation.isView := truthy isView |}.

Definition load (c : t) : M Ld t :=
  hasVirtioGpuInfo <- from_stream Stream.getBe32 ;;
  virtioGpuInfo <-
    (if hasVirtioGpuInfo =? 1
     then
       contextId <- from_stream Stream.getBe32 ;;
       capsetId <- from_stream Stream.getBe32 ;;
       hasName <- from_stream Stream.getBe32 ;;
       name <-
         (if hasName =? 1
          then str <- from_stream Stream.getString ;; ret (Some str)
          else ret None) ;;
       ret (Some (mkVirtioGpuInfo contextId capsetId name))
     else ret (mVirtioGpuInfo c)) ;;
  version <- from_stream Stream.getBe32 ;;
  exiting <- from_stream Stream.getBe32 ;;
  unavailableReadCount <- from_stream Stream.getBe32 ;;
  ring <- loadAllocation (mRingAllocation c) ;;
  buffer <- loadAllocation (mBufferAllocation c) ;;
  combined <- loadAllocation (mCombinedAllocation c) ;;
  allocs <-
    (match virtioGpuInfo with
     | Some _ =>
         combined <- on_sys (fillAllocFromLoad combined AllocTypeCombined) ;;
         ring <- on_sys (allocRingViewIntoCombined combined) ;;
         buffer <- on_sys (allocBufferViewIntoCombined combined) ;;
         ret (ring, buffer, combined)
     | None =>
         ring <- on_sys (fillAllocFromLoad ring AllocTypeRing) ;;
         buffer <- on_sys (fillAllocFromLoad buffer AllocTypeBuffer) ;;
         ret (ring, buffer, combined)
     end) ;;
  let '(ring, buffer, combined) := allocs in
  perCtx <- on_sys perContextBufferSize ;;
  created <- on_sys (host_get
    (asg_context_create (Allocation.buffer ring) (Allocation.buffer buffer)
       perCtx)) ;;
  let live := ring_config created in
  let hostContext :=
    mk_asg_context (ring_storage created) (ctx_buffer created)
      (ctx_buffer_size created)
      (mk_ring_config (wrap32 perCtx) (wrap32 hw_gltransport_asg_writeStepSize)
         (host_consumed_pos live) (guest_write_pos live) (transfer_mode live)
         (transfer_size live) (in_error live))
      (host_state created) in
  savedConfig <- loadRingConfig ;;
  let this :=
    {| mRingAllocation := ring;
       mBufferAllocation := buffer;
       mCombinedAllocation := combined;
       mHostContext := hostContext;
       mVersion := version;
       mExiting := exiting;
       mUnavailableReadCount := unavailableReadCount;
       mVirtioGpuInfo := virtioGpuInfo;
       mSavedConfig := savedConfig;
       mConsumerInterface := mConsumerInterface c;
       mCurrentConsumer := mCurrentConsumer c;
       mConsumerMessages := mConsumerMessages c |} in
  hasConsumer <- from_stream Stream.getBe32 ;;
  if hasConsumer =? 1
  then
    if ConsumerInterface.create (mConsumerInterface this)
    then
      consumer <-
        (fun st : Ld =>
           let '(h, rest, w') :=
             create_consumer this (Some (fst st)) (virtio_contextId this)
               (virtio_capsetId this) (virtio_name this) (world (snd st)) in
           Ok (h, (rest, mkSys w' (globals (snd st))))) ;;
      let this := set_mCurrentConsumer consumer this in
      (if ConsumerInterface.postLoad (mConsumerInterface this)
       then on_sys (host_do (consumer_postLoad consumer))
       else undef EmptyFunction) ;;;
      ret this
    else undef EmptyFunction
  else ret this.

(** [preSave] and [postSave], both [const]: they touch the consumer and
    the message channel only.  [send] is modelled as appending to the
    queue. *)
Definition preSave (c : t) : M W t :=
  if negb (mCurrentConsumer c =? 0)
  then
    (if ConsumerInterface.preSave (mConsumerInterface c)
     then fun w => Ok (tt, consumer_preSave (mCurrentConsumer c) w)
     else undef EmptyFunction) ;;;
    ret (set_mConsumerMessages (mConsumerMessages c ++ [PausePreSnapshot]) c)
  else ret c.

Definition postSave (c : t) : M W t :=
  if negb (mCurrentConsumer c =? 0)
  then
    let c :=
      set_mConsumerMessages (mConsumerMessages c ++ [ResumePostSnapshot]) c in
    (if ConsumerInterface.postSave (mConsumerInterface c)
     then fun w => Ok (tt, consumer_postSave (mCurrentConsumer c) w)
     else undef EmptyFunction) ;;;
    ret c
  else ret c.

Definition getDeviceType (c : t) : AddressSpaceDeviceType := Graphics.

End Methods.

End AddressSpaceGraphicsContext.

(** ** Byte images of the snapshot records *)

Section Images.
Import AddressSpaceGraphicsContext.
Context {SA W : Type} `{SubAllocator SA} `{Platform} `{Host W}.

Definition allocation_image (alloc : Allocation.t) : Stream.t :=
  Stream.putBe64 (Allocation.blockIndex alloc)
  ++ Stream.putBe64 (Allocation.offsetIntoPhys alloc)
  ++ Stream.putBe64 (Allocation.size alloc)
  ++ Stream.putBe32 (Z_of_bool (Allocation.isView alloc)).

Definition ring_config_image (config : asg_ring_config) : Stream.t :=
  Stream.putBe32 (buffer_size config)
  ++ Stream.putBe32 (flush_interval config)
  ++ Stream.putBe32 (host_consumed_pos config)
  ++ Stream.putBe32 (guest_write_pos config)
  ++ Stream.putBe32 (transfer_mode config)
  ++ Stream.putBe32 (transfer_size config)
  ++ Stream.putBe32 (in_error config).

Definition virtio_image (info : option VirtioGpuInfo) : Stream.t :=
  match info with
  | None => Stream.putBe32 0
  | Some i =>
      Stream.putBe32 1
      ++ Stream.putBe32 (contextId i)
      ++ Stream.putBe32 (capsetId i)
      ++ match name i with
         | Some str => Stream.putBe32 1 ++ Stream.putString str
         | None => Stream.putBe32 0
         end
  end.

(** Everything [save] writes before the consumer-presence flag. *)
Definition context_image (c : AddressSpaceGraphicsContext.t) : Stream.t :=
  virtio_image (mVirtioGpuInfo c)
  ++ Stream.putBe32 (mVersion c)
  ++ Stream.putBe32 (mExiting c)
  ++ Stream.putBe32 (mUnavailableReadCount c)
  ++ allocation_image (mRingAllocation c)
  ++ allocation_image (mBufferAllocation c)
  ++ allocation_image (mCombinedAllocation c)
  ++ ring_config_image (mSavedConfig c).

(** The consumer-presence flag and what follows it. *)
Definition consumer_tail (c : AddressSpaceGraphicsContext.t) (out : Stream.t) (w : W)
  : outcome (unit * (Stream.t * W)) :=
  if mCurrentConsumer c =? 0 then Ok (tt, (out ++ Stream.putBe32 0, w))
  else if ConsumerInterface.save (mConsumerInterface c)
  then Ok (tt, (out ++ Stream.putBe32 1
                  ++ fst (consumer_save (mCurrentConsumer c) w),
                snd (consumer_save (mCurrentConsumer c) w)))
  else Undef EmptyFunction.

End Images.

(** ** Observations on one [onUnavailableRead] call *)

Section CallObservations.
Import AddressSpaceGraphicsContext.

Definition is_need_notify (e : Event) : bool :=
  match e with
  | EvHostState ASG_HOST_STATE_NEED_NOTIFY => true
  | _ => false
  end.

Definition is_receive (e : Event) : bool :=
  match e with
  | EvReceived _ | EvParked => true
  | _ => false
  end.

(** The call wrote NEED_NOTIFY to the shared host state. *)
Definition sets_need_notify (call : Call) : bool :=
  existsb is_need_notify (events call).

Fixpoint count_receives (es : list Event) : nat :=
  match es with
  | [] => 0
  | e :: rest => ((if is_receive e then 1 else 0) + count_receives rest)%nat
  end.

(** How many times the call went into [mConsumerMessages.receive]. *)
Definition receive_attempts (call : Call) : nat :=
  count_receives (events call).

(** The context after [n] successive calls. *)
Fixpoint after_calls (n : nat) (c : AddressSpaceGraphicsContext.t)
  : AddressSpaceGraphicsContext.t :=
  match n with
  | O => c
  | S k => after (onUnavailableRead (after_calls k c))
  end.

(** Whether a call goes to the label [sleep:]. *)
Definition reaches_sleep (c : AddressSpaceGraphicsContext.t) : bool :=
  truthy (mExiting c)
  || (kMaxUnavailableReads <=? wrap32 (mUnavailableReadCount c + 1)).

(** The context as one pass through [sleep:] leaves it when the command it
    received was followed in the queue by [q]. *)
Definition rearm (c : AddressSpaceGraphicsContext.t) (q : list ConsumerCommand)
  : AddressSpaceGraphicsContext.t :=
  set_mConsumerMessages q (set_host_state ASG_HOST_STATE_NEED_NOTIFY c).

(** The events of [k] passes that each received [Sleep]. *)
Fixpoint sleep_events (k : nat) : list Event :=
  match k with
  | O => []
  | S k' =>
      EvHostState ASG_HOST_STATE_NEED_NOTIFY :: EvReceived Sleep :: sleep_events k'
  end.

(** A context whose next [onUnavailableRead] is the eighth in a row, with
    [Sleep], [Wakeup] and [Exit] queued; and one that is exiting. *)
Definition sample_config : asg_ring_config := mk_ring_config 4096 512 0 0 1 0 0.

Definition eighth_read_context : AddressSpaceGraphicsContext.t :=
  {| mRingAllocation := Allocation.mk 4096 0 0 64 None 0 false;
     mBufferAllocation := Allocation.mk 8192 0 0 4096 None 0 false;
     mCombinedAllocation := Allocation.default;
     mHostContext :=
       mk_asg_context 4096 8192 4096 sample_config ASG_HOST_STATE_CAN_CONSUME;
     mVersion := 2;
     mExiting := 0;
     mUnavailableReadCount := 7;
     mVirtioGpuInfo := None;
     mSavedConfig := sample_config;
     mConsumerInterface := ConsumerInterface.all_set;
     mCurrentConsumer := 1;
     mConsumerMessages := [Sleep; Wakeup; Exit] |}.

Definition exiting_context : AddressSpaceGraphicsContext.t :=
  set_mConsumerMessages [Sleep; Exit; Wakeup]
    (set_mUnavailableReadCount 2 (set_mExiting 1 eighth_read_context)).

End CallObservations.

(** ** A page allocator, a platform and a host world to run the model on *)

Module PageAllocator.

(** Modelled from the spec: [android::base::SubAllocator] is not part of
    these sources.  "carves fixed-size pages out of a contiguous byte
    buffer; tracks free/used pages; reports emptiness";
    "allocate(size)->pointer-or-null, free(pointer)->bool,
    offset(pointer)->byte offset, empty()->bool, plus binary save/load of
    its free-list state"; "every live allocation is page-aligned and its
    size rounds up to a multiple of the page size; [empty()] holds iff no
    pages are currently allocated".  [slots] has one entry per page: the
    number of pages of the allocation that starts at that page, or 0. *)
Record t : Type := mk {
  start : Z;
  totalSize : Z;
  pageSize : Z;
  slots : list Z
}.

Definition create (buffer totalSize pageSize : Z) : t :=
  mk buffer totalSize pageSize
     (replicate (Z.to_nat (totalSize / pageSize)) 0).

Definition pages_for (size pageSize : Z) : Z := (size + pageSize - 1) / pageSize.

(** Page [page] lies in an allocation that starts at or after page
    [first], the page of the head of [slots]. *)
Fixpoint used_from (first : Z) (slots : list Z) (page : Z) : bool :=
  match slots with
  | [] => false
  | count :: rest =>
      ((first <=? page) && (page <? first + count))
      || used_from (first + 1) rest page
  end.

Definition page_used (a : t) (page : Z) : bool := used_from 0 (slots a) page.

Definition fits (a : t) (count first : Z) : bool :=
  (first + count <=? Z.of_nat (length (slots a)))
  && forallb (fun k => negb (page_used a (first + Z.of_nat k)))
       (seq 0 (Z.to_nat count)).

Definition alloc (size : Z) (a : t) : Z * t :=
  if size <=? 0 then (0, a)
  else
    let count := pages_for size (pageSize a) in
    if count <=? 0 then (0, a)
    else
      match List.find (fits a count)
              (map Z.of_nat (seq 0 (length (slots a)))) with
      | Some first =>
          (start a + first * pageSize a,
           mk (start a) (totalSize a) (pageSize a)
              (<[Z.to_nat first := count]> (slots a)))
      | None => (0, a)
      end.

Definition free (ptr : Z) (a : t) : bool * t :=
  let offset := ptr - start a in
  if (pageSize a <=? 0) || (offset <? 0) || negb (offset mod pageSize a =? 0)
  then (false, a)
  else
    let page := Z.to_nat (offset / pageSize a) in
    match slots a !! page with
    | Some count =>
        if 0 <? count
        then (true,
              mk (start a) (totalSize a) (pageSize a) (<[page := 0]> (slots a)))
        else (false, a)
    | None => (false, a)
    end.

Definition getOffset (ptr : Z) (a : t) : Z := ptr - start a.

Definition empty (a : t) : bool := forallb (fun count => count =? 0) (slots a).

Fixpoint save_slots (slots : list Z) : Stream.t :=
  match slots with
  | [] => []
  | count :: rest => Stream.putBe64 count ++ save_slots rest
  end.

Definition save (a : t) : Stream.t :=
  Stream.putBe64 (Z.of_nat (length (slots a))) ++ save_slots (slots a).

Fixpoint load_slots (n : nat) (s : Stream.t) : option (list Z * Stream.t) :=
  match n with
  | O => Some ([], s)
  | S k =>
      match Stream.getBe64 s with
      | Some (count, s1) =>
          match load_slots k s1 with
          | Some (slots, s2) => Some (count :: slots, s2)
          | None => None
          end
      | None => None
      end
  end.

Definition load (s : Stream.t) (a : t) : option (t * Stream.t) :=
  match Stream.getBe64 s with
  | Some (n, s1) =>
      match load_slots (Z.to_nat n) s1 with
      | Some (slots, s2) => Some (mk (start a) (totalSize a) (pageSize a) slots, s2)
      | None => None
      end
  | None => None
  end.

(** The states [save] can write down. *)
Definition storable (a : t) : Prop :=
  Z.of_nat (length (slots a)) < 2 ^ 64 /\ Forall is_u64 (slots a).

End PageAllocator.

#[export] Instance page_allocator : SubAllocator PageAllocator.t := {
  sa_new := PageAllocator.create;
  sa_alloc := PageAllocator.alloc;
  sa_free := PageAllocator.free;
  sa_getOffset := PageAllocator.getOffset;
  sa_empty := PageAllocator.empty;
  sa_save := PageAllocator.save;
  sa_load := PageAllocator.load
}.

Definition small_asg_command_of (metadata : Z) : asg_command :=
  if metadata =? 0 then ASG_GET_RING
  else if metadata =? 1 then ASG_GET_BUFFER
  else if metadata =? 2 then ASG_SET_VERSION
  else if metadata =? 3 then ASG_NOTIFY_AVAILABLE
  else if metadata =? 4 then ASG_GET_CONFIG
  else ASG_unlisted.

(** A platform with 16-byte blocks of 4-byte pages, a 4-byte ring storage
    and 8-byte per-context buffers. *)
#[export] Instance small_platform : Platform := {
  ADDRESS_SPACE_GRAPHICS_BLOCK_SIZE := 16;
  ADDRESS_SPACE_GRAPHICS_PAGE_SIZE := 4;
  sizeof_asg_ring_storage := 4;
  hw_gltransport_asg_writeBufferSize := 8;
  hw_gltransport_asg_writeStepSize := 2;
  initial_mVersion := 1;
  consumer_channel_capacity := 4;
  asg_command_of := small_asg_command_of
}.

Module SmallWorld.

(** A host world that hands out physical regions and buffers in address
    order and counts the calls made to it. *)
Record t : Type := mk {
  next_region : Z;
  next_buffer : Z;
  mappings : list (Z * Z * Z);
  consumers_created : Z;
  consumers_destroyed : Z
}.

Definition initial : t := mk 0 4096 [] 0 0.

Definition alloc_region (size : Z) (w : t) : Z * Z * t :=
  (0, wrap64 (next_region w),
   mk (next_region w + size) (next_buffer w) (mappings w)
      (consumers_created w) (consumers_destroyed w)).

Definition alloc_buffer (align size : Z) (w : t) : Z * t :=
  (next_buffer w,
   mk (next_region w) (next_buffer w + size) (mappings w)
      (consumers_created w) (consumers_destroyed w)).

Definition map_in (phys ptr size : Z) (w : t) : t :=
  mk (next_region w) (next_buffer w) (mappings w ++ [(phys, ptr, size)])
     (consumers_created w) (consumers_destroyed w).

Definition map_out (phys ptr size : Z) (w : t) : t :=
  mk (next_region w) (next_buffer w)
     (List.filter (fun m => negb (fst (fst m) =? phys)) (mappings w))
     (consumers_created w) (consumers_destroyed w).

Definition new_consumer (hc : asg_context) (loadStream : option Stream.t)
    (contextId capsetId : Z) (name : option (list byte)) (w : t)
  : Z * Stream.t * t :=
  (consumers_created w + 1,
   match loadStream with Some s => s | None => [] end,
   mk (next_region w) (next_buffer w) (mappings w)
      (consumers_created w + 1) (consumers_destroyed w)).

Definition drop_consumer (h : Z) (w : t) : t :=
  mk (next_region w) (next_buffer w) (mappings w)
     (consumers_created w) (consumers_destroyed w + 1).

End SmallWorld.

#[export] Instance small_host : Host SmallWorld.t := {
  allocSharedHostRegionLocked := SmallWorld.alloc_region;
  allocSharedHostRegionFixedLocked := fun size offset w => (0, w);
  freeSharedHostRegionLocked := fun offset w => w;
  getPhysAddrStartLocked := fun w => 65536;
  aligned_buf_alloc := SmallWorld.alloc_buffer;
  aligned_buf_free := fun ptr w => w;
  fresh_bytes := fun ptr size w => repeat x00 (Z.to_nat size);
  add_memory_mapping := SmallWorld.map_in;
  remove_memory_mapping := SmallWorld.map_out;
  hostmem_unregister := fun id w => w;
  consumer_create := SmallWorld.new_consumer;
  consumer_destroy := SmallWorld.drop_consumer;
  consumer_preSave := fun h w => w;
  consumer_save := fun h w => ([], w);
  consumer_postSave := fun h w => w;
  consumer_postLoad := fun h w => w;
  consumer_globalPreLoad := fun w => w;
  asg_context_create := fun ring buffer size w =>
    mk_asg_context ring buffer size (mk_ring_config 0 0 0 0 0 0 0)
      ASG_HOST_STATE_CAN_CONSUME
}.

(** The [Globals] singleton right after construction and [initialize]. *)
Definition small_globals : Globals PageAllocator.t :=
  {| mPerContextBufferSize := 8;
     mInitialized := true;
     mControlOps := 1;
     mConsumerInterface := ConsumerInterface.all_set;
     mRingBlocks := [];
     mBufferBlocks := [];
     mCombinedBlocks := [] |}.

Definition small_sys : Sys PageAllocator.t SmallWorld.t :=
  mkSys SmallWorld.initial small_globals.

(** ** Vocabulary for the statements about the pools *)

(** The members of [Globals] that no pool method assigns. *)
Definition same_settings {SA : Type} (g g' : Globals SA) : Prop :=
  mPerContextBufferSize g' = mPerContextBufferSize g
  /\ mInitialized g' = mInitialized g
  /\ mControlOps g' = mControlOps g
  /\ mConsumerInterface g' = mConsumerInterface g.

(** A block as [destroyBlockLocked] leaves it. *)
Definition destroyed {SA : Type} (block : Block.t SA) : Block.t SA :=
  Block.with_isEmpty true (Block.with_subAlloc None block).

(** The process state with [block] stored at [index] of pool [p]. *)
Definition with_block {SA W : Type} (p : Pool) (index : nat) (block : Block.t SA)
    (s : Sys SA W) : Sys SA W :=
  mkSys (world s)
    (pool_set p (<[index := block]> (pool_get p (globals s))) (globals s)).

(** The host world after the collaborator calls that [destroyBlockLocked]
    makes for a block that is not external. *)
Definition world_after_destroy {SA W : Type} `{Host W} `{Platform}
    (block : Block.t SA) (w : W) : W :=
  let w1 :=
    if Block.usesVirtioGpuHostmem block
    then hostmem_unregister (Block.hostmemId block) w
    else
      freeSharedHostRegionLocked (Block.offsetIntoPhys block)
        (remove_memory_mapping
           (wrap64 (getPhysAddrStartLocked w + Block.offsetIntoPhys block))
           (Block.buffer block) ADDRESS_SPACE_GRAPHICS_BLOCK_SIZE w) in
  aligned_buf_free (Block.buffer block) w1.

(** What [newAllocation] writes into the Allocation it returns. *)
Definition allocation_for (create : AllocationCreateInfo.t) (res : Allocation.t)
  : Prop :=
  Allocation.buffer res <> 0
  /\ Allocation.size res = AllocationCreateInfo.size create
  /\ Allocation.dedicatedContextHandle res
     = AllocationCreateInfo.dedicatedContextHandle create
  /\ Allocation.hostmemId res = AllocationCreateInfo.hostmemId create
  /\ Allocation.isView res = false.

(** A virtio context request with dedicated handle 7 over 16 bytes of
    external memory at address 20000, and a plain one. *)
Definition virtio_create : AddressSpaceCreateInfo :=
  {| handle := 7;
     type := VirtioGpuGraphics;
     fromSnapshot := false;
     createRenderThread := true;
     externalAddr := 20000;
     externalAddrSize := 16;
     virtioGpuContextId := 3;
     virtioGpuCapsetId := 5;
     contextName := [x61; x73; x67];
     contextNameSize := 3 |}.

Definition plain_create : AddressSpaceCreateInfo :=
  {| handle := 0;
     type := Graphics;
     fromSnapshot := false;
     createRenderThread := false;
     externalAddr := 0;
     externalAddrSize := 0;
     virtioGpuContextId := 0;
     virtioGpuCapsetId := 0;
     contextName := [];
     contextNameSize := 0 |}.

(** A SET_VERSION ping from a guest that speaks version 5. *)
Definition set_version_ping : AddressSpaceDevicePingInfo :=
  {| metadata := 2; size := 5 |}.

(** A view Allocation and a process state with one ring block in use. *)
Definition sample_view : Allocation.t := Allocation.mk 20000 0 0 4 (Some 7) 0 true.

Definition one_ring_block_sys : Sys PageAllocator.t SmallWorld.t :=
  match allocRingStorage small_sys with
  | Ok (_, s) => s
  | _ => small_sys
  end.

(** The Allocation that [allocRingStorage] returns on the small model, and
    a request for one byte more than a block holds. *)
Definition ring_allocation : Allocation.t :=
  match allocRingStorage small_sys with
  | Ok (alloc, _) => alloc
  | _ => Allocation.default
  end.

Definition oversized_create : AllocationCreateInfo.t :=
  {| AllocationCreateInfo.virtioGpu := false;
     AllocationCreateInfo.hostmemRegisterFixed := false;
     AllocationCreateInfo.fromLoad := false;
     AllocationCreateInfo.size := 17;
     AllocationCreateInfo.hostmemId := 0;
     AllocationCreateInfo.externalAddr := 0;
     AllocationCreateInfo.dedicatedContextHandle := None |}.

(** ** Vocabulary for the snapshot round trip *)

Section SnapshotVocabulary.
Context {SA W : Type} `{SubAllocator SA} `{Platform} `{Host W}.

(** Where the bytes of a block are: in storage the block owns (the model
    holds them), or in the collaborator's memory at an address. *)
Inductive Backing : Type :=
| Owned (bytes : list byte)
| Borrowed (address size : Z).

Definition backing (block : Block.t SA) : Backing :=
  if Block.external block
  then Borrowed (Block.buffer block) (Block.bufferSize block)
  else Owned (take (Z.to_nat (Block.bufferSize block)) (Block.contents block)).

(** What [saveBlockLocked] writes for one block. *)
Definition block_image (block : Block.t SA) : Stream.t :=
  if Block.isEmpty block then Stream.putBe32 0
  else
    Stream.putBe32 1
    ++ Stream.putBe64 (Block.bufferSize block)
    ++ Stream.putBe64 (Block.offsetIntoPhys block)
    ++ match Block.dedicatedContextHandle block with
       | Some handle => Stream.putBe32 1 ++ Stream.putBe32 handle
       | None => Stream.putBe32 0
       end
    ++ Stream.putBe32 (Z_of_bool (Block.usesVirtioGpuHostmem block))
    ++ Stream.putBe64 (Block.hostmemId block)
    ++ match Block.subAlloc block with
       | Some sa => sa_save sa
       | None => []
       end
    ++ (if Block.external block then []
        else take (Z.to_nat (Block.bufferSize block)) (Block.contents block)).

Fixpoint pool_image (blocks : list (Block.t SA)) : Stream.t :=
  match blocks with
  | [] => []
  | block :: rest => block_image block ++ pool_image rest
  end.

Definition globals_image (g : Globals SA) : Stream.t :=
  Stream.putBe64 (Z.of_nat (length (mRingBlocks g)))
  ++ Stream.putBe64 (Z.of_nat (length (mBufferBlocks g)))
  ++ Stream.putBe64 (Z.of_nat (length (mCombinedBlocks g)))
  ++ pool_image (mRingBlocks g)
  ++ pool_image (mBufferBlocks g)
  ++ pool_image (mCombinedBlocks g).

(** A block filled on the non-dedicated path of [fillBlockLocked]. *)
Definition owned_block_ok (storable : SA -> Prop) (block : Block.t SA) : Prop :=
  Block.dedicatedContextHandle block = None
  /\ Block.usesVirtioGpuHostmem block = false
  /\ Block.hostmemId block = 0
  /\ Block.external block = false
  /\ Block.bufferSize block = ADDRESS_SPACE_GRAPHICS_BLOCK_SIZE
  /\ length (Block.contents block) = Z.to_nat ADDRESS_SPACE_GRAPHICS_BLOCK_SIZE
  /\ is_u64 (Block.offsetIntoPhys block)
  /\ exists sa, Block.subAlloc block = Some sa /\ storable sa.

(** A block filled on the dedicated path of [fillBlockLocked]. *)
Definition dedicated_block_ok (storable : SA -> Prop) (block : Block.t SA)
  : Prop :=
  exists handle,
    Block.dedicatedContextHandle block = Some handle
    /\ is_u32 handle
    /\ Block.usesVirtioGpuHostmem block = true
    /\ Block.external block = true
    /\ Block.offsetIntoPhys block = 0
    /\ Block.buffer block <> 0
    /\ is_u64 (Block.hostmemId block)
    /\ is_u64 (Block.bufferSize block)
    /\ exists sa, Block.subAlloc block = Some sa /\ storable sa.

Definition block_ok (storable : SA -> Prop) (block : Block.t SA) : Prop :=
  Block.isEmpty block = false ->
  owned_block_ok storable block \/ dedicated_block_ok storable block.

(** The load resources name, for the handle of every dedicated block in
    use, the external memory that block has. *)
Definition resource_supplied (resources : LoadResources) (block : Block.t SA)
  : Prop :=
  Block.isEmpty block = false ->
  forall handle,
    Block.dedicatedContextHandle block = Some handle ->
    exists m externalMemory,
      resources = Some m
      /\ m !! handle = Some externalMemory
      /\ externalAddress externalMemory = Block.buffer block.

Definition all_blocks (g : Globals SA) : list (Block.t SA) :=
  mRingBlocks g ++ mBufferBlocks g ++ mCombinedBlocks g.

(** The pool states the round trip is stated for: [initialize] and
    [setConsumer] have run, every block in use is as [fillBlockLocked]
    makes it, the pool sizes fit the 64-bit counts of the stream, and the
    load resources cover the dedicated blocks. *)
Definition snapshot_ready (storable : SA -> Prop) (resources : LoadResources)
    (g : Globals SA) : Prop :=
  mControlOps g <> 0
  /\ ConsumerInterface.globalPreLoad (mConsumerInterface g) = true
  /\ is_u64 ADDRESS_SPACE_GRAPHICS_BLOCK_SIZE
  /\ Z.of_nat (length (mRingBlocks g)) < 2 ^ 64
  /\ Z.of_nat (length (mBufferBlocks g)) < 2 ^ 64
  /\ Z.of_nat (length (mCombinedBlocks g)) < 2 ^ 64
  /\ Forall (block_ok storable) (all_blocks g)
  /\ Forall (resource_supplied resources) (all_blocks g).

(** [load] reads back what [save] wrote for every sub-allocator state that
    [storable] admits; the sub-allocator it is called on is the fresh one
    that [fillBlockLocked] has just made. *)
Definition sub_allocator_round_trip (storable : SA -> Prop) : Prop :=
  forall sa fresh rest,
    storable sa ->
    exists sa', sa_load (sa_save sa ++ rest) fresh = Some (sa', rest).

(** What the round trip promises for one block slot. *)
Definition block_restored (before after : Block.t SA) : Prop :=
  Block.isEmpty after = Block.isEmpty before
  /\ (Block.isEmpty before = false ->
      backing after = backing before
      /\ Block.offsetIntoPhys after = Block.offsetIntoPhys before
      /\ Block.dedicatedContextHandle after = Block.dedicatedContextHandle before
      /\ Block.hostmemId after = Block.hostmemId before
      /\ Block.bufferSize after = Block.bufferSize before
      /\ Block.usesVirtioGpuHostmem after = Block.usesVirtioGpuHostmem before
      /\ Block.external after = Block.external before).

Definition pools_restored (before after : Globals SA) : Prop :=
  same_settings before after
  /\ Forall2 block_restored (mRingBlocks before) (mRingBlocks after)
  /\ Forall2 block_restored (mBufferBlocks before) (mBufferBlocks after)
  /\ Forall2 block_restored (mCombinedBlocks before) (mCombinedBlocks after).

End SnapshotVocabulary.

Section ContextSnapshotVocabulary.
Import AddressSpaceGraphicsContext.

(** The members of a context are within the range of their C++ types, and
    the members of the consumer interface that [save] and [load] call are
    set. *)
Definition allocation_storable (alloc : Allocation.t) : Prop :=
  is_u64 (Allocation.blockIndex alloc)
  /\ is_u64 (Allocation.offsetIntoPhys alloc)
  /\ is_u64 (Allocation.size alloc).

Definition ring_config_storable (config : asg_ring_config) : Prop :=
  is_u32 (buffer_size config)
  /\ is_u32 (flush_interval config)
  /\ is_u32 (host_consumed_pos config)
  /\ is_u32 (guest_write_pos config)
  /\ is_u32 (transfer_mode config)
  /\ is_u32 (transfer_size config)
  /\ is_u32 (in_error config).

Definition virtio_info_storable (info : option VirtioGpuInfo) : Prop :=
  match info with
  | None => True
  | Some i =>
      is_u32 (contextId i) /\ is_u32 (capsetId i)
      /\ match name i with
         | Some str => Z.of_nat (length str) < 2 ^ 32
         | None => True
         end
  end.

Definition context_storable (c : AddressSpaceGraphicsContext.t) : Prop :=
  is_u32 (mVersion c)
  /\ is_u32 (mExiting c)
  /\ is_u32 (mUnavailableReadCount c)
  /\ allocation_storable (mRingAllocation c)
  /\ allocation_storable (mBufferAllocation c)
  /\ allocation_storable (mCombinedAllocation c)
  /\ ring_config_storable (mSavedConfig c)
  /\ virtio_info_storable (mVirtioGpuInfo c)
  /\ ConsumerInterface.save (mConsumerInterface c) = true.

(** The context [load] is called on can create a consumer and run its
    post-load hook. *)
Definition can_load_consumer (c : AddressSpaceGraphicsContext.t) : Prop :=
  ConsumerInterface.create (mConsumerInterface c) = true
  /\ ConsumerInterface.postLoad (mConsumerInterface c) = true.

Definition context_restored (before after : AddressSpaceGraphicsContext.t)
  : Prop :=
  mVersion after = mVersion before
  /\ mExiting after = mExiting before
  /\ mSavedConfig after = mSavedConfig before
  /\ mUnavailableReadCount after = mUnavailableReadCount before
  /\ (forall info, mVirtioGpuInfo before = Some info ->
                   mVirtioGpuInfo after = Some info).

End ContextSnapshotVocabulary.

(** [Globals] with its three vectors emptied, as [clear] leaves it. *)
Definition cleared {SA : Type} (g : Globals SA) : Globals SA :=
  mkGlobals (mPerContextBufferSize g) (mInitialized g) (mControlOps g)
    (mConsumerInterface g) [] [] [].

(** The process state after a plain context and then a virtio context have
    been constructed, the two contexts, and the load resources that name
    the external memory of handle 7. *)
Definition after_plain : outcome (AddressSpaceGraphicsContext.t
                                  * Sys PageAllocator.t SmallWorld.t) :=
  AddressSpaceGraphicsContext.construct plain_create small_sys.

Definition after_virtio : outcome (AddressSpaceGraphicsContext.t
                                   * Sys PageAllocator.t SmallWorld.t) :=
  match after_plain with
  | Ok (_, s) => AddressSpaceGraphicsContext.construct virtio_create s
  | Die r => Die r
  | Undef u => Undef u
  end.

Definition two_context_sys : Sys PageAllocator.t SmallWorld.t :=
  match after_virtio with
  | Ok (_, s) => s
  | _ => small_sys
  end.

Definition sample_virtio_context : AddressSpaceGraphicsContext.t :=
  match after_virtio with
  | Ok (c, _) => c
  | _ => AddressSpaceGraphicsContext.initial ConsumerInterface.all_set
  end.

Definition sample_resources : LoadResources :=
  Some {[ 7 := mkExternalMemory 20000 16 ]}.

(** The object [load] is called on: one constructed with [fromSnapshot]. *)
Definition snapshot_target : AddressSpaceGraphicsContext.t :=
  AddressSpaceGraphicsContext.initial ConsumerInterface.all_set.

(** ** Reachable pool states *)

Section ReachableStates.
Context {SA W : Type} `{SubAllocator SA} `{Platform} `{Host W}.

(** What the sub-allocator is assumed to maintain: the states it produces
    are ones its [save] can write down. *)
Record SubAllocatorKeeps (storable : SA -> Prop) : Prop := {
  keeps_new : forall buffer size page, is_u64 size -> storable (sa_new buffer size page);
  keeps_alloc : forall size sa, storable sa -> storable (snd (sa_alloc size sa));
  keeps_free : forall ptr sa, storable sa -> storable (snd (sa_free ptr sa));
  keeps_load : forall input sa sa' rest,
      sa_load input sa = Some (sa', rest) -> storable sa'
}.

(** The collaborators return values of their C++ types: a physical offset
    is a [uint64_t], and storage of [size] bytes holds [size] bytes. *)
Record HostTyped : Prop := {
  region_offset_u64 : forall size (w : W),
      is_u64 (snd (fst (allocSharedHostRegionLocked size w)));
  fresh_bytes_length : forall ptr size (w : W),
      length (fresh_bytes ptr size w) = Z.to_nat size
}.

(** A slot of the ring or buffer pool: never dedicated, and when in use
    filled on the non-dedicated path. *)
Definition plain_slot (storable : SA -> Prop) (block : Block.t SA) : Prop :=
  Block.dedicatedContextHandle block = None
  /\ Block.usesVirtioGpuHostmem block = false
  /\ Block.hostmemId block = 0
  /\ Block.external block = false
  /\ (Block.isEmpty block = false -> owned_block_ok storable block).

(** A slot of the combined pool: when in use, filled on the dedicated
    path. *)
Definition dedicated_slot (storable : SA -> Prop) (block : Block.t SA) : Prop :=
  Block.isEmpty block = false -> dedicated_block_ok storable block.

Definition slot_of (storable : SA -> Prop) (p : Pool) : Block.t SA -> Prop :=
  match p with
  | RingPool | BufferPool => plain_slot storable
  | CombinedPool => dedicated_slot storable
  end.

Definition pools_ok (storable : SA -> Prop) (g : Globals SA) : Prop :=
  forall p, Forall (slot_of storable p) (pool_get p g).

(** The calls on [Globals] that contexts and the device make. *)
Inductive GlobalsCall : Type :=
| CallInitialize (ops : Z)
| CallSetConsumer (iface : ConsumerInterface.t)
| CallAllocRingStorage
| CallAllocBuffer
| CallAllocRingAndBufferStorageDedicated (handle externalAddr externalAddrSize : Z)
| CallFreeRingStorage (alloc : Allocation.t)
| CallFreeBuffer (alloc : Allocation.t)
| CallFreeRingAndBuffer (alloc : Allocation.t)
| CallClear.

Definition run_call (call : GlobalsCall) : M (Sys SA W) unit :=
  match call with
  | CallInitialize ops => initialize ops
  | CallSetConsumer iface => setConsumer iface
  | CallAllocRingStorage => allocRingStorage ;;; ret tt
  | CallAllocBuffer => allocBuffer ;;; ret tt
  | CallAllocRingAndBufferStorageDedicated handle externalAddr externalAddrSize =>
      allocRingAndBufferStorageDedicated handle externalAddr externalAddrSize ;;;
      ret tt
  | CallFreeRingStorage alloc => freeRingStorage alloc
  | CallFreeBuffer alloc => freeBuffer alloc
  | CallFreeRingAndBuffer alloc => freeRingAndBuffer alloc
  | CallClear => clear
  end.

(** The arguments of a call are within their C++ types. *)
Definition call_typed (call : GlobalsCall) : Prop :=
  match call with
  | CallAllocRingAndBufferStorageDedicated handle externalAddr externalAddrSize =>
      is_u32 handle /\ is_u64 externalAddrSize
  | _ => True
  end.

(** The states of the process: from empty pools, by the calls above, by
    anything that changes the host world only (the contexts' own calls to
    the host and the consumer), by the guest writing into the bytes of a
    block this core owns, and by [load] of what [save] wrote in a
    reachable state whose pool sizes fit the 64-bit counts of the
    stream. *)
Inductive reachable : Sys SA W -> Prop :=
| reach_start (w : W) (g : Globals SA) :
    mRingBlocks g = [] -> mBufferBlocks g = [] -> mCombinedBlocks g = [] ->
    reachable (mkSys w g)
| reach_call s call s' :
    reachable s -> call_typed call ->
    run_call call s = Ok (tt, s') ->
    reachable s'
| reach_world s (w : W) :
    reachable s ->
    reachable (mkSys w (globals s))
| reach_guest_write s p index block bytes :
    reachable s ->
    pool_get p (globals s) !! index = Some block ->
    Block.external block = false ->
    length bytes = length (Block.contents block) ->
    reachable (with_block p index (Block.with_contents bytes block) s)
| reach_load saved s resources rest result :
    reachable saved -> reachable s ->
    (forall p, Z.of_nat (length (pool_get p (globals saved))) < 2 ^ 64) ->
    load resources (globals_image (globals saved) ++ rest, s) = Ok result ->
    reachable (snd (snd result)).

(** Pools other than [p] are the same in both states. *)
Definition others_kept (p : Pool) (s s' : Sys SA W) : Prop :=
  forall q, q <> p -> pool_get q (globals s') = pool_get q (globals s).

(** The creation requests that the allocation entry points pass to
    [newAllocation] for pool [p]. *)
Definition create_for (p : Pool) (create : AllocationCreateInfo.t) : Prop :=
  match p with
  | RingPool | BufferPool =>
      AllocationCreateInfo.dedicatedContextHandle create = None
      /\ AllocationCreateInfo.fromLoad create = false
  | CombinedPool =>
      exists handle,
        AllocationCreateInfo.dedicatedContextHandle create = Some handle
        /\ is_u32 handle
        /\ is_u64 (AllocationCreateInfo.size create)
        /\ is_u64 (AllocationCreateInfo.hostmemId create)
  end.

End ReachableStates.

(** ** Vocabulary for the further properties of the pools *)

Section PoolVocabulary.
Context {SA W : Type} `{SubAllocator SA} `{Platform} `{Host W}.

(** Slot [index] of [blocks] holds a block that is in use. *)
Definition in_use (blocks : list (Block.t SA)) (index : nat) : Prop :=
  exists block, blocks !! index = Some block /\ Block.isEmpty block = false.

(** [res] was carved out of the block at its [blockIndex] in [blocks]: the
    block is in use, is dedicated to what the request asked for, and the
    physical offset of [res] is the block's plus the sub-allocator's offset
    of the buffer. *)
Definition allocation_in_block (create : AllocationCreateInfo.t)
    (res : Allocation.t) (blocks : list (Block.t SA)) (index : nat) : Prop :=
  exists block sa,
    Allocation.blockIndex res = Z.of_nat index
    /\ blocks !! index = Some block
    /\ Block.isEmpty block = false
    /\ Block.dedicatedContextHandle block
       = AllocationCreateInfo.dedicatedContextHandle create
    /\ Block.subAlloc block = Some sa
    /\ Allocation.offsetIntoPhys res
       = wrap64 (Block.offsetIntoPhys block
                 + sa_getOffset (Allocation.buffer res) sa).

(** A block that is in use borrows its memory from the collaborator. *)
Definition external_when_in_use (block : Block.t SA) : Prop :=
  Block.isEmpty block = false -> Block.external block = true.

(** No block in use of [blocks] is dedicated to [handle]. *)
Definition handle_unserved (handle : Z) (blocks : list (Block.t SA)) : Prop :=
  Forall (fun block =>
            Block.isEmpty block = false ->
            Block.dedicatedContextHandle block <> Some handle) blocks.

(** The members that [getConsumerInterface] tests are all set. *)
Definition consumer_interface_complete (iface : ConsumerInterface.t) : bool :=
  ConsumerInterface.create iface
  && ConsumerInterface.destroy iface
  && ConsumerInterface.preSave iface
  && ConsumerInterface.globalPreSave iface
  && ConsumerInterface.save iface
  && ConsumerInterface.globalPostSave iface
  && ConsumerInterface.postSave iface.

End PoolVocabulary.

(** ** Vocabulary for the further properties of the context *)

Section ConstructorVocabulary.
Context {SA W : Type} `{SubAllocator SA} `{Platform} `{Host W}.
Import AddressSpaceGraphicsContext.

(** The ring configuration that the constructor writes into the shared
    header and keeps in [mSavedConfig]. *)
Definition constructor_config (perCtx : Z) : asg_ring_config :=
  {| buffer_size := wrap32 perCtx;
     flush_interval := wrap32 hw_gltransport_asg_writeStepSize;
     host_consumed_pos := 0;
     guest_write_pos := 0;
     transfer_mode := 1;
     transfer_size := 0;
     in_error := 0 |}.

(** The calls on [Globals] by which the constructor gets its three
    Allocations, from state [s] to state [sm]. *)
Definition constructor_allocates (create : AddressSpaceCreateInfo)
    (s : Sys SA W) (ring buffer combined : Allocation.t) (sm : Sys SA W)
  : Prop :=
  match type create with
  | VirtioGpuGraphics =>
      allocRingAndBufferStorageDedicated (handle create) (externalAddr create)
        (externalAddrSize create) s = Ok (combined, sm)
      /\ allocRingViewIntoCombined combined sm = Ok (ring, sm)
      /\ allocBufferViewIntoCombined combined sm = Ok (buffer, sm)
  | _ =>
      exists s1,
        allocRingStorage s = Ok (ring, s1)
        /\ allocBuffer s1 = Ok (buffer, sm)
        /\ combined = Allocation.default
  end.

(** The virtio identity that the constructor records. *)
Definition constructor_identity (create : AddressSpaceCreateInfo)
  : option VirtioGpuInfo :=
  match type create with
  | VirtioGpuGraphics =>
      Some {| contextId := virtioGpuContextId create;
              capsetId := virtioGpuCapsetId create;
              name :=
                if truthy (contextNameSize create)
                then Some (take (Z.to_nat (contextNameSize create))
                             (contextName create))
                else None |}
  | _ => None
  end.

(** The aborts that the constructor can end in. *)
Definition constructor_abort (r : FatalReason) : bool :=
  match r with
  | ConsumerInterfaceNotSet
  | WantedSizeGreaterThanBlockSize
  | FailedToAllocate
  | DedicatedWithoutHandle
  | ExternalAddressSizeTooSmall
  | DedicatedWithoutExternalAddr
  | FailedToAllocatePhysical
  | FailedToAllocateBuffer => true
  | _ => false
  end.

(** The aborts of the constructor behind its check of the consumer
    interface. *)
Definition later_abort (create : AddressSpaceCreateInfo) (r : FatalReason)
  : Prop :=
  constructor_abort r = true
  /\ r <> ConsumerInterfaceNotSet
  /\ (r = FailedToAllocateBuffer -> type create = VirtioGpuGraphics).

(** The context after the destructor has told its consumer to stop:
    exiting flag set, host state EXIT, [Exit] sent. *)
Definition exit_signalled (c : AddressSpaceGraphicsContext.t)
  : AddressSpaceGraphicsContext.t :=
  set_mConsumerMessages (mConsumerMessages c ++ [Exit])
    (set_host_state ASG_HOST_STATE_EXIT (set_mExiting 1 c)).


End ConstructorVocabulary.

(* ===================================================================== *)
(** * Properties *)
(* ===================================================================== *)

(** ** The stream primitives *)

Module StreamFacts.
Import Stream.

Lemma Z_of_byte_of_Z z : Z_of_byte (byte_of_Z z) = z mod 256.
Proof.
  unfold Z_of_byte, byte_of_Z.
  assert (Hr : 0 <= z mod 256 < 256) by (apply Z.mod_pos_bound; lia).
  destruct (Byte.of_N (Z.to_N (z mod 256))) as [b|] eqn:E.
  - apply Byte.to_of_N in E. rewrite E. lia.
  - apply Byte.of_N_None_iff in E. lia.
Qed.

Lemma length_be_bytes n v : length (be_bytes n v) = n.
Proof. induction n as [|k IH]; simpl; [reflexivity | now rewrite IH]. Qed.

Lemma be_value_be_bytes n v acc rest :
  be_value acc (be_bytes n v ++ rest) =
  be_value (acc * 2 ^ (8 * Z.of_nat n) + v mod 2 ^ (8 * Z.of_nat n)) rest.
Proof.
  revert acc. induction n as [|k IH]; intros acc.
  - simpl. rewrite Z.mod_1_r. f_equal. lia.
  - cbn [be_bytes app be_value]. rewrite IH, Z_of_byte_of_Z. f_equal.
    rewrite Z.shiftr_div_pow2 by lia.
    replace (8 * Z.of_nat (S k)) with (8 * Z.of_nat k + 8) by lia.
    rewrite Z.pow_add_r by lia.
    change (2 ^ 8) with 256.
    set (p := 2 ^ (8 * Z.of_nat k)).
    assert (Hp : 0 < p) by (apply Z.pow_pos_nonneg; lia).
    rewrite (Z.rem_mul_r v p 256) by lia. ring.
Qed.

Lemma read_app (bs : list byte) rest :
  read (length bs) (bs ++ rest) = Some (bs, rest).
Proof.
  unfold read. rewrite length_app.
  destruct (Nat.leb_spec (length bs) (length bs + length rest)); [|lia].
  now rewrite take_app_length, drop_app_length.
Qed.

Lemma getBe_be_bytes n v rest :
  getBe n (be_bytes n v ++ rest) = Some (v mod 2 ^ (8 * Z.of_nat n), rest).
Proof.
  unfold getBe.
  rewrite <- (length_be_bytes n v) at 1. rewrite read_app.
  pose proof (be_value_be_bytes n v 0 []) as H.
  rewrite app_nil_r in H. rewrite H. reflexivity.
Qed.

Lemma getBe32_putBe32 v rest :
  is_u32 v -> getBe32 (putBe32 v ++ rest) = Some (v, rest).
Proof.
  intros Hv. unfold getBe32, putBe32. rewrite getBe_be_bytes.
  change (2 ^ (8 * Z.of_nat 4)) with (2 ^ 32).
  now rewrite Z.mod_small.
Qed.

Lemma getBe64_putBe64 v rest :
  is_u64 v -> getBe64 (putBe64 v ++ rest) = Some (v, rest).
Proof.
  intros Hv. unfold getBe64, putBe64. rewrite getBe_be_bytes.
  change (2 ^ (8 * Z.of_nat 8)) with (2 ^ 64).
  now rewrite Z.mod_small.
Qed.

Lemma getString_putString str rest :
  Z.of_nat (length str) < 2 ^ 32 ->
  getString (putString str ++ rest) = Some (str, rest).
Proof.
  intros Hl. unfold getString, putString.
  rewrite <- app_assoc, getBe32_putBe32 by (unfold is_u32; lia).
  rewrite Nat2Z.id. apply read_app.
Qed.

Lemma putBe32_bool_roundtrip (b : bool) rest :
  getBe32 (putBe32 (Z_of_bool b) ++ rest) = Some (Z_of_bool b, rest).
Proof. apply getBe32_putBe32. destruct b; unfold is_u32; simpl; lia. Qed.

End StreamFacts.


(** ** The wire format of one context *)

Section ContextWireFormat.
Import AddressSpaceGraphicsContext.
Context {SA W : Type} `{SubAllocator SA} `{Platform} `{Host W}.

Lemma put_then {A : Type} (bs : Stream.t) (k : M (Stream.t * W) A) out w :
  (put bs ;;; k) (out, w) = k (out ++ bs, w).
Proof. reflexivity. Qed.

Lemma put_run (bs : Stream.t) out (w : W) :
  put bs (out, w) = Ok (tt, (out ++ bs, w)).
Proof. reflexivity. Qed.

Lemma bind_assoc {S A B C : Type} (m : M S A) (f : A -> M S B) (g : B -> M S C) s :
  bind (bind m f) g s = bind m (fun a => bind (f a) g) s.
Proof. unfold bind. destruct (m s) as [[a s']| |]; reflexivity. Qed.

Ltac step_puts :=
  repeat (rewrite bind_assoc || rewrite put_then || rewrite put_run);
  rewrite <- ?app_assoc.

Lemma saveAllocation_then {A : Type} alloc (k : M (Stream.t * W) A) out w :
  (saveAllocation alloc ;;; k) (out, w) = k (out ++ allocation_image alloc, w).
Proof.
  unfold saveAllocation, allocation_image. now step_puts.
Qed.

Lemma saveRingConfig_then {A : Type} config (k : M (Stream.t * W) A) out w :
  (saveRingConfig config ;;; k) (out, w) = k (out ++ ring_config_image config, w).
Proof.
  unfold saveRingConfig, ring_config_image. now step_puts.
Qed.

Lemma save_virtio_then {A : Type} info (k : M (Stream.t * W) A) out w :
  (match info with
   | Some info =>
       put (Stream.putBe32 1) ;;;
       put (Stream.putBe32 (contextId info)) ;;;
       put (Stream.putBe32 (capsetId info)) ;;;
       match name info with
       | Some str => put (Stream.putBe32 1) ;;; put (Stream.putString str)
       | None => put (Stream.putBe32 0)
       end
   | None => put (Stream.putBe32 0)
   end ;;; k) (out, w) = k (out ++ virtio_image info, w).
Proof.
  destruct info as [[cid cap [str|]]|];
    cbn [virtio_image name contextId capsetId]; now step_puts.
Qed.

Lemma save_layout (c : AddressSpaceGraphicsContext.t) out (w : W) :
  AddressSpaceGraphicsContext.save c (out, w)
  = consumer_tail c (out ++ context_image c) w.
Proof.
  unfold AddressSpaceGraphicsContext.save, context_image, consumer_tail.
  rewrite save_virtio_then, !put_then, !saveAllocation_then, saveRingConfig_then.
  rewrite <- !app_assoc.
  destruct (mCurrentConsumer c =? 0); cbn [negb].
  - now step_puts.
  - rewrite put_then.
    destruct (ConsumerInterface.save (mConsumerInterface c)); [|reflexivity].
    cbn [fst snd].
    destruct (consumer_save (mCurrentConsumer c) w) as [bytes w'].
    cbn [fst snd]. now rewrite <- !app_assoc.
Qed.

(** C9: [save] writes, in this order: the virtio-identity presence flag
    (followed, when present, by context id, capset id, the name-presence
    flag and the length-prefixed name), the negotiated version, the exiting
    flag, the unavailable-read counter, the ring, buffer and combined
    Allocation descriptors (each as blockIndex, offsetIntoPhys, size as
    64-bit and isView as 32-bit), the seven ring-header fields of the saved
    configuration, and the consumer-presence flag followed, when a consumer
    exists, by the bytes the consumer writes; every integer is written most
    significant byte first. *)
Theorem context_save_field_order (c : AddressSpaceGraphicsContext.t) out (w : W) :
  AddressSpaceGraphicsContext.save c (out, w)
  = (let fields :=
       match mVirtioGpuInfo c with
       | None => Stream.putBe32 0
       | Some info =>
           Stream.putBe32 1
           ++ Stream.putBe32 (contextId info)
           ++ Stream.putBe32 (capsetId info)
           ++ match name info with
              | Some str =>
                  Stream.putBe32 1
                  ++ Stream.putBe32 (Z.of_nat (length str)) ++ str
              | None => Stream.putBe32 0
              end
       end
       ++ Stream.putBe32 (mVersion c)
       ++ Stream.putBe32 (mExiting c)
       ++ Stream.putBe32 (mUnavailableReadCount c)
       ++ allocation_image (mRingAllocation c)
       ++ allocation_image (mBufferAllocation c)
       ++ allocation_image (mCombinedAllocation c)
       ++ Stream.putBe32 (buffer_size (mSavedConfig c))
       ++ Stream.putBe32 (flush_interval (mSavedConfig c))
       ++ Stream.putBe32 (host_consumed_pos (mSavedConfig c))
       ++ Stream.putBe32 (guest_write_pos (mSavedConfig c))
       ++ Stream.putBe32 (transfer_mode (mSavedConfig c))
       ++ Stream.putBe32 (transfer_size (mSavedConfig c))
       ++ Stream.putBe32 (in_error (mSavedConfig c)) in
     if mCurrentConsumer c =? 0
     then Ok (tt, (out ++ fields ++ Stream.putBe32 0, w))
     else if ConsumerInterface.save (mConsumerInterface c)
     then Ok (tt, (out ++ fields ++ Stream.putBe32 1
                     ++ fst (consumer_save (mCurrentConsumer c) w),
                   snd (consumer_save (mCurrentConsumer c) w)))
     else Undef EmptyFunction)
  /\ (forall alloc,
        allocation_image alloc
        = Stream.putBe64 (Allocation.blockIndex alloc)
          ++ Stream.putBe64 (Allocation.offsetIntoPhys alloc)
          ++ Stream.putBe64 (Allocation.size alloc)
          ++ Stream.putBe32 (Z_of_bool (Allocation.isView alloc)))
  /\ (forall v,
        map Stream.Z_of_byte (Stream.putBe32 v)
        = [(v / 2 ^ 24) mod 256; (v / 2 ^ 16) mod 256; (v / 2 ^ 8) mod 256;
           v mod 256])
  /\ (forall v,
        map Stream.Z_of_byte (Stream.putBe64 v)
        = [(v / 2 ^ 56) mod 256; (v / 2 ^ 48) mod 256; (v / 2 ^ 40) mod 256;
           (v / 2 ^ 32) mod 256; (v / 2 ^ 24) mod 256; (v / 2 ^ 16) mod 256;
           (v / 2 ^ 8) mod 256; v mod 256]).
Proof.
  split; [|split; [|split]].
  - rewrite save_layout. unfold consumer_tail, context_image, ring_config_image.
    cbn zeta.
    assert (Hv : virtio_image (mVirtioGpuInfo c)
                 = match mVirtioGpuInfo c with
                   | None => Stream.putBe32 0
                   | Some info =>
                       Stream.putBe32 1
                       ++ Stream.putBe32 (contextId info)
                       ++ Stream.putBe32 (capsetId info)
                       ++ match name info with
                          | Some str =>
                              Stream.putBe32 1
                              ++ Stream.putBe32 (Z.of_nat (length str)) ++ str
                          | None => Stream.putBe32 0
                          end
                   end).
    { unfold virtio_image, Stream.putString.
      destruct (mVirtioGpuInfo c) as [[cid cap [str|]]|]; reflexivity. }
    rewrite Hv. rewrite <- !app_assoc. reflexivity.
  - reflexivity.
  - intros v. unfold Stream.putBe32. cbn [Stream.be_bytes map].
    rewrite !StreamFacts.Z_of_byte_of_Z, !Z.shiftr_div_pow2 by lia.
    cbn [Z.of_nat Pos.of_succ_nat Pos.succ Z.mul Pos.mul].
    now rewrite Z.pow_0_r, Z.div_1_r.
  - intros v. unfold Stream.putBe64. cbn [Stream.be_bytes map].
    rewrite !StreamFacts.Z_of_byte_of_Z, !Z.shiftr_div_pow2 by lia.
    cbn [Z.of_nat Pos.of_succ_nat Pos.succ Z.mul Pos.mul].
    now rewrite Z.pow_0_r, Z.div_1_r.
Qed.

End ContextWireFormat.

(** ** [onUnavailableRead] *)

Section UnavailableRead.
Import AddressSpaceGraphicsContext.

Implicit Types (c : AddressSpaceGraphicsContext.t) (q : list ConsumerCommand).

Lemma sleep_loop_events_extend c q done :
  exists more, events (sleep_loop c q done) =
               done ++ EvHostState ASG_HOST_STATE_NEED_NOTIFY :: more.
Proof.
  revert c done. induction q as [|cmd rest IH]; intros c done.
  - cbn. eexists. now rewrite <- app_assoc.
  - cbn [sleep_loop]. destruct cmd; cbn [events];
      try (eexists; rewrite <- !app_assoc; reflexivity).
    destruct (IH (set_mConsumerMessages rest
                    (set_host_state ASG_HOST_STATE_NEED_NOTIFY c))
                 ((done ++ [EvHostState ASG_HOST_STATE_NEED_NOTIFY])
                  ++ [EvReceived Sleep])) as [more Hm].
    rewrite Hm. eexists. rewrite <- !app_assoc. reflexivity.
Qed.

Lemma sleep_loop_first_receive c q done :
  exists ev more,
    is_receive ev = true /\
    events (sleep_loop c q done) =
    done ++ EvHostState ASG_HOST_STATE_NEED_NOTIFY :: ev :: more.
Proof.
  destruct q as [|cmd rest].
  - exists EvParked, []. split; [reflexivity|]. cbn. now rewrite <- app_assoc.
  - exists (EvReceived cmd). cbn [sleep_loop].
    destruct cmd; cbn [events];
      try (eexists; split; [reflexivity|]; rewrite <- !app_assoc; reflexivity).
    destruct (sleep_loop_events_extend
                (set_mConsumerMessages rest
                   (set_host_state ASG_HOST_STATE_NEED_NOTIFY c)) rest
                ((done ++ [EvHostState ASG_HOST_STATE_NEED_NOTIFY])
                 ++ [EvReceived Sleep])) as [more Hm].
    rewrite Hm. eexists. split; [reflexivity|].
    rewrite <- !app_assoc. reflexivity.
Qed.

Lemma onUnavailableRead_cases c :
  onUnavailableRead c =
  if reaches_sleep c
  then sleep_loop (set_mUnavailableReadCount 0 c) (mConsumerMessages c) [EvYield]
  else mkCall (Returned 0)
         (set_mUnavailableReadCount (wrap32 (mUnavailableReadCount c + 1)) c)
         [EvYield].
Proof.
  unfold onUnavailableRead, reaches_sleep.
  destruct c as [ra ba ca hc v e n vi sc ci cc cm]; cbn.
  destruct (truthy e); cbn.
  - reflexivity.
  - rewrite Z.geb_leb. destruct (kMaxUnavailableReads <=? wrap32 (n + 1)); reflexivity.
Qed.

Lemma sleep_loop_rearm_head c q done :
  sleep_loop (rearm c q) q done = sleep_loop c q done.
Proof.
  destruct c as [ra ba ca [rs cb cbs rc hs] v e n vi sc ci cc cm].
  destruct q as [|[] rest]; reflexivity.
Qed.

Lemma sleep_loop_after_sleeps k c q done :
  sleep_loop c (repeat Sleep k ++ q) done =
  sleep_loop (rearm c q) q (done ++ sleep_events k).
Proof.
  revert c done. induction k as [|k IH]; intros c done.
  - cbn [repeat app sleep_events]. now rewrite app_nil_r, sleep_loop_rearm_head.
  - cbn [repeat app sleep_loop sleep_events]. rewrite IH.
    rewrite <- !app_assoc. cbn [app]. reflexivity.
Qed.

Lemma after_calls_below_threshold c k :
  mExiting c = 0 -> mUnavailableReadCount c = 0 -> (k <= 7)%nat ->
  mExiting (after_calls k c) = 0 /\
  mUnavailableReadCount (after_calls k c) = Z.of_nat k /\
  mConsumerMessages (after_calls k c) = mConsumerMessages c /\
  mHostContext (after_calls k c) = mHostContext c.
Proof.
  intros He Hn. induction k as [|k IH]; intros Hk.
  - cbn. auto.
  - destruct IH as (IHe & IHn & IHq & IHh); [lia|].
    cbn [after_calls]. rewrite onUnavailableRead_cases.
    unfold reaches_sleep. rewrite IHe, IHn. cbn [truthy Z.eqb negb orb].
    unfold wrap32, kMaxUnavailableReads. rewrite Z.mod_small by lia.
    destruct (Z.leb_spec 8 (Z.of_nat k + 1)); [lia|].
    cbn. repeat split; auto. lia.
Qed.

(** C2: with the exiting flag clear, [onUnavailableRead] writes NEED_NOTIFY
    and goes into the blocking receive exactly on the call whose increment
    brings the consecutive-unavailable-read counter to 8: counted from a
    reset counter, calls 1 to 7 return 0 at once and call 8 waits.  When
    the receive (possibly after re-arms by [Sleep]) hands over [Wakeup],
    the host state is CAN_CONSUME again, the counter is 0 and the call
    returns 1. *)
Theorem onUnavailableRead_waits_on_eighth_read c :
  mExiting c = 0 ->
  sets_need_notify (onUnavailableRead c)
    = (8 <=? wrap32 (mUnavailableReadCount c + 1))
  /\ (0 <? receive_attempts (onUnavailableRead c))%nat
    = (8 <=? wrap32 (mUnavailableReadCount c + 1))
  /\ (mUnavailableReadCount c = 0 ->
      (forall k, (k < 7)%nat ->
         let call := onUnavailableRead (after_calls k c) in
         ending call = Returned 0
         /\ events call = [EvYield]
         /\ mUnavailableReadCount (after call) = Z.of_nat (S k)
         /\ host_state (mHostContext (after call)) = host_state (mHostContext c))
      /\ exists ev more,
           is_receive ev = true
           /\ events (onUnavailableRead (after_calls 7 c)) =
              EvYield :: EvHostState ASG_HOST_STATE_NEED_NOTIFY :: ev :: more)
  /\ (forall k rest,
        reaches_sleep c = true ->
        mConsumerMessages c = repeat Sleep k ++ Wakeup :: rest ->
        let call := onUnavailableRead c in
        ending call = Returned 1
        /\ host_state (mHostContext (after call)) = ASG_HOST_STATE_CAN_CONSUME
        /\ mUnavailableReadCount (after call) = 0
        /\ mConsumerMessages (after call) = rest
        /\ events call =
           EvYield :: sleep_events k
           ++ [EvHostState ASG_HOST_STATE_NEED_NOTIFY; EvReceived Wakeup;
               EvHostState ASG_HOST_STATE_CAN_CONSUME]).
Proof.
  intros He.
  assert (Hreach : reaches_sleep c = (8 <=? wrap32 (mUnavailableReadCount c + 1))).
  { unfold reaches_sleep. rewrite He. reflexivity. }
  split; [|split; [|split; [intros H; split|]]].
  - rewrite onUnavailableRead_cases, Hreach.
    destruct (8 <=? wrap32 (mUnavailableReadCount c + 1)); [|reflexivity].
    unfold sets_need_notify.
    destruct (sleep_loop_events_extend (set_mUnavailableReadCount 0 c)
                (mConsumerMessages c) [EvYield]) as [more ->].
    reflexivity.
  - rewrite onUnavailableRead_cases, Hreach.
    destruct (8 <=? wrap32 (mUnavailableReadCount c + 1)); [|reflexivity].
    unfold receive_attempts.
    destruct (sleep_loop_first_receive (set_mUnavailableReadCount 0 c)
                (mConsumerMessages c) [EvYield]) as (ev & more & Hev & ->).
    cbn. now rewrite Hev.
  - intros k Hk. cbn zeta.
    destruct (after_calls_below_threshold c k He H) as (Ee & En & Eq & Eh); [lia|].
    rewrite onUnavailableRead_cases. unfold reaches_sleep.
    rewrite Ee, En. cbn [truthy Z.eqb negb orb].
    unfold wrap32, kMaxUnavailableReads. rewrite Z.mod_small by lia.
    destruct (Z.leb_spec 8 (Z.of_nat k + 1)); [lia|].
    cbn. rewrite Eh. repeat split; lia.
  - destruct (after_calls_below_threshold c 7 He H) as (Ee & En & Eq & Eh); [lia|].
    rewrite onUnavailableRead_cases. unfold reaches_sleep.
    rewrite Ee, En. cbn [truthy Z.eqb negb orb].
    change (kMaxUnavailableReads <=? wrap32 (Z.of_nat 7 + 1)) with true.
    cbn match.
    destruct (sleep_loop_first_receive
                (set_mUnavailableReadCount 0 (after_calls 7 c))
                (mConsumerMessages (after_calls 7 c)) [EvYield])
      as (ev & more & Hev & ->).
    exists ev, more. split; [assumption | reflexivity].
  - intros k rest Hr Hq. cbn zeta.
    rewrite onUnavailableRead_cases, Hr, Hq, sleep_loop_after_sleeps.
    destruct c as [ra ba ca [rs cb cbs rc hs] v e n vi sc ci cc cm].
    cbn. rewrite <- !app_assoc. repeat split; reflexivity.
Qed.

Lemma sleep_loop_done c q done :
  ending (sleep_loop c q done) = ending (sleep_loop c q [])
  /\ after (sleep_loop c q done) = after (sleep_loop c q [])
  /\ events (sleep_loop c q done) = done ++ events (sleep_loop c q []).
Proof.
  revert c done. induction q as [|cmd rest IH]; intros c done.
  - cbn. now rewrite <- app_assoc.
  - cbn [sleep_loop]. destruct cmd; cbn [ending after events app];
      try (repeat split; rewrite <- ?app_assoc; reflexivity).
    destruct (IH (set_mConsumerMessages rest
                    (set_host_state ASG_HOST_STATE_NEED_NOTIFY c))
                 ((done ++ [EvHostState ASG_HOST_STATE_NEED_NOTIFY])
                  ++ [EvReceived Sleep])) as (E1 & E2 & E3).
    destruct (IH (set_mConsumerMessages rest
                    (set_host_state ASG_HOST_STATE_NEED_NOTIFY c))
                 [EvHostState ASG_HOST_STATE_NEED_NOTIFY; EvReceived Sleep])
      as (F1 & F2 & F3).
    rewrite E1, E2, E3, F1, F2, F3. rewrite <- !app_assoc. auto.
Qed.

Lemma count_receives_app es1 es2 :
  count_receives (es1 ++ es2) = (count_receives es1 + count_receives es2)%nat.
Proof. induction es1 as [|e es1 IH]; cbn; [reflexivity | rewrite IH; lia]. Qed.

Lemma receive_attempts_events (call : Call) pre ev more :
  events call = pre ++ ev :: more ->
  is_receive ev = true ->
  receive_attempts call = (count_receives pre + S (count_receives more))%nat.
Proof.
  intros E Hev. unfold receive_attempts.
  rewrite E, count_receives_app. cbn. now rewrite Hev.
Qed.

Lemma count_receives_sleep_events k : count_receives (sleep_events k) = k.
Proof. induction k as [|k IH]; cbn; [reflexivity | now rewrite IH]. Qed.

(** C8: when the blocking receive hands over [Exit], the call writes EXIT
    to the host state and returns -1 after that single receive; when it
    hands over [Sleep], the call goes back to the label [sleep:] (writes
    NEED_NOTIFY and receives again) and ends as the wait on the rest of the
    queue ends, so a queue holding only [Sleep] leaves the call parked in
    the receive. *)
Theorem onUnavailableRead_exit_stops_sleep_rearms c :
  reaches_sleep c = true ->
  (forall rest,
      mConsumerMessages c = Exit :: rest ->
      let call := onUnavailableRead c in
      ending call = Returned (-1)
      /\ host_state (mHostContext (after call)) = ASG_HOST_STATE_EXIT
      /\ mConsumerMessages (after call) = rest
      /\ receive_attempts call = 1%nat
      /\ events call =
         [EvYield; EvHostState ASG_HOST_STATE_NEED_NOTIFY; EvReceived Exit;
          EvHostState ASG_HOST_STATE_EXIT])
  /\ (forall rest,
        mConsumerMessages c = Sleep :: rest ->
        let call := onUnavailableRead c in
        let again := onUnavailableRead (set_mConsumerMessages rest c) in
        ending call = ending again
        /\ after call = after again
        /\ events call =
           [EvYield; EvHostState ASG_HOST_STATE_NEED_NOTIFY; EvReceived Sleep]
           ++ drop 1 (events again)
        /\ receive_attempts call = S (receive_attempts again)
        /\ (2 <= receive_attempts call)%nat)
  /\ (forall k,
        mConsumerMessages c = repeat Sleep k ->
        ending (onUnavailableRead c) = Parked
        /\ receive_attempts (onUnavailableRead c) = S k).
Proof.
  intros Hr. split; [|split].
  - intros rest Hq. cbn zeta.
    rewrite onUnavailableRead_cases, Hr, Hq. cbn.
    destruct c as [ra ba ca [rs cb cbs rc hs] v e n vi sc ci cc cm].
    repeat split; reflexivity.
  - intros rest Hq. cbn zeta.
    assert (Hr' : reaches_sleep (set_mConsumerMessages rest c) = true) by exact Hr.
    rewrite !onUnavailableRead_cases, Hr, Hr', Hq.
    change (mConsumerMessages (set_mConsumerMessages rest c)) with rest.
    cbn [sleep_loop].
    set (c1 := set_mConsumerMessages rest
                 (set_host_state ASG_HOST_STATE_NEED_NOTIFY
                    (set_mUnavailableReadCount 0 c))).
    assert (Hsame : forall done,
               sleep_loop c1 rest done =
               sleep_loop (set_mUnavailableReadCount 0
                             (set_mConsumerMessages rest c)) rest done).
    { intros done. rewrite <- (sleep_loop_rearm_head c1).
      rewrite <- (sleep_loop_rearm_head
                    (set_mUnavailableReadCount 0 (set_mConsumerMessages rest c))).
      reflexivity. }
    rewrite Hsame.
    destruct (sleep_loop_done
                (set_mUnavailableReadCount 0 (set_mConsumerMessages rest c)) rest
                (([EvYield] ++ [EvHostState ASG_HOST_STATE_NEED_NOTIFY])
                 ++ [EvReceived Sleep])) as (E1 & E2 & E3).
    destruct (sleep_loop_done
                (set_mUnavailableReadCount 0 (set_mConsumerMessages rest c)) rest
                [EvYield]) as (F1 & F2 & F3).
    assert (Hev : events
                    (sleep_loop
                       (set_mUnavailableReadCount 0 (set_mConsumerMessages rest c))
                       rest
                       (([EvYield] ++ [EvHostState ASG_HOST_STATE_NEED_NOTIFY])
                        ++ [EvReceived Sleep])) =
                  [EvYield; EvHostState ASG_HOST_STATE_NEED_NOTIFY; EvReceived Sleep]
                  ++ drop 1
                       (events
                          (sleep_loop
                             (set_mUnavailableReadCount 0
                                (set_mConsumerMessages rest c)) rest [EvYield]))).
    { rewrite E3, F3. reflexivity. }
    assert (Hcount : receive_attempts
                       (sleep_loop
                          (set_mUnavailableReadCount 0 (set_mConsumerMessages rest c))
                          rest
                          (([EvYield] ++ [EvHostState ASG_HOST_STATE_NEED_NOTIFY])
                           ++ [EvReceived Sleep])) =
                     S (receive_attempts
                          (sleep_loop
                             (set_mUnavailableReadCount 0
                                (set_mConsumerMessages rest c)) rest [EvYield]))).
    { unfold receive_attempts. rewrite E3, F3.
      rewrite !count_receives_app. reflexivity. }
    rewrite E1, E2, F1, F2. repeat split; try assumption.
    rewrite Hcount.
    destruct (sleep_loop_first_receive
                (set_mUnavailableReadCount 0 (set_mConsumerMessages rest c)) rest
                [EvYield]) as (ev & more & Hrecv & Hevents).
    rewrite (receive_attempts_events _
               [EvYield; EvHostState ASG_HOST_STATE_NEED_NOTIFY] ev more
               Hevents Hrecv). lia.
  - intros k Hq.
    rewrite onUnavailableRead_cases, Hr, Hq.
    rewrite <- (app_nil_r (repeat Sleep k)), sleep_loop_after_sleeps.
    cbn [sleep_loop ending]. split; [reflexivity|].
    unfold receive_attempts. cbn [events].
    rewrite !count_receives_app, count_receives_sleep_events. cbn. lia.
Qed.

(** C10: with the exiting flag set, the call goes to the NEED_NOTIFY write
    and the blocking receive at once, whatever the counter holds: the call
    is the same for every value of the counter. *)
Theorem onUnavailableRead_exiting_waits_at_once c :
  mExiting c <> 0 ->
  reaches_sleep c = true
  /\ onUnavailableRead c =
     sleep_loop (set_mUnavailableReadCount 0 c) (mConsumerMessages c) [EvYield]
  /\ sets_need_notify (onUnavailableRead c) = true
  /\ (1 <= receive_attempts (onUnavailableRead c))%nat
  /\ (forall n,
        onUnavailableRead (set_mUnavailableReadCount n c) = onUnavailableRead c).
Proof.
  intros He.
  assert (Ht : truthy (mExiting c) = true).
  { unfold truthy. destruct (Z.eqb_spec (mExiting c) 0); [contradiction|reflexivity]. }
  assert (Hr : reaches_sleep c = true).
  { unfold reaches_sleep. now rewrite Ht. }
  assert (Hc : onUnavailableRead c =
               sleep_loop (set_mUnavailableReadCount 0 c) (mConsumerMessages c)
                 [EvYield]).
  { now rewrite onUnavailableRead_cases, Hr. }
  split; [exact Hr|]. split; [exact Hc|]. split; [|split].
  - rewrite Hc. unfold sets_need_notify.
    destruct (sleep_loop_events_extend (set_mUnavailableReadCount 0 c)
                (mConsumerMessages c) [EvYield]) as [more ->].
    reflexivity.
  - rewrite Hc.
    destruct (sleep_loop_first_receive (set_mUnavailableReadCount 0 c)
                (mConsumerMessages c) [EvYield]) as (ev & more & Hrecv & Hevents).
    rewrite (receive_attempts_events _
               [EvYield; EvHostState ASG_HOST_STATE_NEED_NOTIFY] ev more
               Hevents Hrecv). lia.
  - intros n. rewrite Hc, onUnavailableRead_cases.
    unfold reaches_sleep. cbn [mExiting set_mUnavailableReadCount].
    rewrite Ht. reflexivity.
Qed.

Lemma onUnavailableRead_waits_on_eighth_read_witness :
  mExiting eighth_read_context = 0
  /\ sets_need_notify (onUnavailableRead eighth_read_context) = true
  /\ ending (onUnavailableRead eighth_read_context) = Returned 1.
Proof.
  split; [reflexivity|].
  destruct (onUnavailableRead_waits_on_eighth_read eighth_read_context eq_refl)
    as (Hn & _ & _ & Hw).
  split; [exact Hn|].
  exact (proj1 (Hw 1%nat [Exit] eq_refl eq_refl)).
Defined.

Lemma onUnavailableRead_exit_stops_sleep_rearms_witness :
  reaches_sleep exiting_context = true
  /\ ending (onUnavailableRead exiting_context)
     = ending (onUnavailableRead
                 (set_mConsumerMessages [Exit; Wakeup] exiting_context)).
Proof.
  split; [reflexivity|].
  destruct (onUnavailableRead_exit_stops_sleep_rearms exiting_context eq_refl)
    as (_ & Hs & _).
  exact (proj1 (Hs [Exit; Wakeup] eq_refl)).
Defined.

Lemma onUnavailableRead_exiting_waits_at_once_witness :
  mExiting exiting_context <> 0
  /\ sets_need_notify (onUnavailableRead exiting_context) = true.
Proof.
  assert (He : mExiting exiting_context <> 0) by (cbn; lia).
  split; [exact He|].
  destruct (onUnavailableRead_exiting_waits_at_once exiting_context He)
    as (_ & _ & Hn & _).
  exact Hn.
Defined.

End UnavailableRead.

(** ** The pools *)

Lemma bind_Ok {S A B : Type} (m : M S A) (k : A -> M S B) st a st' :
  m st = Ok (a, st') -> bind m k st = k a st'.
Proof. intros E. unfold bind. now rewrite E. Qed.

Lemma bind_Die_inv {S A B : Type} (m : M S A) (k : A -> M S B) s r :
  bind m k s = Die r ->
  m s = Die r \/ exists a s', m s = Ok (a, s') /\ k a s' = Die r.
Proof.
  unfold bind. destruct (m s) as [[a s']| |]; intros E.
  - right. eauto.
  - left. now inversion E.
  - discriminate E.
Qed.

Lemma bind_Ok_inv {S A B : Type} (m : M S A) (k : A -> M S B) s r :
  bind m k s = Ok r ->
  exists a s1, m s = Ok (a, s1) /\ k a s1 = Ok r.
Proof.
  unfold bind. destruct (m s) as [[a s1]| |]; intros E; try discriminate E.
  eauto.
Qed.

Lemma same_settings_refl {SA : Type} (g : Globals SA) : same_settings g g.
Proof. repeat split. Qed.

Lemma same_settings_trans {SA : Type} (g1 g2 g3 : Globals SA) :
  same_settings g1 g2 -> same_settings g2 g3 -> same_settings g1 g3.
Proof.
  unfold same_settings. intros (A1 & A2 & A3 & A4) (B1 & B2 & B3 & B4).
  repeat split; congruence.
Qed.

Lemma same_settings_pool_set {SA : Type} p bs (g : Globals SA) :
  same_settings g (pool_set p bs g).
Proof. destruct p; repeat split. Qed.

Section PoolFacts.
Context {SA W : Type} `{SubAllocator SA} `{Platform} `{Host W}.

Implicit Types (s : Sys SA W) (block : Block.t SA) (create : AllocationCreateInfo.t).

Ltac break_step :=
  match goal with
  | |- context [if ?b then _ else _] => destruct b eqn:?
  | |- context [match ?e with Some _ => _ | None => _ end] => destruct e eqn:?
  | |- context [let '(_, _) := ?e in _] => destruct e eqn:?
  end.

Lemma fillBlockLocked_Die block create s r :
  fillBlockLocked block create s = Die r ->
  r <> WantedSizeGreaterThanBlockSize.
Proof.
  unfold fillBlockLocked, bind, host_call, host_get, control_op, die, ret.
  repeat (break_step; cbn); intros E; inversion E; discriminate.
Qed.

Lemma newAllocation_scan_Die create p remaining index s r :
  newAllocation_scan create p remaining index s = Die r ->
  r <> WantedSizeGreaterThanBlockSize.
Proof.
  revert index s. induction remaining as [|n IH]; intros index s; cbn [newAllocation_scan].
  - discriminate.
  - unfold get_pool at 1. unfold gets at 1. unfold bind at 1.
    destruct (pool_get p (globals s) !! index) as [block0|]; [|discriminate].
    intros E. apply bind_Die_inv in E as [E | (block & s1 & E1 & E)].
    + destruct (Block.isEmpty block0); [|discriminate E].
      apply bind_Die_inv in E as [E | (filled & s1 & _ & E)].
      * now apply fillBlockLocked_Die in E.
      * discriminate E.
    + destruct (negb (bool_decide _)); [now apply IH in E|].
      destruct (Block.subAlloc block) as [sa|]; [|discriminate E].
      destruct (sa_alloc (AllocationCreateInfo.size create) sa) as [buf sa'].
      apply bind_Die_inv in E as [E | (? & s2 & _ & E)]; [discriminate E|].
      destruct (negb (buf =? 0)); [discriminate E | now apply IH in E].
Qed.

(** C5: [newAllocation] ends in the abort of its size check exactly when
    the requested size exceeds ADDRESS_SPACE_GRAPHICS_BLOCK_SIZE: a larger
    request never yields an Allocation, and no request within the block
    size reaches that abort. *)
Theorem newAllocation_size_abort create p s :
  (newAllocation create p s = Die WantedSizeGreaterThanBlockSize
   <-> ADDRESS_SPACE_GRAPHICS_BLOCK_SIZE < AllocationCreateInfo.size create)
  /\ (ADDRESS_SPACE_GRAPHICS_BLOCK_SIZE < AllocationCreateInfo.size create ->
      forall res s', newAllocation create p s <> Ok (res, s')).
Proof.
  unfold newAllocation.
  destruct (Z.gtb_spec (AllocationCreateInfo.size create)
              ADDRESS_SPACE_GRAPHICS_BLOCK_SIZE) as [Hgt|Hle].
  - split; [split; [lia | reflexivity] | discriminate].
  - split; [|lia]. split; [|lia]. intros E. exfalso.
    apply bind_Die_inv in E as [E | (blocks & s1 & _ & E)]; [discriminate E|].
    apply bind_Die_inv in E as [E | (found & s2 & _ & E)].
    { now apply newAllocation_scan_Die in E. }
    destruct found as [res|]; [discriminate E|].
    apply bind_Die_inv in E as [E | (blocks' & s3 & _ & E)]; [discriminate E|].
    apply bind_Die_inv in E as [E | (newBlock & s4 & _ & E)].
    { now apply fillBlockLocked_Die in E. }
    destruct (Block.subAlloc newBlock) as [sa|]; [|discriminate E].
    destruct (sa_alloc (AllocationCreateInfo.size create) sa) as [buf sa'].
    destruct (buf =? 0); [discriminate E|].
    apply bind_Die_inv in E as [E | (? & s5 & _ & E)]; discriminate E.
Qed.

(** C7: freeing a view Allocation through [freeRingStorage] or [freeBuffer]
    returns with the whole process state as it was (every block, every
    sub-allocator, the host world), and so does freeing it again. *)
Theorem free_of_view_is_noop (alloc : Allocation.t) s :
  Allocation.isView alloc = true ->
  freeRingStorage alloc s = Ok (tt, s)
  /\ freeBuffer alloc s = Ok (tt, s)
  /\ (freeRingStorage alloc ;;; freeRingStorage alloc) s = Ok (tt, s)
  /\ (freeBuffer alloc ;;; freeBuffer alloc) s = Ok (tt, s).
Proof.
  intros Hv. unfold freeRingStorage, freeBuffer, bind. rewrite Hv. auto.
Qed.

Lemma destroyBlockLocked_external block s :
  Block.external block = true ->
  destroyBlockLocked block s = Ok (destroyed block, s).
Proof.
  intros He. unfold destroyBlockLocked, destroyed, bind, ret.
  cbn. rewrite He, andb_false_r. cbn. now destruct s.
Qed.

Lemma destroyBlockLocked_owned block s :
  Block.external block = false ->
  destroyBlockLocked block s =
  if mControlOps (globals s) =? 0 then Undef NullControlOps
  else Ok (destroyed block,
           mkSys (world_after_destroy block (world s)) (globals s)).
Proof.
  intros He.
  unfold destroyBlockLocked, destroyed, world_after_destroy, bind, ret,
    control_op, host_get, host_do.
  cbn. rewrite He, andb_true_r. cbn.
  destruct (Block.usesVirtioGpuHostmem block); cbn;
    destruct (mControlOps (globals s) =? 0); reflexivity.
Qed.

Lemma set_block_run p index block s :
  set_block p index block s = Ok (tt, with_block p index block s).
Proof. reflexivity. Qed.

Lemma shouldDestryBlockLocked_run block sa s :
  Block.subAlloc block = Some sa ->
  shouldDestryBlockLocked block s = Ok (sa_empty sa, s).
Proof. intros E. unfold shouldDestryBlockLocked. now rewrite E. Qed.


Lemma deleteAllocation_at (alloc : Allocation.t) p s index block :
  Allocation.buffer alloc <> 0 ->
  Allocation.blockIndex alloc = Z.of_nat index ->
  pool_get p (globals s) !! index = Some block ->
  deleteAllocation alloc p s =
  (if Block.external block
   then
     gone <- destroyBlockLocked block ;;
     set_block p index gone
   else
     match Block.subAlloc block with
     | None => undef NullSubAllocator
     | Some sa =>
         let '(freed, sa') := sa_free (Allocation.buffer alloc) sa in
         let block := Block.with_subAlloc (Some sa') block in
         set_block p index block ;;;
         if negb freed then die FailedToFree
         else
           should <- shouldDestryBlockLocked block ;;
           if should
           then
             gone <- destroyBlockLocked block ;;
             set_block p index gone
           else ret tt
     end) s.
Proof.
  intros Hb Hidx Hlook. unfold deleteAllocation.
  destruct (Z.eqb_spec (Allocation.buffer alloc) 0) as [|_]; [contradiction|].
  unfold get_pool at 1, gets at 1, bind at 1.
  pose proof (lookup_lt_Some _ _ _ Hlook) as Hlt.
  destruct (Z.leb_spec (Z.of_nat (length (pool_get p (globals s))))
              (Allocation.blockIndex alloc)); [lia|].
  rewrite Hidx, Nat2Z.id, Hlook. reflexivity.
Qed.


Lemma fillBlockLocked_globals block create s filled s' :
  fillBlockLocked block create s = Ok (filled, s') ->
  globals s' = globals s.
Proof.
  unfold fillBlockLocked, bind, host_call, host_get, control_op, die, ret.
  repeat (break_step; cbn); intros E; inversion E; subst; reflexivity.
Qed.

Lemma newAllocation_scan_Ok create p remaining index s found s' :
  newAllocation_scan create p remaining index s = Ok (found, s') ->
  same_settings (globals s) (globals s')
  /\ forall res, found = Some res -> allocation_for create res.
Proof.
  revert index s. induction remaining as [|n IH]; intros index s;
    cbn [newAllocation_scan].
  - intros E. inversion E; subst. split; [apply same_settings_refl | discriminate].
  - unfold get_pool at 1, gets at 1, bind at 1.
    destruct (pool_get p (globals s) !! index) as [block0|].
    2:{ intros E. inversion E; subst.
        split; [apply same_settings_refl | discriminate]. }
    intros E. apply bind_Ok_inv in E as (block & s1 & E1 & E).
    assert (S1 : same_settings (globals s) (globals s1)).
    { destruct (Block.isEmpty block0).
      - apply bind_Ok_inv in E1 as (filled & s0 & F & E1).
        apply fillBlockLocked_globals in F.
        apply bind_Ok_inv in E1 as (? & s2 & E1 & E2).
        inversion E1; subst. inversion E2; subst. cbn [globals].
        rewrite F. apply same_settings_pool_set.
      - inversion E1; subst. apply same_settings_refl. }
    destruct (negb (bool_decide _)).
    { apply IH in E as (S2 & Hres).
      split; [eapply same_settings_trans; eassumption | exact Hres]. }
    destruct (Block.subAlloc block) as [sa|]; [|discriminate E].
    destruct (sa_alloc (AllocationCreateInfo.size create) sa) as [buf sa'].
    apply bind_Ok_inv in E as (? & s2 & E2 & E).
    inversion E2; subst. clear E2.
    assert (S2 : same_settings (globals s)
                   (globals (with_block p index
                               (Block.with_subAlloc (Some sa') block) s1))).
    { eapply same_settings_trans; [exact S1|]. apply same_settings_pool_set. }
    destruct (Z.eqb_spec buf 0) as [->|Hbuf]; cbn [negb] in E.
    + apply IH in E as (S3 & Hres).
      split; [eapply same_settings_trans; eassumption | exact Hres].
    + inversion E; subst. split; [exact S2|].
      intros res Hres. inversion Hres; subst.
      unfold allocation_for. cbn. auto.
Qed.

Lemma newAllocation_Ok create p s res s' :
  newAllocation create p s = Ok (res, s') ->
  same_settings (globals s) (globals s') /\ allocation_for create res.
Proof.
  unfold newAllocation.
  destruct (AllocationCreateInfo.size create >? ADDRESS_SPACE_GRAPHICS_BLOCK_SIZE);
    [discriminate|].
  intros E. apply bind_Ok_inv in E as (blocks & s1 & E1 & E).
  inversion E1; subst. clear E1.
  apply bind_Ok_inv in E as (found & s2 & E2 & E).
  apply newAllocation_scan_Ok in E2 as (S2 & Hfound).
  destruct found as [res0|].
  - inversion E; subst. split; [exact S2 | now apply Hfound].
  - apply bind_Ok_inv in E as (blocks' & s3 & E3 & E).
    inversion E3; subst. clear E3.
    apply bind_Ok_inv in E as (newBlock & s4 & E4 & E).
    apply fillBlockLocked_globals in E4.
    destruct (Block.subAlloc newBlock) as [sa|]; [|discriminate E].
    destruct (sa_alloc (AllocationCreateInfo.size create) sa) as [buf sa'].
    destruct (Z.eqb_spec buf 0) as [->|Hbuf]; [discriminate E|].
    apply bind_Ok_inv in E as (? & s5 & E5 & E).
    inversion E5; subst. inversion E; subst. cbn [globals].
    split.
    + rewrite E4. eapply same_settings_trans; [exact S2|].
      apply same_settings_pool_set.
    + unfold allocation_for. cbn. auto.
Qed.

End PoolFacts.

(** ** Construction of a context *)

Section Construction.
Context {SA W : Type} `{SubAllocator SA} `{Platform} `{Host W}.
Import AddressSpaceGraphicsContext.

Implicit Types (s : Sys SA W) (create : AddressSpaceCreateInfo).

Lemma allocRingAndBufferStorageDedicated_Ok handle externalAddr externalAddrSize
    s res s' :
  allocRingAndBufferStorageDedicated handle externalAddr externalAddrSize s
  = Ok (res, s') ->
  same_settings (globals s) (globals s')
  /\ handle <> 0
  /\ Allocation.buffer res <> 0
  /\ Allocation.dedicatedContextHandle res = Some handle
  /\ Allocation.hostmemId res = 0
  /\ Allocation.isView res = false
  /\ (externalAddr <> 0 ->
      Allocation.size res = externalAddrSize
      /\ wrap64 (sizeof_asg_ring_storage + mPerContextBufferSize (globals s))
         <= externalAddrSize).
Proof.
  unfold allocRingAndBufferStorageDedicated.
  destruct (Z.eqb_spec handle 0) as [|Hh]; [discriminate|].
  intros E. apply bind_Ok_inv in E as (perCtx & s1 & E1 & E).
  inversion E1; subst. clear E1.
  apply bind_Ok_inv in E as (create & s2 & E2 & E).
  apply newAllocation_Ok in E as (S & Hb & Hsz & Hh' & Hm & Hv).
  destruct (Z.eqb_spec externalAddr 0) as [He|He]; cbn [negb] in E2.
  - inversion E2; subst. cbn in *.
    refine (conj S (conj Hh (conj Hb (conj Hh' (conj Hm (conj Hv _)))))).
    intros Hx. now elim Hx.
  - destruct (Z.ltb_spec externalAddrSize
                (wrap64 (sizeof_asg_ring_storage
                         + mPerContextBufferSize (globals s1)))) as [|Hge];
      [discriminate E2|].
    inversion E2; subst. cbn in *.
    refine (conj S (conj Hh (conj Hb (conj Hh' (conj Hm (conj Hv _)))))).
    intros _. split; [exact Hsz | exact Hge].
Qed.

(** C6: in a context constructed for the virtio device type, the ring
    Allocation is a view of the combined Allocation that starts at the
    combined buffer (byte offset 0) and has the size of
    [struct asg_ring_storage]; the buffer Allocation is a view that starts
    [sizeof(asg_ring_storage)] bytes into the combined buffer and has the
    per-context buffer size; both carry the combined Allocation's hostmem
    id, block index, physical offset and dedicated handle.  The combined
    Allocation is dedicated to the given handle, and with an external
    address given its size is the external size. *)
Theorem virtio_views_into_combined create s c s' :
  type create = VirtioGpuGraphics ->
  fromSnapshot create = false ->
  construct create s = Ok (c, s') ->
  let combined := mCombinedAllocation c in
  let ring := mRingAllocation c in
  let buffer := mBufferAllocation c in
  (Allocation.isView ring = true
   /\ Allocation.buffer ring = Allocation.buffer combined + 0
   /\ Allocation.size ring = sizeof_asg_ring_storage
   /\ Allocation.hostmemId ring = Allocation.hostmemId combined
   /\ Allocation.blockIndex ring = Allocation.blockIndex combined
   /\ Allocation.offsetIntoPhys ring = Allocation.offsetIntoPhys combined
   /\ Allocation.dedicatedContextHandle ring
      = Allocation.dedicatedContextHandle combined)
  /\ (Allocation.isView buffer = true
      /\ Allocation.buffer buffer
         = Allocation.buffer combined + sizeof_asg_ring_storage
      /\ Allocation.size buffer = mPerContextBufferSize (globals s)
      /\ Allocation.hostmemId buffer = Allocation.hostmemId combined
      /\ Allocation.blockIndex buffer = Allocation.blockIndex combined
      /\ Allocation.offsetIntoPhys buffer = Allocation.offsetIntoPhys combined
      /\ Allocation.dedicatedContextHandle buffer
         = Allocation.dedicatedContextHandle combined)
  /\ (Allocation.isView combined = false
      /\ Allocation.buffer combined <> 0
      /\ handle create <> 0
      /\ Allocation.dedicatedContextHandle combined = Some (handle create)
      /\ (externalAddr create <> 0 ->
          Allocation.size combined = externalAddrSize create)).
Proof.
  intros Hty Hsnap E. unfold construct in E.
  apply bind_Ok_inv in E as (iface & s0 & E0 & E).
  assert (G0 : globals s0 = globals s).
  { unfold getConsumerInterface in E0.
    apply bind_Ok_inv in E0 as (i & s00 & Eg & E0). inversion Eg; subst.
    destruct (_ || _); inversion E0; subst; reflexivity. }
  rewrite Hsnap, Hty in E.
  apply bind_Ok_inv in E as (allocs & s1 & E1 & E).
  apply bind_Ok_inv in E1 as (combined & s2 & Ec & E1).
  apply allocRingAndBufferStorageDedicated_Ok in Ec
    as (S2 & Hh & Hb & Hd & Hm & Hv & Hext).
  apply bind_Ok_inv in E1 as (ring & s3 & Er & E1).
  inversion Er; subst ring s3. clear Er.
  apply bind_Ok_inv in E1 as (buffer & s4 & Eb & E1).
  apply bind_Ok_inv in Eb as (perCtx & s5 & Ep & Eb).
  inversion Ep; subst perCtx s5. clear Ep.
  inversion Eb; subst buffer s4. clear Eb.
  inversion E1; subst allocs s1. clear E1.
  cbn beta iota zeta in E. cbn [Allocation.buffer] in E.
  destruct (Allocation.buffer combined =? 0) eqn:Hz; [discriminate E|].
  destruct (Allocation.buffer combined + sizeof_asg_ring_storage =? 0);
    [discriminate E|].
  apply bind_Ok_inv in E as (perCtx & s6 & Ep & E).
  apply bind_Ok_inv in E as (created & s7 & Ecr & E).
  assert (Hper : mPerContextBufferSize (globals s2) = mPerContextBufferSize (globals s)).
  { destruct S2 as (Hp & _). now rewrite Hp, G0. }
  assert (Hc : mRingAllocation c
               = Allocation.mk (Allocation.buffer combined)
                   (Allocation.blockIndex combined)
                   (Allocation.offsetIntoPhys combined) sizeof_asg_ring_storage
                   (Allocation.dedicatedContextHandle combined)
                   (Allocation.hostmemId combined) true
               /\ mBufferAllocation c
                  = Allocation.mk
                      (Allocation.buffer combined + sizeof_asg_ring_storage)
                      (Allocation.blockIndex combined)
                      (Allocation.offsetIntoPhys combined)
                      (mPerContextBufferSize (globals s2))
                      (Allocation.dedicatedContextHandle combined)
                      (Allocation.hostmemId combined) true
               /\ mCombinedAllocation c = combined).
  { destruct (createRenderThread create).
    - destruct (ConsumerInterface.create _); [|discriminate E].
      apply bind_Ok_inv in E as (r & s8 & Ecc & E).
      inversion E; subst c s'. cbn. auto.
    - inversion E; subst c s'. cbn. auto. }
  destruct Hc as (R & B & C). cbn zeta.
  rewrite R, B, C. cbn.
  rewrite Z.add_0_r, Hper, Hd.
  repeat split; auto.
  intros Hx. now apply Hext.
Qed.

End Construction.

Section ConstructionWitnesses.
Import AddressSpaceGraphicsContext.

Lemma virtio_views_into_combined_witness :
  match construct virtio_create small_sys with
  | Ok (c, _) =>
      Allocation.buffer (mRingAllocation c)
      = Allocation.buffer (mCombinedAllocation c) + 0
      /\ Allocation.buffer (mBufferAllocation c)
         = Allocation.buffer (mCombinedAllocation c) + 4
      /\ Allocation.hostmemId (mBufferAllocation c)
         = Allocation.hostmemId (mCombinedAllocation c)
  | _ => False
  end.
Proof.
  destruct (construct virtio_create small_sys) as [[c s']| |] eqn:E.
  - destruct (virtio_views_into_combined virtio_create small_sys c s'
                eq_refl eq_refl E)
      as ((_ & R & _) & (_ & B & _ & M & _) & _).
    exact (conj R (conj B M)).
  - vm_compute in E. discriminate E.
  - vm_compute in E. discriminate E.
Defined.

Lemma newAllocation_size_abort_witness :
  ADDRESS_SPACE_GRAPHICS_BLOCK_SIZE < AllocationCreateInfo.size oversized_create
  /\ newAllocation oversized_create RingPool small_sys
     = Die WantedSizeGreaterThanBlockSize.
Proof.
  assert (Hsize : ADDRESS_SPACE_GRAPHICS_BLOCK_SIZE
                  < AllocationCreateInfo.size oversized_create) by (cbn; lia).
  split; [exact Hsize|].
  exact (proj2 (proj1 (newAllocation_size_abort oversized_create RingPool
                         small_sys)) Hsize).
Defined.


Lemma free_of_view_is_noop_witness :
  Allocation.isView sample_view = true
  /\ freeRingStorage sample_view one_ring_block_sys = Ok (tt, one_ring_block_sys)
  /\ mRingBlocks (globals one_ring_block_sys) <> [].
Proof.
  split; [reflexivity|]. split.
  - exact (proj1 (free_of_view_is_noop sample_view one_ring_block_sys eq_refl)).
  - vm_compute. discriminate.
Defined.

End ConstructionWitnesses.

(** ** The SET_VERSION ping *)

Section SetVersion.
Context {W : Type} `{Platform} `{Host W}.
Import AddressSpaceGraphicsContext.

(** C4 as amended: a SET_VERSION ping stores min(version held by the host,
    low 32 bits of the ping's size field) as the negotiated version and
    returns it in the size field; it asks the consumer interface for a new
    consumer on every such ping, whether or not the context already has
    one, and keeps the handle it gets; for a virtio context the metadata
    field becomes the hostmem id of the combined Allocation, otherwise it
    is left as it was. *)
Theorem set_version_negotiates_and_creates
    (c : AddressSpaceGraphicsContext.t) (info : AddressSpaceDevicePingInfo) (w : W) :
  asg_command_of (metadata info) = ASG_SET_VERSION ->
  ConsumerInterface.create (mConsumerInterface c) = true ->
  let negotiated := Z.min (mVersion c) (wrap32 (size info)) in
  let made := consumer_create (mHostContext c) None 0 0 None w in
  exists c' info',
    perform c info w = Ok ((c', info'), snd made)
    /\ size info' = negotiated
    /\ mVersion c' = wrap32 negotiated
    /\ (is_u32 (mVersion c) -> mVersion c' = negotiated)
    /\ mCurrentConsumer c' = fst (fst made)
    /\ metadata info'
       = match mVirtioGpuInfo c with
         | Some _ => Allocation.hostmemId (mCombinedAllocation c)
         | None => metadata info
         end.
Proof.
  intros Hcmd Hcreate. cbn zeta. unfold perform. rewrite Hcmd.
  assert (Hmin : (if mVersion c >? wrap32 (size info) then wrap32 (size info)
                  else mVersion c)
                 = Z.min (mVersion c) (wrap32 (size info))).
  { destruct (Z.gtb_spec (mVersion c) (wrap32 (size info))); lia. }
  cbn [size metadata]. rewrite Hmin.
  cbn [mConsumerInterface set_mVersion]. rewrite Hcreate.
  unfold bind, in_world, create_consumer. cbn [mHostContext set_mVersion].
  destruct (consumer_create (mHostContext c) None 0 0 None w) as [[h rest] w'].
  cbn [fst snd mVirtioGpuInfo set_mCurrentConsumer set_mVersion].
  assert (Hu : is_u32 (mVersion c) ->
               wrap32 (Z.min (mVersion c) (wrap32 (size info)))
               = Z.min (mVersion c) (wrap32 (size info))).
  { intros Hv. unfold wrap32, is_u32 in *.
    pose proof (Z.mod_pos_bound (size info) (2 ^ 32) ltac:(lia)).
    apply Z.mod_small. lia. }
  destruct (mVirtioGpuInfo c); eexists _, _; (split; [reflexivity|]);
    cbn; auto.
Qed.

End SetVersion.

Section SetVersionRuns.
Import AddressSpaceGraphicsContext.

Lemma set_version_negotiates_and_creates_witness :
  small_asg_command_of (metadata set_version_ping) = ASG_SET_VERSION
  /\ exists c' info',
       perform eighth_read_context set_version_ping SmallWorld.initial
       = Ok ((c', info'),
             snd (SmallWorld.new_consumer (mHostContext eighth_read_context)
                    None 0 0 None SmallWorld.initial))
       /\ size info' = 2.
Proof.
  split; [reflexivity|].
  destruct (@set_version_negotiates_and_creates SmallWorld.t small_platform
              small_host eighth_read_context set_version_ping
              SmallWorld.initial eq_refl eq_refl)
    as (c' & info' & E & Hsize & _).
  exists c', info'. split; [exact E | exact Hsize].
Defined.

(** C4 as stated fails: a context that already has a consumer (handle 1)
    gets a second one on SET_VERSION; the interface's [create] runs again
    and the old handle is overwritten. *)
Lemma set_version_creates_consumer_again :
  mCurrentConsumer eighth_read_context = 1
  /\ exists c' info' w',
       perform eighth_read_context set_version_ping
         (SmallWorld.mk 0 4096 [] 1 0)
       = Ok ((c', info'), w')
       /\ SmallWorld.consumers_created w' = 2
       /\ mCurrentConsumer c' = 2
       /\ mCurrentConsumer c' <> mCurrentConsumer eighth_read_context.
Proof.
  split; [reflexivity|].
  eexists _, _, _. split; [vm_compute; reflexivity|].
  cbn. repeat split; lia.
Qed.

End SetVersionRuns.

(** ** Snapshot of the pools: what [save] writes *)

Section PoolSave.
Context {SA W : Type} `{SubAllocator SA} `{Platform} `{Host W}.

Implicit Types (block : Block.t SA) (g : Globals SA) (out : Stream.t).

Lemma emit_then {A : Type} (bs : Stream.t) (k : M Stream.t A) out :
  (emit bs ;;; k) out = k (out ++ bs).
Proof. reflexivity. Qed.

Lemma emit_run (bs : Stream.t) out : emit bs out = Ok (tt, out ++ bs).
Proof. reflexivity. Qed.

Ltac step_emits :=
  repeat (rewrite bind_assoc || rewrite emit_then || rewrite emit_run);
  rewrite <- ?app_assoc.

Lemma saveBlockLocked_image block out :
  (Block.isEmpty block = false -> is_Some (Block.subAlloc block)) ->
  saveBlockLocked block out = Ok (tt, out ++ block_image block).
Proof.
  intros Hsa. unfold saveBlockLocked, block_image.
  destruct (Block.isEmpty block); [reflexivity|].
  destruct (Hsa eq_refl) as [sa ->].
  destruct (Block.dedicatedContextHandle block) as [h|];
    destruct (Block.external block); cbn [negb]; step_emits;
    rewrite ?app_nil_r; reflexivity.
Qed.

Lemma save_each_image (blocks : list (Block.t SA)) out :
  Forall (fun block => Block.isEmpty block = false ->
                       is_Some (Block.subAlloc block)) blocks ->
  save_each blocks out = Ok (tt, out ++ pool_image blocks).
Proof.
  intros Hall. revert out.
  induction Hall as [|block rest Hb _ IH]; intros out; cbn [save_each pool_image].
  - now rewrite app_nil_r.
  - unfold bind. rewrite saveBlockLocked_image by exact Hb.
    rewrite IH. now rewrite <- app_assoc.
Qed.

Lemma block_ok_has_subAlloc storable block :
  block_ok storable block ->
  Block.isEmpty block = false -> is_Some (Block.subAlloc block).
Proof.
  intros Hok He. destruct (Hok He) as [Ho | (h & Hd)].
  - destruct Ho as (_ & _ & _ & _ & _ & _ & _ & sa & -> & _). eauto.
  - destruct Hd as (_ & _ & _ & _ & _ & _ & _ & _ & sa & -> & _). eauto.
Qed.

Lemma save_image storable g out :
  Forall (block_ok storable) (all_blocks g) ->
  save g out = Ok (tt, out ++ globals_image g).
Proof.
  unfold all_blocks. rewrite !Forall_app. intros (Hr & Hb & Hc).
  assert (Hsub : forall bs, Forall (block_ok storable) bs ->
                            Forall (fun block => Block.isEmpty block = false ->
                                                 is_Some (Block.subAlloc block)) bs).
  { intros bs Hbs. eapply Forall_impl; [exact Hbs|].
    intros b. apply block_ok_has_subAlloc. }
  unfold save, globals_image. rewrite !emit_then.
  unfold bind.
  rewrite (save_each_image _ _ (Hsub _ Hr)).
  rewrite (save_each_image _ _ (Hsub _ Hb)).
  rewrite (save_each_image _ _ (Hsub _ Hc)).
  now rewrite <- !app_assoc.
Qed.

End PoolSave.

(** ** Snapshot of the pools: what [load] reads back *)

Section PoolLoadSteps.
Context {SA W : Type} `{SubAllocator SA} `{Platform} `{Host W}.

Implicit Types (block : Block.t SA) (g : Globals SA) (s : Sys SA W)
  (input rest : Stream.t) (resources : LoadResources).

Lemma ret_then {S A B : Type} (a : A) (k : A -> M S B) st :
  bind (ret a) k st = k a st.
Proof. reflexivity. Qed.

Lemma from_stream_then {A B : Type} (f : Stream.t -> option (A * Stream.t))
    (k : A -> M (Stream.t * Sys SA W) B) input s a rest :
  f input = Some (a, rest) ->
  bind (from_stream f) k (input, s) = k a (rest, s).
Proof. intros E. unfold bind, from_stream. cbn [fst snd]. now rewrite E. Qed.

Lemma on_sys_then {A B : Type} (m : M (Sys SA W) A)
    (k : A -> M (Stream.t * Sys SA W) B) input s a s' :
  m s = Ok (a, s') ->
  bind (on_sys m) k (input, s) = k a (input, s').
Proof. intros E. unfold bind, on_sys. cbn [fst snd]. now rewrite E. Qed.

Lemma fillBlockLocked_dedicated block create s handle :
  AllocationCreateInfo.dedicatedContextHandle create = Some handle ->
  AllocationCreateInfo.virtioGpu create = true ->
  AllocationCreateInfo.externalAddr create <> 0 ->
  fillBlockLocked block create s
  = Ok ({| Block.buffer := AllocationCreateInfo.externalAddr create;
           Block.bufferSize := AllocationCreateInfo.size create;
           Block.subAlloc :=
             Some (sa_new (AllocationCreateInfo.externalAddr create)
                     (AllocationCreateInfo.size create)
                     ADDRESS_SPACE_GRAPHICS_PAGE_SIZE);
           Block.offsetIntoPhys := 0;
           Block.isEmpty := false;
           Block.dedicatedContextHandle := Some handle;
           Block.usesVirtioGpuHostmem := true;
           Block.hostmemId := AllocationCreateInfo.hostmemId create;
           Block.external := true;
           Block.contents := [] |}, s).
Proof.
  intros Hh Hv Ha. unfold fillBlockLocked. rewrite Hh, Hv. cbn [negb].
  destruct (Z.eqb_spec (AllocationCreateInfo.externalAddr create) 0);
    [contradiction | reflexivity].
Qed.

Lemma fillBlockLocked_owned_on_load block create s :
  AllocationCreateInfo.dedicatedContextHandle create = None ->
  AllocationCreateInfo.virtioGpu create = false ->
  AllocationCreateInfo.fromLoad create = true ->
  mControlOps (globals s) <> 0 ->
  exists buf w',
    fillBlockLocked block create s
    = Ok ({| Block.buffer := buf;
             Block.bufferSize := ADDRESS_SPACE_GRAPHICS_BLOCK_SIZE;
             Block.subAlloc :=
               Some (sa_new buf ADDRESS_SPACE_GRAPHICS_BLOCK_SIZE
                       ADDRESS_SPACE_GRAPHICS_PAGE_SIZE);
             Block.offsetIntoPhys := Block.offsetIntoPhys block;
             Block.isEmpty := false;
             Block.dedicatedContextHandle := Block.dedicatedContextHandle block;
             Block.usesVirtioGpuHostmem := Block.usesVirtioGpuHostmem block;
             Block.hostmemId := Block.hostmemId block;
             Block.external := Block.external block;
             Block.contents :=
               fresh_bytes buf ADDRESS_SPACE_GRAPHICS_BLOCK_SIZE w' |},
          mkSys w' (globals s)).
Proof.
  intros Hh Hv Hl Hc. unfold fillBlockLocked. rewrite Hh, Hv, Hl.
  unfold bind, host_call, host_get, control_op, ret. cbn [world globals].
  destruct (allocSharedHostRegionFixedLocked ADDRESS_SPACE_GRAPHICS_BLOCK_SIZE
              (Block.offsetIntoPhys block) (world s)) as [allocRes w1].
  cbn [world globals].
  destruct (aligned_buf_alloc ADDRESS_SPACE_GRAPHICS_PAGE_SIZE
              ADDRESS_SPACE_GRAPHICS_BLOCK_SIZE w1) as [buf w2].
  cbn [world globals].
  destruct (Z.eqb_spec (mControlOps (globals s)) 0); [contradiction|].
  cbn [world globals]. eexists _, _. reflexivity.
Qed.

Lemma is_u32_0 : is_u32 0.
Proof. unfold is_u32. lia. Qed.

Lemma is_u32_1 : is_u32 1.
Proof. unfold is_u32. lia. Qed.

Lemma is_u64_0 : is_u64 0.
Proof. unfold is_u64. lia. Qed.

End PoolLoadSteps.

Ltac read_u32 :=
  erewrite from_stream_then
    by (apply StreamFacts.getBe32_putBe32;
        first [assumption | apply is_u32_0 | apply is_u32_1]).

Ltac read_u64 :=
  erewrite from_stream_then
    by (apply StreamFacts.getBe64_putBe64;
        first [assumption | apply is_u64_0]).

Ltac block_simpl :=
  cbn [Block.external Block.with_subAlloc Block.with_offsetIntoPhys
       Block.with_isEmpty Block.with_contents Block.default Block.bufferSize
       Block.offsetIntoPhys Block.dedicatedContextHandle
       Block.usesVirtioGpuHostmem Block.hostmemId Block.contents Block.buffer
       Block.isEmpty Block.subAlloc negb].

Section PoolLoad.
Context {SA W : Type} `{SubAllocator SA} `{Platform} `{Host W}.

Implicit Types (block : Block.t SA) (g : Globals SA) (s : Sys SA W)
  (input rest : Stream.t) (resources : LoadResources).

Lemma loadBlockLocked_restores storable resources block rest s :
  sub_allocator_round_trip storable ->
  is_u64 ADDRESS_SPACE_GRAPHICS_BLOCK_SIZE ->
  mControlOps (globals s) <> 0 ->
  block_ok storable block ->
  resource_supplied resources block ->
  exists block' w',
    loadBlockLocked resources Block.default (block_image block ++ rest, s)
    = Ok (block', (rest, mkSys w' (globals s)))
    /\ block_restored block block'.
Proof.
  intros Hlaw Hblock Hops Hok Hres.
  unfold loadBlockLocked, block_image.
  destruct (Block.isEmpty block) eqn:Hempty.
  - (* an empty slot *)
    read_u32. cbn [truthy Z.eqb negb].
    exists (Block.with_isEmpty true Block.default), (world s).
    split; [now destruct s|].
    split; [symmetry; exact Hempty | congruence].
  - destruct (Hok Hempty) as [Ho | (h & Hd)].
    + (* a block this core owns *)
      destruct Ho as (Hh & Hv & Hm & He & Hsz & Hlen & Hoff & sa & Hsa & Hst).
      rewrite Hh, Hv, Hm, He, Hsz, Hsa. cbn [Z_of_bool].
      rewrite <- !app_assoc.
      read_u32. cbn [truthy Z.eqb negb].
      read_u64. read_u64. read_u32. cbn [Z.eqb Pos.eqb].
      rewrite ret_then.
      read_u32. cbn [truthy Z.eqb negb]. rewrite ret_then.
      read_u64.
      destruct (fillBlockLocked_owned_on_load
                  (Block.with_offsetIntoPhys (Block.offsetIntoPhys block)
                     (Block.with_isEmpty false Block.default))
                  {| AllocationCreateInfo.virtioGpu := false;
                     AllocationCreateInfo.hostmemRegisterFixed := true;
                     AllocationCreateInfo.fromLoad := true;
                     AllocationCreateInfo.size := ADDRESS_SPACE_GRAPHICS_BLOCK_SIZE;
                     AllocationCreateInfo.hostmemId := 0;
                     AllocationCreateInfo.externalAddr := 0;
                     AllocationCreateInfo.dedicatedContextHandle := None |}
                  s eq_refl eq_refl eq_refl Hops) as (buf & w' & Hfill).
      erewrite on_sys_then by exact Hfill.
      cbn [Block.subAlloc].
      destruct (Hlaw sa (sa_new buf ADDRESS_SPACE_GRAPHICS_BLOCK_SIZE
                           ADDRESS_SPACE_GRAPHICS_PAGE_SIZE)
                  (take (Z.to_nat ADDRESS_SPACE_GRAPHICS_BLOCK_SIZE)
                     (Block.contents block) ++ rest) Hst) as (sa' & Hload).
      erewrite from_stream_then by exact Hload.
      block_simpl.
      rewrite take_ge by lia.
      erewrite from_stream_then
        by (rewrite <- Hlen; apply StreamFacts.read_app).
      eexists _, w'. split; [reflexivity|].
      unfold block_restored, backing. block_simpl.
      rewrite Hempty, He, Hsz, Hh, Hm, Hv, !take_ge by lia.
      auto 10.
    + (* a dedicated block over external memory *)
      destruct Hd as (Hh & Hhr & Hv & He & Hoff & Hbuf & Hm & Hsz & sa & Hsa & Hst).
      destruct (Hres Hempty h Hh) as (m & em & -> & Hlook & Haddr).
      rewrite Hh, Hv, He, Hoff, Hsa. cbn [Z_of_bool].
      rewrite <- !app_assoc. cbn [app].
      read_u32. cbn [truthy Z.eqb negb].
      read_u64. read_u64. read_u32. cbn [Z.eqb Pos.eqb].
      rewrite bind_assoc. read_u32. rewrite !ret_then.
      read_u32. cbn [truthy Z.eqb negb]. rewrite Hlook, ret_then.
      read_u64.
      erewrite on_sys_then
        by (apply (fillBlockLocked_dedicated _ _ _ h); cbn;
            [reflexivity | reflexivity | now rewrite Haddr]).
      cbn [Block.subAlloc AllocationCreateInfo.externalAddr
             AllocationCreateInfo.size AllocationCreateInfo.hostmemId].
      destruct (Hlaw sa (sa_new (externalAddress em) (Block.bufferSize block)
                           ADDRESS_SPACE_GRAPHICS_PAGE_SIZE) rest Hst)
        as (sa' & Hload).
      erewrite from_stream_then by exact Hload.
      block_simpl.
      eexists _, (world s). split; [now destruct s|].
      unfold block_restored, backing. block_simpl.
      rewrite Hempty, He, Hh, Hoff, Haddr. auto 10.
Qed.

Lemma load_each_restores storable resources (blocks : list (Block.t SA)) rest s :
  sub_allocator_round_trip storable ->
  is_u64 ADDRESS_SPACE_GRAPHICS_BLOCK_SIZE ->
  mControlOps (globals s) <> 0 ->
  Forall (block_ok storable) blocks ->
  Forall (resource_supplied resources) blocks ->
  exists blocks' w',
    load_each resources (replicate (length blocks) Block.default)
      (pool_image blocks ++ rest, s)
    = Ok (blocks', (rest, mkSys w' (globals s)))
    /\ Forall2 block_restored blocks blocks'.
Proof.
  intros Hlaw Hblock Hops Hok. revert rest s Hops.
  induction Hok as [|block blocks Hb _ IH]; intros rest s Hops Hres.
  - exists [], (world s). cbn. split; [now destruct s | constructor].
  - inversion Hres as [|? ? Hr Hrs]; subst.
    cbn [length replicate load_each pool_image]. rewrite <- app_assoc.
    destruct (loadBlockLocked_restores storable resources block
                (pool_image blocks ++ rest) s Hlaw Hblock Hops Hb Hr)
      as (block' & w1 & Hload & Hrestored).
    destruct (IH rest (mkSys w1 (globals s)) Hops Hrs)
      as (blocks' & w2 & Hloads & Hall).
    exists (block' :: blocks'), w2.
    split; [|now constructor].
    rewrite (bind_Ok _ _ _ _ _ Hload), (bind_Ok _ _ _ _ _ Hloads).
    reflexivity.
Qed.

Lemma destroy_each_runs (blocks : list (Block.t SA)) s :
  mControlOps (globals s) <> 0 ->
  exists w', destroy_each blocks s = Ok (tt, mkSys w' (globals s)).
Proof.
  intros Hops. revert s Hops.
  induction blocks as [|block blocks IH]; intros s Hops; cbn [destroy_each].
  - exists (world s). now destruct s.
  - destruct (Block.isEmpty block).
    + rewrite ret_then. apply IH, Hops.
    + destruct (Block.external block) eqn:He.
      * rewrite bind_assoc.
        rewrite (bind_Ok _ _ _ _ _ (destroyBlockLocked_external block s He)).
        rewrite !ret_then. apply IH, Hops.
      * pose proof (destroyBlockLocked_owned block s He) as Hd.
        destruct (Z.eqb_spec (mControlOps (globals s)) 0); [contradiction|].
        rewrite bind_assoc, (bind_Ok _ _ _ _ _ Hd), !ret_then.
        apply (IH (mkSys _ (globals s))), Hops.
Qed.

Lemma clear_runs s :
  mControlOps (globals s) <> 0 ->
  exists w', clear s = Ok (tt, mkSys w' (cleared (globals s))).
Proof.
  intros Hops. unfold clear.
  destruct (destroy_each_runs (pool_get RingPool (globals s)) s Hops) as (w1 & E1).
  destruct (destroy_each_runs (pool_get BufferPool (globals s))
              (mkSys w1 (globals s)) Hops) as (w2 & E2).
  destruct (destroy_each_runs (pool_get CombinedPool (globals s))
              (mkSys w2 (globals s)) Hops) as (w3 & E3).
  exists w3.
  assert (G : forall p (st : Sys SA W),
             get_pool p st = Ok (pool_get p (globals st), st)) by reflexivity.
  rewrite (bind_Ok _ _ _ _ _ (G RingPool s)), (bind_Ok _ _ _ _ _ E1).
  rewrite (bind_Ok _ _ _ _ _ (G BufferPool _)). cbn [globals].
  rewrite (bind_Ok _ _ _ _ _ E2).
  rewrite (bind_Ok _ _ _ _ _ (G CombinedPool _)). cbn [globals].
  rewrite (bind_Ok _ _ _ _ _ E3).
  reflexivity.
Qed.

Lemma clear_of_cleared g (w : W) :
  clear (mkSys w (cleared g)) = Ok (tt, mkSys w (cleared g)).
Proof. reflexivity. Qed.

Lemma load_restores storable resources g (w : W) rest :
  sub_allocator_round_trip storable ->
  snapshot_ready storable resources g ->
  exists w' g',
    load resources (globals_image g ++ rest, mkSys w (cleared g))
    = Ok (true, (rest, mkSys w' g'))
    /\ pools_restored g g'.
Proof.
  intros Hlaw (Hops & Hpre & Hblock & Lr & Lb & Lc & Hok & Hres).
  unfold all_blocks in Hok, Hres. rewrite !Forall_app in Hok, Hres.
  destruct Hok as (Okr & Okb & Okc). destruct Hres as (Rr & Rb & Rc).
  unfold load, globals_image. rewrite <- !app_assoc.
  erewrite on_sys_then by apply clear_of_cleared.
  erewrite on_sys_then by reflexivity.
  cbn [mConsumerInterface cleared globals]. rewrite Hpre.
  erewrite on_sys_then by reflexivity.
  assert (U : forall n : nat, Z.of_nat n < 2 ^ 64 -> is_u64 (Z.of_nat n)).
  { intros n Hn. unfold is_u64. lia. }
  erewrite from_stream_then by (apply StreamFacts.getBe64_putBe64, U, Lr).
  erewrite from_stream_then by (apply StreamFacts.getBe64_putBe64, U, Lb).
  erewrite from_stream_then by (apply StreamFacts.getBe64_putBe64, U, Lc).
  rewrite !Nat2Z.id.
  set (s0 := mkSys (consumer_globalPreLoad w) (cleared g)).
  destruct (load_each_restores storable resources (mRingBlocks g)
              (pool_image (mBufferBlocks g) ++ pool_image (mCombinedBlocks g) ++ rest)
              s0 Hlaw Hblock Hops Okr Rr) as (ring & w1 & E1 & F1).
  rewrite (bind_Ok _ _ _ _ _ E1).
  erewrite on_sys_then by reflexivity.
  set (s1 := mkSys w1 (pool_set RingPool ring (globals s0))).
  destruct (load_each_restores storable resources (mBufferBlocks g)
              (pool_image (mCombinedBlocks g) ++ rest)
              s1 Hlaw Hblock Hops Okb Rb) as (buffer & w2 & E2 & F2).
  rewrite (bind_Ok _ _ _ _ _ E2).
  erewrite on_sys_then by reflexivity.
  set (s2 := mkSys w2 (pool_set BufferPool buffer (globals s1))).
  destruct (load_each_restores storable resources (mCombinedBlocks g) rest
              s2 Hlaw Hblock Hops Okc Rc) as (combined & w3 & E3 & F3).
  rewrite (bind_Ok _ _ _ _ _ E3).
  erewrite on_sys_then by reflexivity.
  eexists _, _. split; [reflexivity|].
  unfold pools_restored, same_settings. cbn. auto 10.
Qed.

End PoolLoad.

(** ** Snapshot of one context: what [load] reads back *)

Section ContextLoad.
Context {SA W : Type} `{SubAllocator SA} `{Platform} `{Host W}.
Import AddressSpaceGraphicsContext.

Implicit Types (c : AddressSpaceGraphicsContext.t) (s : Sys SA W)
  (rest : Stream.t).

Lemma truthy_Z_of_bool (b : bool) : truthy (Z_of_bool b) = b.
Proof. now destruct b. Qed.

Lemma is_u32_Z_of_bool (b : bool) : is_u32 (Z_of_bool b).
Proof. destruct b; unfold is_u32; cbn; lia. Qed.

Ltac get_u32 :=
  erewrite from_stream_then
    by (apply StreamFacts.getBe32_putBe32;
        first [assumption | apply is_u32_0 | apply is_u32_1
              | apply is_u32_Z_of_bool]).

Ltac get_u64 :=
  erewrite from_stream_then
    by (apply StreamFacts.getBe64_putBe64; assumption).

Lemma loadAllocation_then {B : Type} (alloc0 alloc : Allocation.t)
    (k : Allocation.t -> M (Stream.t * Sys SA W) B) rest s :
  allocation_storable alloc ->
  bind (loadAllocation alloc0) k (allocation_image alloc ++ rest, s)
  = k {| Allocation.buffer := Allocation.buffer alloc0;
         Allocation.blockIndex := Allocation.blockIndex alloc;
         Allocation.offsetIntoPhys := Allocation.offsetIntoPhys alloc;
         Allocation.size := Allocation.size alloc;
         Allocation.dedicatedContextHandle :=
           Allocation.dedicatedContextHandle alloc0;
         Allocation.hostmemId := Allocation.hostmemId alloc0;
         Allocation.isView := Allocation.isView alloc |} (rest, s).
Proof.
  intros (Hi & Ho & Hs). unfold loadAllocation, allocation_image.
  rewrite <- !app_assoc, !bind_assoc.
  get_u64. rewrite bind_assoc. get_u64. rewrite bind_assoc. get_u64.
  rewrite bind_assoc. get_u32. rewrite ret_then, truthy_Z_of_bool.
  reflexivity.
Qed.

Lemma loadRingConfig_then {B : Type} (config : asg_ring_config)
    (k : asg_ring_config -> M (Stream.t * Sys SA W) B) rest s :
  ring_config_storable config ->
  bind loadRingConfig k (ring_config_image config ++ rest, s)
  = k config (rest, s).
Proof.
  intros (H1' & H2 & H3 & H4 & H5 & H6 & H7).
  unfold loadRingConfig, ring_config_image.
  rewrite <- !app_assoc.
  repeat (rewrite bind_assoc; get_u32).
  rewrite ret_then. now destruct config.
Qed.

Lemma fillAllocFromLoad_in_runs p (alloc : Allocation.t) s :
  exists alloc', fillAllocFromLoad_in p alloc s = Ok (alloc', s).
Proof.
  unfold fillAllocFromLoad_in, get_pool, gets, bind, ret.
  destruct (_ <=? _); [eauto|].
  destruct (_ !! _); eauto.
Qed.

Lemma context_load_restores c c0 (w : W) s rest :
  context_storable c ->
  can_load_consumer c0 ->
  exists image w',
    AddressSpaceGraphicsContext.save c ([], w) = Ok (tt, (image, w'))
    /\ exists c' st',
         AddressSpaceGraphicsContext.load c0 (image ++ rest, s) = Ok (c', st')
         /\ context_restored c c'.
Proof.
  intros (Hv & He & Hn & Hra & Hba & Hca & Hcfg & Hinfo & Hsave) (Hcreate & Hpost).
  rewrite save_layout. unfold consumer_tail. rewrite Hsave. cbn [app].
  set (tail_bytes :=
         if mCurrentConsumer c =? 0 then Stream.putBe32 0
         else Stream.putBe32 1 ++ fst (consumer_save (mCurrentConsumer c) w)).
  exists (context_image c ++ tail_bytes),
         (if mCurrentConsumer c =? 0 then w
          else snd (consumer_save (mCurrentConsumer c) w)).
  split.
  { subst tail_bytes. destruct (mCurrentConsumer c =? 0); reflexivity. }
  unfold AddressSpaceGraphicsContext.load, context_image.
  rewrite <- !app_assoc.
  (* the virtio identity *)
  assert (Hvirtio :
            forall (B : Type)
                   (k : option VirtioGpuInfo -> M (Stream.t * Sys SA W) B) tl,
              bind
                (hasVirtioGpuInfo <- from_stream Stream.getBe32 ;;
                 (if hasVirtioGpuInfo =? 1
                  then
                    contextId <- from_stream Stream.getBe32 ;;
                    capsetId <- from_stream Stream.getBe32 ;;
                    hasName <- from_stream Stream.getBe32 ;;
                    name <-
                      (if hasName =? 1
                       then str <- from_stream Stream.getString ;; ret (Some str)
                       else ret None) ;;
                    ret (Some (mkVirtioGpuInfo contextId capsetId name))
                  else ret (mVirtioGpuInfo c0)))
                k (virtio_image (mVirtioGpuInfo c) ++ tl, s)
              = k (match mVirtioGpuInfo c with
                   | Some i => Some i
                   | None => mVirtioGpuInfo c0
                   end) (tl, s)).
  { intros B k tl. unfold virtio_image.
    destruct (mVirtioGpuInfo c) as [[cid cap nm]|]; cbn [contextId capsetId name] in *.
    - destruct Hinfo as (Hcid & Hcap & Hname).
      rewrite <- !app_assoc, !bind_assoc. get_u32. cbn [Z.eqb Pos.eqb].
      rewrite !bind_assoc. get_u32. rewrite bind_assoc. get_u32.
      rewrite bind_assoc.
      destruct nm as [str|].
      + rewrite <- !app_assoc. get_u32. cbn [Z.eqb Pos.eqb].
        rewrite !bind_assoc.
        erewrite from_stream_then
          by (apply StreamFacts.getString_putString; exact Hname).
        rewrite !ret_then. reflexivity.
      + get_u32. cbn [Z.eqb]. rewrite !bind_assoc, !ret_then. reflexivity.
    - rewrite bind_assoc. get_u32. cbn [Z.eqb]. rewrite ret_then. reflexivity. }
  rewrite <- bind_assoc.
  rewrite Hvirtio.
  get_u32. get_u32. get_u32.
  rewrite (loadAllocation_then _ _ _ _ _ Hra).
  rewrite (loadAllocation_then _ _ _ _ _ Hba).
  rewrite (loadAllocation_then _ _ _ _ _ Hca).
  set (info' := match mVirtioGpuInfo c with
                | Some i => Some i
                | None => mVirtioGpuInfo c0
                end).
  (* re-attaching the allocations never aborts *)
  assert (Hallocs :
            forall ring buffer combined,
            exists allocs,
              (match info' with
               | Some _ =>
                   combined <- on_sys (fillAllocFromLoad combined AllocTypeCombined) ;;
                   ring <- on_sys (allocRingViewIntoCombined combined) ;;
                   buffer <- on_sys (allocBufferViewIntoCombined combined) ;;
                   ret (ring, buffer, combined)
               | None =>
                   ring <- on_sys (fillAllocFromLoad ring AllocTypeRing) ;;
                   buffer <- on_sys (fillAllocFromLoad buffer AllocTypeBuffer) ;;
                   ret (ring, buffer, combined)
               end)
                (ring_config_image (mSavedConfig c) ++ tail_bytes ++ rest, s)
              = Ok (allocs,
                    (ring_config_image (mSavedConfig c) ++ tail_bytes ++ rest, s))).
  { intros ring buffer combined. destruct info'.
    - destruct (fillAllocFromLoad_in_runs CombinedPool combined s) as (a & Ea).
      erewrite on_sys_then by exact Ea.
      erewrite on_sys_then by reflexivity.
      erewrite on_sys_then by reflexivity.
      eexists. reflexivity.
    - destruct (fillAllocFromLoad_in_runs RingPool ring s) as (a & Ea).
      destruct (fillAllocFromLoad_in_runs BufferPool buffer s) as (b & Eb).
      erewrite on_sys_then by exact Ea.
      erewrite on_sys_then by exact Eb.
      eexists. reflexivity. }
  match goal with
  | |- context [Allocation.mk (Allocation.buffer (mRingAllocation c0)) ?i ?o ?z ?d ?m ?v] =>
      set (ring := Allocation.mk (Allocation.buffer (mRingAllocation c0)) i o z d m v)
  end.
  match goal with
  | |- context [Allocation.mk (Allocation.buffer (mBufferAllocation c0)) ?i ?o ?z ?d ?m ?v] =>
      set (buffer := Allocation.mk (Allocation.buffer (mBufferAllocation c0)) i o z d m v)
  end.
  match goal with
  | |- context [Allocation.mk (Allocation.buffer (mCombinedAllocation c0)) ?i ?o ?z ?d ?m ?v] =>
      set (combined := Allocation.mk (Allocation.buffer (mCombinedAllocation c0)) i o z d m v)
  end.
  destruct (Hallocs ring buffer combined) as ([[ring' buffer'] combined'] & Ealloc).
  rewrite (bind_Ok _ _ _ _ _ Ealloc).
  erewrite on_sys_then by reflexivity.
  erewrite on_sys_then by reflexivity.
  rewrite (loadRingConfig_then _ _ _ _ Hcfg).
  subst tail_bytes.
  destruct (Z.eqb_spec (mCurrentConsumer c) 0) as [Hz|Hnz].
  - get_u32. cbn [Z.eqb].
    eexists _, _. split; [reflexivity|].
    unfold context_restored. cbn. subst info'.
    repeat split; auto. intros info ->. reflexivity.
  - rewrite <- app_assoc. get_u32. cbn [Z.eqb Pos.eqb].
    cbn [mConsumerInterface set_mCurrentConsumer]. rewrite Hcreate.
    unfold bind at 1. cbn [fst snd].
    destruct (create_consumer _ _ _ _ _ _) as [[h left] w1].
    cbn [mConsumerInterface set_mCurrentConsumer]. rewrite Hpost.
    erewrite on_sys_then by reflexivity.
    eexists _, _. split; [reflexivity|].
    unfold context_restored. cbn. subst info'.
    repeat split; auto. intros info ->. reflexivity.
Qed.

End ContextLoad.

(** ** The snapshot round trip *)

Section SnapshotRoundTrip.
Context {SA W : Type} `{SubAllocator SA} `{Platform} `{Host W}.

(** From a pool state that is ready for a snapshot, [Globals::save]
    succeeds, and after [clear], [Globals::load] on the saved bytes
    succeeds, consumes exactly those bytes and restores the pools; a
    context whose members are within their C++ ranges is saved by [save]
    and read back by [load]. *)
Lemma round_trip_of_ready (storable : SA -> Prop) (resources : LoadResources)
    (g : Globals SA) (w : W) (c c0 : AddressSpaceGraphicsContext.t)
    (rest rest' : Stream.t) :
  sub_allocator_round_trip storable ->
  snapshot_ready storable resources g ->
  context_storable c ->
  can_load_consumer c0 ->
  exists pools_bytes context_bytes w1 s1 s2,
    save g [] = Ok (tt, pools_bytes)
    /\ AddressSpaceGraphicsContext.save c ([], w) = Ok (tt, (context_bytes, w1))
    /\ clear (mkSys w1 g) = Ok (tt, s1)
    /\ load resources (pools_bytes ++ rest, s1) = Ok (true, (rest, s2))
    /\ pools_restored g (globals s2)
    /\ exists c' st,
         AddressSpaceGraphicsContext.load c0 (context_bytes ++ rest', s2)
         = Ok (c', st)
         /\ context_restored c c'.
Proof.
  intros Hlaw Hready Hc Hc0.
  pose proof Hready as (Hops & _ & _ & _ & _ & _ & Hok & _).
  destruct (context_load_restores c c0 w (mkSys w (cleared g)) rest' Hc Hc0)
    as (context_bytes & w1 & Hsave & _).
  destruct (clear_runs (mkSys w1 g) Hops) as (w2 & Hclear).
  destruct (load_restores storable resources g w2 rest Hlaw Hready)
    as (w3 & g' & Hload & Hpools).
  destruct (context_load_restores c c0 w (mkSys w3 g') rest' Hc Hc0)
    as (context_bytes' & w1' & Hsave' & c' & st & Hcload & Hrestored).
  assert (context_bytes' = context_bytes /\ w1' = w1) as (-> & ->).
  { rewrite Hsave in Hsave'. inversion Hsave'. auto. }
  exists (globals_image g), context_bytes, w1, (mkSys w2 (cleared g)), (mkSys w3 g').
  split; [exact (save_image storable g [] Hok)|].
  split; [exact Hsave|].
  split; [exact Hclear|].
  split; [exact Hload|].
  split; [exact Hpools|].
  exists c', st. split; [exact Hcload | exact Hrestored].
Qed.

End SnapshotRoundTrip.

(** ** The round trip on the small model *)

Section SmallModel.

Lemma load_slots_save_slots (slots : list Z) rest :
  Forall is_u64 slots ->
  PageAllocator.load_slots (length slots) (PageAllocator.save_slots slots ++ rest)
  = Some (slots, rest).
Proof.
  induction 1 as [|count slots Hc _ IH].
  - reflexivity.
  - cbn [length PageAllocator.load_slots PageAllocator.save_slots].
    rewrite <- app_assoc.
    rewrite StreamFacts.getBe64_putBe64 by exact Hc.
    now rewrite IH.
Qed.

Lemma page_allocator_round_trip :
  sub_allocator_round_trip PageAllocator.storable.
Proof.
  intros sa fresh rest (Hlen & Hslots).
  exists (PageAllocator.mk (PageAllocator.start fresh)
            (PageAllocator.totalSize fresh) (PageAllocator.pageSize fresh)
            (PageAllocator.slots sa)).
  cbn [sa_load sa_save page_allocator].
  unfold PageAllocator.load, PageAllocator.save.
  rewrite <- app_assoc.
  rewrite StreamFacts.getBe64_putBe64 by (unfold is_u64; lia).
  rewrite Nat2Z.id, load_slots_save_slots by exact Hslots.
  reflexivity.
Qed.

Lemma two_context_sys_ready :
  snapshot_ready PageAllocator.storable sample_resources (globals two_context_sys).
Proof.
  set (g := globals two_context_sys). vm_compute in g. subst g.
  unfold snapshot_ready, all_blocks.
  cbn [mControlOps mConsumerInterface mRingBlocks mBufferBlocks mCombinedBlocks
       ConsumerInterface.globalPreLoad length app].
  assert (U16 : is_u64 16) by (unfold is_u64; lia).
  assert (Hsa : forall slots,
             Forall is_u64 slots ->
             Z.of_nat (length slots) < 2 ^ 64 ->
             forall a b c, PageAllocator.storable (PageAllocator.mk a b c slots)).
  { intros slots Hr Hl a b c. split; assumption. }
  split; [discriminate|].
  split; [reflexivity|].
  split; [exact U16|].
  split; [cbn; lia|].
  split; [cbn; lia|].
  split; [cbn; lia|].
  split.
  - constructor; [|constructor; [|constructor; [|constructor]]]; intros _.
    + left. unfold owned_block_ok. cbn.
      repeat (split; [first [reflexivity | unfold is_u64; lia]|]).
      eexists. split; [reflexivity|].
      apply Hsa; [|cbn; lia].
      repeat constructor; cbn; unfold is_u64; lia.
    + left. unfold owned_block_ok. cbn.
      repeat (split; [first [reflexivity | unfold is_u64; lia]|]).
      eexists. split; [reflexivity|].
      apply Hsa; [|cbn; lia].
      repeat constructor; cbn; unfold is_u64; lia.
    + right. exists 7. cbn.
      repeat (split; [first [reflexivity | discriminate
                            | unfold is_u64, is_u32; lia]|]).
      eexists. split; [reflexivity|].
      apply Hsa; [|cbn; lia].
      repeat constructor; cbn; unfold is_u64; lia.
  - constructor; [|constructor; [|constructor; [|constructor]]];
      intros _ h Hh; cbn in Hh; try discriminate Hh.
    inversion Hh; subst h.
    exists {[ 7 := mkExternalMemory 20000 16 ]}, (mkExternalMemory 20000 16).
    split; [reflexivity|]. split; reflexivity.
Qed.

Lemma sample_virtio_context_storable : context_storable sample_virtio_context.
Proof.
  set (c := sample_virtio_context). vm_compute in c. subst c.
  unfold context_storable, allocation_storable, ring_config_storable,
    virtio_info_storable, is_u32, is_u64.
  cbn. repeat split; try lia; reflexivity.
Qed.

Lemma snapshot_target_can_load : can_load_consumer snapshot_target.
Proof. split; reflexivity. Qed.

End SmallModel.

(** ** Reachable pool states keep their blocks well formed *)

Section Reachability.
Context {SA W : Type} `{SubAllocator SA} `{Platform} `{Host W}.
Context (storable : SA -> Prop).
Context (Hkeeps : SubAllocatorKeeps storable) (Htyped : HostTyped)
        (Hblock : is_u64 ADDRESS_SPACE_GRAPHICS_BLOCK_SIZE).

Implicit Types (block : Block.t SA) (g : Globals SA) (s : Sys SA W) (p : Pool).

Lemma others_kept_refl p s : others_kept p s s.
Proof. intros q _. reflexivity. Qed.

Lemma others_kept_trans p s1 s2 s3 :
  others_kept p s1 s2 -> others_kept p s2 s3 -> others_kept p s1 s3.
Proof. intros A B q Hq. rewrite (B q Hq). apply A, Hq. Qed.

Lemma pool_get_pool_set_same p (bs : list (Block.t SA)) g :
  pool_get p (pool_set p bs g) = bs.
Proof. destruct p; reflexivity. Qed.

Lemma pool_get_pool_set_other p q (bs : list (Block.t SA)) g :
  q <> p -> pool_get q (pool_set p bs g) = pool_get q g.
Proof. destruct p, q; intros Hq; try reflexivity; contradiction. Qed.

Lemma with_block_keeps (Q : Block.t SA -> Prop) p index block s :
  Forall Q (pool_get p (globals s)) -> Q block ->
  Forall Q (pool_get p (globals (with_block p index block s)))
  /\ others_kept p s (with_block p index block s).
Proof.
  intros Hall Hb. unfold with_block. cbn [globals]. split.
  - rewrite pool_get_pool_set_same. now apply Forall_insert.
  - intros q Hq. now apply pool_get_pool_set_other.
Qed.

Ltac conj_assumptions :=
  repeat match goal with |- _ /\ _ => split; [assumption|] end.

Lemma slot_of_destroyed p block :
  slot_of storable p block -> slot_of storable p (destroyed block).
Proof.
  destruct p; cbn [slot_of]; unfold plain_slot, dedicated_slot, destroyed; cbn;
    intros Hs; try discriminate.
  all: destruct Hs as (A & B & C & D & _); conj_assumptions; discriminate.
Qed.

Lemma owned_block_ok_with_subAlloc block sa sa' :
  owned_block_ok storable block ->
  Block.subAlloc block = Some sa ->
  (storable sa -> storable sa') ->
  owned_block_ok storable (Block.with_subAlloc (Some sa') block).
Proof.
  intros (A & B & C & D & E & F & G & sa0 & Hsa0 & Hst0) Hsa Hst.
  unfold owned_block_ok. cbn. conj_assumptions.
  exists sa'. split; [reflexivity|]. apply Hst. congruence.
Qed.

Lemma dedicated_block_ok_with_subAlloc block sa sa' :
  dedicated_block_ok storable block ->
  Block.subAlloc block = Some sa ->
  (storable sa -> storable sa') ->
  dedicated_block_ok storable (Block.with_subAlloc (Some sa') block).
Proof.
  intros (h & A & B & C & D & E & F & G & I & sa0 & Hsa0 & Hst0) Hsa Hst.
  exists h. cbn. conj_assumptions.
  exists sa'. split; [reflexivity|]. apply Hst. congruence.
Qed.

Lemma slot_of_with_subAlloc p block sa sa' :
  slot_of storable p block ->
  Block.subAlloc block = Some sa ->
  (storable sa -> storable sa') ->
  slot_of storable p (Block.with_subAlloc (Some sa') block).
Proof.
  intros Hs Hsa Hst.
  destruct p; cbn [slot_of] in *; unfold plain_slot, dedicated_slot in *.
  1,2: destruct Hs as (A & B & C & D & E); cbn; conj_assumptions; intros He;
    eapply owned_block_ok_with_subAlloc; eauto.
  cbn. intros He. eapply dedicated_block_ok_with_subAlloc; eauto.
Qed.

Lemma slot_of_with_contents p block bytes :
  slot_of storable p block ->
  length bytes = length (Block.contents block) ->
  slot_of storable p (Block.with_contents bytes block).
Proof.
  intros Hs Hlen.
  destruct p; cbn [slot_of] in *; unfold plain_slot, dedicated_slot in *.
  1,2: destruct Hs as (A & B & C & D & E); cbn; conj_assumptions; intros He;
    destruct (E He) as (A' & B' & C' & D' & E' & F' & G' & I');
    unfold owned_block_ok; cbn; conj_assumptions; split; [congruence|];
    split; assumption.
  cbn. intros He. destruct (Hs He) as (h & A & B & C & D & E & F & G & I & J).
  exists h. cbn. conj_assumptions. assumption.
Qed.

Lemma fillBlockLocked_plain_slot block create s filled s' :
  AllocationCreateInfo.dedicatedContextHandle create = None ->
  Block.dedicatedContextHandle block = None ->
  Block.usesVirtioGpuHostmem block = false ->
  Block.hostmemId block = 0 ->
  Block.external block = false ->
  (AllocationCreateInfo.fromLoad create = true ->
   is_u64 (Block.offsetIntoPhys block)) ->
  fillBlockLocked block create s = Ok (filled, s') ->
  owned_block_ok storable filled
  /\ Block.isEmpty filled = false
  /\ (AllocationCreateInfo.fromLoad create = true ->
      Block.offsetIntoPhys filled = Block.offsetIntoPhys block).
Proof.
  intros Hh B1 B2 B3 B4 Hload. unfold fillBlockLocked. rewrite Hh.
  destruct (AllocationCreateInfo.virtioGpu create); [discriminate|].
  intros E. apply bind_Ok_inv in E as (off & s1 & E1 & E).
  assert (Hoff : is_u64 off
                 /\ (AllocationCreateInfo.fromLoad create = true ->
                     off = Block.offsetIntoPhys block)).
  { destruct (AllocationCreateInfo.fromLoad create).
    - apply bind_Ok_inv in E1 as (r & s0 & _ & E1). inversion E1; subst.
      split; [now apply Hload | reflexivity].
    - apply bind_Ok_inv in E1 as (r & s0 & E0 & E1). unfold host_call in E0.
      pose proof (region_offset_u64 Htyped ADDRESS_SPACE_GRAPHICS_BLOCK_SIZE
                    (world s)) as Hr.
      destruct (allocSharedHostRegionLocked ADDRESS_SPACE_GRAPHICS_BLOCK_SIZE
                  (world s)) as [[allocRes o] w'].
      inversion E0; subst. cbn in *.
      destruct (truthy allocRes); [discriminate|]. inversion E1; subst.
      split; [exact Hr | discriminate]. }
  destruct Hoff as [Hoff Hsame].
  apply bind_Ok_inv in E as (buf & s2 & _ & E).
  apply bind_Ok_inv in E as (phys & s3 & _ & E).
  apply bind_Ok_inv in E as (? & s4 & _ & E).
  apply bind_Ok_inv in E as (bytes & s5 & E5 & E).
  unfold host_get in E5. inversion E5; subst. inversion E; subst.
  split; [|split; [reflexivity | exact Hsame]].
  unfold owned_block_ok. cbn. conj_assumptions.
  split; [reflexivity|]. split; [apply (fresh_bytes_length Htyped)|].
  split; [exact Hoff|]. eexists. split; [reflexivity|].
  now apply (keeps_new _ Hkeeps).
Qed.

Lemma fillBlockLocked_dedicated_slot block create s filled s' handle :
  AllocationCreateInfo.dedicatedContextHandle create = Some handle ->
  is_u32 handle ->
  is_u64 (AllocationCreateInfo.size create) ->
  is_u64 (AllocationCreateInfo.hostmemId create) ->
  fillBlockLocked block create s = Ok (filled, s') ->
  dedicated_block_ok storable filled /\ Block.isEmpty filled = false.
Proof.
  intros Hh H32 Hsize Hid. unfold fillBlockLocked. rewrite Hh.
  destruct (AllocationCreateInfo.virtioGpu create) eqn:Hv; [|discriminate].
  cbn [negb].
  destruct (Z.eqb_spec (AllocationCreateInfo.externalAddr create) 0) as [|Ha];
    [discriminate|].
  intros E. inversion E; subst. split; [|reflexivity].
  exists handle. cbn. split; [reflexivity|]. conj_assumptions.
  split; [reflexivity|]. split; [reflexivity|].
  split; [reflexivity|]. conj_assumptions.
  eexists. split; [reflexivity|]. now apply (keeps_new _ Hkeeps).
Qed.

Lemma fillBlockLocked_slot p create block s filled s' :
  create_for p create ->
  slot_of storable p block ->
  fillBlockLocked block create s = Ok (filled, s') ->
  slot_of storable p filled.
Proof.
  intros Hc Hs E.
  destruct p; cbn [slot_of create_for] in *.
  1,2: destruct Hc as [Hh Hl]; destruct Hs as (B1 & B2 & B3 & B4 & _);
    pose proof (fillBlockLocked_globals _ _ _ _ _ E) as Hg;
    assert (Hf := E);
    apply fillBlockLocked_plain_slot in E as (Ho & _ & _); auto;
      [|rewrite Hl; discriminate];
    destruct Ho as (A1 & A2 & A3 & A4 & Ho');
    split; [exact A1|]; split; [exact A2|]; split; [exact A3|];
    split; [exact A4|]; intros _; unfold owned_block_ok; conj_assumptions;
    exact Ho'.
  destruct Hc as (h & Hh & H32 & Hsize & Hid).
  eapply fillBlockLocked_dedicated_slot in E as [Hd _]; eauto.
  intros _. exact Hd.
Qed.

Lemma others_kept_globals p s s' :
  globals s' = globals s -> others_kept p s s'.
Proof. intros E q _. now rewrite E. Qed.

Lemma newAllocation_scan_keeps create p remaining index s found s' :
  create_for p create ->
  Forall (slot_of storable p) (pool_get p (globals s)) ->
  newAllocation_scan create p remaining index s = Ok (found, s') ->
  Forall (slot_of storable p) (pool_get p (globals s'))
  /\ others_kept p s s'.
Proof.
  intros Hc. revert index s.
  induction remaining as [|n IH]; intros index s Hall;
    cbn [newAllocation_scan].
  - intros E. inversion E; subst. split; [exact Hall | apply others_kept_refl].
  - unfold get_pool at 1, gets at 1, bind at 1.
    destruct (pool_get p (globals s) !! index) as [block0|] eqn:Hlk.
    2:{ intros E. inversion E; subst.
        split; [exact Hall | apply others_kept_refl]. }
    pose proof (Forall_lookup_1 _ _ _ _ Hall Hlk) as Hb0.
    intros E. apply bind_Ok_inv in E as (block & s1 & E1 & E).
    assert (Hstep : Forall (slot_of storable p) (pool_get p (globals s1))
                 /\ others_kept p s s1 /\ slot_of storable p block
                 /\ pool_get p (globals s1) !! index = Some block).
    { destruct (Block.isEmpty block0).
      - apply bind_Ok_inv in E1 as (filled & s0 & F & E1).
        pose proof (fillBlockLocked_globals _ _ _ _ _ F) as Hg.
        pose proof (fillBlockLocked_slot _ _ _ _ _ _ Hc Hb0 F) as Hf.
        apply bind_Ok_inv in E1 as (? & s2 & E1 & E2).
        rewrite set_block_run in E1. inversion E1; subst.
        inversion E2; subst.
        destruct (with_block_keeps (slot_of storable p) p index block s0)
          as [K1 K2]; [now rewrite Hg | exact Hf |].
        split; [exact K1|]. split.
        + eapply others_kept_trans; [apply others_kept_globals, Hg | exact K2].
        + split; [exact Hf|]. unfold with_block. cbn [globals].
          rewrite pool_get_pool_set_same, Hg.
          apply list_lookup_insert_eq. now apply lookup_lt_Some in Hlk.
      - inversion E1; subst.
        split; [exact Hall|]. split; [apply others_kept_refl|].
        split; [exact Hb0 | exact Hlk]. }
    destruct Hstep as (K1 & K2 & Hb & Hlk1).
    destruct (negb (bool_decide _)).
    { apply IH in E as [J1 J2]; [|exact K1].
      split; [exact J1 | eapply others_kept_trans; eauto]. }
    destruct (Block.subAlloc block) as [sa|] eqn:Hsa; [|discriminate E].
    destruct (sa_alloc (AllocationCreateInfo.size create) sa) as [buf sa'] eqn:Ha.
    apply bind_Ok_inv in E as (? & s2 & E2 & E).
    rewrite set_block_run in E2. inversion E2; subst. clear E2.
    destruct (with_block_keeps (slot_of storable p) p index
                (Block.with_subAlloc (Some sa') block) s1) as [L1 L2];
      [exact K1| |].
    { eapply slot_of_with_subAlloc; [exact Hb | exact Hsa |].
      intros Hst. pose proof (keeps_alloc _ Hkeeps
                                (AllocationCreateInfo.size create) sa Hst) as Hk.
      now rewrite Ha in Hk. }
    destruct (negb (buf =? 0)).
    + inversion E; subst.
      split; [exact L1|]. eapply others_kept_trans; eauto.
    + apply IH in E as [J1 J2]; [|exact L1].
      split; [exact J1|].
      eapply others_kept_trans; [|exact J2].
      eapply others_kept_trans; eauto.
Qed.

Lemma slot_of_default p : slot_of storable p Block.default.
Proof.
  destruct p; cbn [slot_of]; unfold plain_slot, dedicated_slot; cbn;
    try discriminate; repeat (split; [reflexivity|]); discriminate.
Qed.

Lemma newAllocation_keeps create p s res s' :
  create_for p create ->
  Forall (slot_of storable p) (pool_get p (globals s)) ->
  newAllocation create p s = Ok (res, s') ->
  Forall (slot_of storable p) (pool_get p (globals s'))
  /\ others_kept p s s'.
Proof.
  intros Hc Hall. unfold newAllocation.
  destruct (AllocationCreateInfo.size create >? ADDRESS_SPACE_GRAPHICS_BLOCK_SIZE);
    [discriminate|].
  intros E. apply bind_Ok_inv in E as (blocks & s1 & E1 & E).
  inversion E1; subst. clear E1.
  apply bind_Ok_inv in E as (found & s2 & E2 & E).
  apply newAllocation_scan_keeps in E2 as [K1 K2]; [|exact Hc|exact Hall].
  destruct found as [res0|].
  - inversion E; subst. split; assumption.
  - apply bind_Ok_inv in E as (blocks' & s3 & E3 & E).
    inversion E3; subst. clear E3.
    apply bind_Ok_inv in E as (newBlock & s4 & E4 & E).
    pose proof (fillBlockLocked_globals _ _ _ _ _ E4) as Hg.
    pose proof (fillBlockLocked_slot _ _ _ _ _ _ Hc (slot_of_default p) E4) as Hf.
    destruct (Block.subAlloc newBlock) as [sa|] eqn:Hsa; [|discriminate E].
    destruct (sa_alloc (AllocationCreateInfo.size create) sa) as [buf sa'] eqn:Ha.
    destruct (buf =? 0); [discriminate E|].
    apply bind_Ok_inv in E as (? & s5 & E5 & E).
    inversion E5; subst. inversion E; subst. cbn [globals]. split.
    + rewrite pool_get_pool_set_same. apply Forall_app. split; [exact K1|].
      constructor; [|constructor].
      eapply slot_of_with_subAlloc; [exact Hf | exact Hsa |].
      intros Hst. pose proof (keeps_alloc _ Hkeeps
                                (AllocationCreateInfo.size create) sa Hst) as Hk.
      now rewrite Ha in Hk.
    + eapply others_kept_trans; [exact K2|].
      intros q Hq. cbn [globals].
      rewrite pool_get_pool_set_other by exact Hq. now rewrite Hg.
Qed.

Lemma destroyBlockLocked_keeps block s gone s' :
  destroyBlockLocked block s = Ok (gone, s') ->
  gone = destroyed block /\ globals s' = globals s.
Proof.
  destruct (Block.external block) eqn:He.
  - rewrite destroyBlockLocked_external by exact He.
    intros E. now inversion E.
  - rewrite destroyBlockLocked_owned by exact He.
    destruct (mControlOps (globals s) =? 0); [discriminate|].
    intros E. now inversion E.
Qed.

Lemma deleteAllocation_keeps (alloc : Allocation.t) p s s' :
  Forall (slot_of storable p) (pool_get p (globals s)) ->
  deleteAllocation alloc p s = Ok (tt, s') ->
  Forall (slot_of storable p) (pool_get p (globals s'))
  /\ others_kept p s s'.
Proof.
  intros Hall. unfold deleteAllocation.
  destruct (Allocation.buffer alloc =? 0).
  { intros E. inversion E; subst. split; [exact Hall | apply others_kept_refl]. }
  unfold get_pool at 1, gets at 1, bind at 1.
  destruct (Z.of_nat (length (pool_get p (globals s))) <=? Allocation.blockIndex alloc);
    [discriminate|].
  destruct (pool_get p (globals s) !! Z.to_nat (Allocation.blockIndex alloc))
    as [block|] eqn:Hlk; [|discriminate].
  pose proof (Forall_lookup_1 _ _ _ _ Hall Hlk) as Hb.
  assert (Hgone : forall blk s1 s2,
             slot_of storable p blk ->
             Forall (slot_of storable p) (pool_get p (globals s1)) ->
             (gone <- destroyBlockLocked blk ;;
              set_block p (Z.to_nat (Allocation.blockIndex alloc)) gone) s1
             = Ok (tt, s2) ->
             Forall (slot_of storable p) (pool_get p (globals s2))
             /\ others_kept p s1 s2).
  { intros blk s1 s2 Hblk Hall1 E.
    apply bind_Ok_inv in E as (gone & s0 & E0 & E).
    apply destroyBlockLocked_keeps in E0 as [-> Hg].
    rewrite set_block_run in E. inversion E; subst.
    destruct (with_block_keeps (slot_of storable p) p
                (Z.to_nat (Allocation.blockIndex alloc)) (destroyed blk) s0)
      as [K1 K2]; [now rewrite Hg | now apply slot_of_destroyed |].
    split; [exact K1|].
    eapply others_kept_trans; [apply others_kept_globals, Hg | exact K2]. }
  destruct (Block.external block).
  { intros E. eapply Hgone; eauto. }
  destruct (Block.subAlloc block) as [sa|] eqn:Hsa; [|discriminate].
  destruct (sa_free (Allocation.buffer alloc) sa) as [freed sa'] eqn:Hfree.
  intros E. apply bind_Ok_inv in E as (? & s1 & E1 & E).
  rewrite set_block_run in E1. inversion E1; subst. clear E1.
  assert (Hb' : slot_of storable p (Block.with_subAlloc (Some sa') block)).
  { eapply slot_of_with_subAlloc; [exact Hb | exact Hsa |].
    intros Hst. pose proof (keeps_free _ Hkeeps (Allocation.buffer alloc) sa Hst) as Hk.
    now rewrite Hfree in Hk. }
  destruct (with_block_keeps (slot_of storable p) p
              (Z.to_nat (Allocation.blockIndex alloc))
              (Block.with_subAlloc (Some sa') block) s) as [K1 K2];
    [exact Hall | exact Hb' |].
  destruct (negb freed); [discriminate E|].
  apply bind_Ok_inv in E as (should & s2 & E2 & E).
  rewrite (shouldDestryBlockLocked_run _ sa') in E2 by reflexivity.
  inversion E2; subst. clear E2.
  destruct (sa_empty sa').
  - apply Hgone in E as [J1 J2]; [| exact Hb' | exact K1].
    split; [exact J1 | eapply others_kept_trans; eauto].
  - inversion E; subst. split; assumption.
Qed.

Lemma on_sys_Ok_inv {A B : Type} (m : M (Sys SA W) A)
    (k : A -> M (Stream.t * Sys SA W) B) input s r :
  bind (on_sys m) k (input, s) = Ok r ->
  exists a s', m s = Ok (a, s') /\ k a (input, s') = Ok r.
Proof.
  unfold bind, on_sys. cbn [fst snd].
  destruct (m s) as [[a s']| |]; intros E; try discriminate E. eauto.
Qed.

Lemma plain_slot_empty_default :
  plain_slot storable (Block.with_isEmpty true (@Block.default SA)).
Proof.
  unfold plain_slot. cbn. repeat (split; [reflexivity|]). discriminate.
Qed.

Lemma loadBlockLocked_plain resources block rest s loaded st' :
  sub_allocator_round_trip storable ->
  plain_slot storable block ->
  loadBlockLocked resources Block.default (block_image block ++ rest, s)
  = Ok (loaded, st') ->
  plain_slot storable loaded /\ fst st' = rest /\ globals (snd st') = globals s.
Proof.
  intros Hlaw (P1 & P2 & P3 & P4 & Hok).
  unfold loadBlockLocked, block_image.
  destruct (Block.isEmpty block) eqn:Hempty.
  - read_u32. cbn [truthy Z.eqb negb]. intros E. inversion E; subst.
    split; [apply plain_slot_empty_default | split; reflexivity].
  - destruct (Hok eq_refl) as (Hh & Hv & Hm & He & Hsz & Hlen & Hoff & sa & Hsa & Hst).
    rewrite Hh, Hv, Hm, He, Hsz, Hsa. cbn [Z_of_bool].
    rewrite <- !app_assoc.
    read_u32. cbn [truthy Z.eqb negb].
    read_u64. read_u64. read_u32. cbn [Z.eqb Pos.eqb].
    rewrite ret_then.
    read_u32. cbn [truthy Z.eqb negb]. rewrite ret_then.
    read_u64.
    intros E. apply on_sys_Ok_inv in E as (filled & s1 & F & E).
    pose proof (fillBlockLocked_globals _ _ _ _ _ F) as Hg.
    apply fillBlockLocked_plain_slot in F as (Ho & He' & _);
      try reflexivity; [|intros _; exact Hoff].
    pose proof Ho as (F1 & F2 & F3 & F4 & F5 & F6 & F7 & sa0 & Hsa0 & Hst0).
    rewrite Hsa0 in E.
    destruct (Hlaw sa sa0
                (take (Z.to_nat ADDRESS_SPACE_GRAPHICS_BLOCK_SIZE)
                   (Block.contents block) ++ rest) Hst) as (sa' & Hload).
    erewrite from_stream_then in E by exact Hload.
    cbn [Block.external Block.with_subAlloc Block.bufferSize] in E.
    rewrite F4, F5 in E. cbn [negb] in E.
    rewrite take_ge in E by lia.
    erewrite from_stream_then in E
      by (rewrite <- Hlen; apply StreamFacts.read_app).
    inversion E; subst. cbn [fst snd].
    split; [|split; [reflexivity | exact Hg]].
    unfold plain_slot, owned_block_ok. cbn. conj_assumptions. intros _.
    conj_assumptions.
    exists sa'. split; [reflexivity|]. eapply (keeps_load _ Hkeeps), Hload.
Qed.

Lemma bind_die {S A B : Type} r (k : A -> M S B) st :
  bind (die r) k st = Die r.
Proof. reflexivity. Qed.

Lemma loadBlockLocked_dedicated resources block rest s loaded st' :
  sub_allocator_round_trip storable ->
  dedicated_slot storable block ->
  loadBlockLocked resources Block.default (block_image block ++ rest, s)
  = Ok (loaded, st') ->
  dedicated_slot storable loaded
  /\ fst st' = rest /\ globals (snd st') = globals s.
Proof.
  intros Hlaw Hok.
  unfold loadBlockLocked, block_image.
  destruct (Block.isEmpty block) eqn:Hempty.
  - read_u32. cbn [truthy Z.eqb negb]. intros E. inversion E; subst.
    split; [|split; reflexivity]. unfold dedicated_slot. cbn. discriminate.
  - destruct (Hok Hempty)
      as (h & Hh & Hhr & Hv & He & Hoff & Hbuf & Hm & Hsz & sa & Hsa & Hst).
    rewrite Hh, Hv, He, Hoff, Hsa. cbn [Z_of_bool].
    rewrite <- !app_assoc. cbn [app].
    read_u32. cbn [truthy Z.eqb negb].
    read_u64. read_u64. read_u32. cbn [Z.eqb Pos.eqb].
    rewrite bind_assoc. read_u32. rewrite !ret_then.
    read_u32. cbn [truthy Z.eqb negb].
    destruct resources as [m|]; [|rewrite bind_die; discriminate].
    destruct (m !! h) as [em|]; [|rewrite bind_die; discriminate].
    rewrite ret_then. read_u64.
    intros E. apply on_sys_Ok_inv in E as (filled & s1 & F & E).
    pose proof (fillBlockLocked_globals _ _ _ _ _ F) as Hg.
    apply (fillBlockLocked_dedicated_slot _ _ _ _ _ h) in F as (Hd & He');
      [|reflexivity | exact Hhr | exact Hsz | exact Hm].
    pose proof Hd as (h' & F1 & F2 & F3 & F4 & F5 & F6 & F7 & F8 & sa0 & Hsa0 & Hst0).
    rewrite Hsa0 in E.
    destruct (Hlaw sa sa0 rest Hst) as (sa' & Hload).
    erewrite from_stream_then in E by exact Hload.
    cbn [Block.external Block.with_subAlloc] in E.
    rewrite F4 in E. cbn [negb] in E.
    inversion E; subst. cbn [fst snd].
    split; [|split; [reflexivity | exact Hg]].
    intros _. eapply dedicated_block_ok_with_subAlloc; [exact Hd | exact Hsa0 |].
    intros _. eapply (keeps_load _ Hkeeps), Hload.
Qed.

Lemma loadBlockLocked_slot p resources block rest s loaded st' :
  sub_allocator_round_trip storable ->
  slot_of storable p block ->
  loadBlockLocked resources Block.default (block_image block ++ rest, s)
  = Ok (loaded, st') ->
  slot_of storable p loaded
  /\ fst st' = rest /\ globals (snd st') = globals s.
Proof.
  destruct p; cbn [slot_of];
    [apply loadBlockLocked_plain | apply loadBlockLocked_plain
     | apply loadBlockLocked_dedicated].
Qed.

Lemma load_each_slot p resources (blocks : list (Block.t SA)) rest s loaded st' :
  sub_allocator_round_trip storable ->
  Forall (slot_of storable p) blocks ->
  load_each resources (replicate (length blocks) Block.default)
    (pool_image blocks ++ rest, s) = Ok (loaded, st') ->
  Forall (slot_of storable p) loaded
  /\ fst st' = rest /\ globals (snd st') = globals s.
Proof.
  intros Hlaw Hall. revert rest s loaded st'.
  induction Hall as [|block blocks Hb _ IH]; intros rest s loaded st'.
  - cbn. intros E. inversion E; subst. split; [constructor | split; reflexivity].
  - cbn [length replicate load_each pool_image]. rewrite <- app_assoc.
    intros E. apply bind_Ok_inv in E as (block' & [rest1 s1] & E1 & E).
    apply (loadBlockLocked_slot p) in E1 as (Hb' & Hr1 & Hg1);
      [|exact Hlaw | exact Hb].
    cbn [fst snd] in Hr1, Hg1. subst rest1.
    apply bind_Ok_inv in E as (blocks' & [rest2 s2] & E2 & E).
    apply IH in E2 as (Hall' & Hr2 & Hg2).
    inversion E; subst. cbn [fst snd] in *.
    split; [now constructor | split; [reflexivity | congruence]].
Qed.

Lemma load_pools_ok resources (saved : Globals SA) rest s result :
  sub_allocator_round_trip storable ->
  pools_ok storable saved ->
  (forall p, Z.of_nat (length (pool_get p saved)) < 2 ^ 64) ->
  load resources (globals_image saved ++ rest, s) = Ok result ->
  pools_ok storable (globals (snd (snd result))).
Proof.
  intros Hlaw Hok Hlen. unfold load, globals_image. rewrite <- !app_assoc.
  assert (U : forall p, is_u64 (Z.of_nat (length (pool_get p saved)))).
  { intros p. specialize (Hlen p). unfold is_u64. lia. }
  intros E. apply on_sys_Ok_inv in E as ([] & s1 & _ & E).
  apply on_sys_Ok_inv in E as (iface & s2 & _ & E).
  apply bind_Ok_inv in E as ([] & [input3 s3] & E3 & E).
  assert (input3 = Stream.putBe64 (Z.of_nat (length (mRingBlocks saved)))
                   ++ Stream.putBe64 (Z.of_nat (length (mBufferBlocks saved)))
                   ++ Stream.putBe64 (Z.of_nat (length (mCombinedBlocks saved)))
                   ++ pool_image (mRingBlocks saved)
                   ++ pool_image (mBufferBlocks saved)
                   ++ pool_image (mCombinedBlocks saved) ++ rest) as ->.
  { destruct (ConsumerInterface.globalPreLoad iface); [|discriminate E3].
    unfold on_sys in E3. cbn in E3. now inversion E3. }
  clear E3.
  erewrite from_stream_then in E
    by (apply StreamFacts.getBe64_putBe64, (U RingPool)).
  erewrite from_stream_then in E
    by (apply StreamFacts.getBe64_putBe64, (U BufferPool)).
  erewrite from_stream_then in E
    by (apply StreamFacts.getBe64_putBe64, (U CombinedPool)).
  rewrite !Nat2Z.id in E.
  apply bind_Ok_inv in E as (ring & [input4 s4] & E4 & E).
  apply (load_each_slot RingPool) in E4 as (Hring & Hr4 & _);
    [|exact Hlaw | exact (Hok RingPool)].
  cbn [fst] in Hr4. subst input4.
  apply on_sys_Ok_inv in E as ([] & s5 & E5 & E).
  apply bind_Ok_inv in E as (buffer & [input6 s6] & E6 & E).
  apply (load_each_slot BufferPool) in E6 as (Hbuffer & Hr6 & Hg6);
    [|exact Hlaw | exact (Hok BufferPool)].
  cbn [fst snd] in Hr6, Hg6. subst input6.
  apply on_sys_Ok_inv in E as ([] & s7 & E7 & E).
  apply bind_Ok_inv in E as (combined & [input8 s8] & E8 & E).
  apply (load_each_slot CombinedPool) in E8 as (Hcombined & Hr8 & Hg8);
    [|exact Hlaw | exact (Hok CombinedPool)].
  cbn [fst snd] in Hr8, Hg8. subst input8.
  apply on_sys_Ok_inv in E as ([] & s9 & E9 & E).
  inversion E; subst. cbn [snd].
  inversion E5; subst. inversion E7; subst. inversion E9; subst.
  cbn [globals] in *.
  intros p. destruct p; cbn; rewrite ?Hg8; cbn; rewrite ?Hg6; cbn; assumption.
Qed.

Lemma pools_ok_step p s s' :
  pools_ok storable (globals s) ->
  Forall (slot_of storable p) (pool_get p (globals s'))
  /\ others_kept p s s' ->
  pools_ok storable (globals s').
Proof.
  intros Hok [Hp Hothers] q.
  assert (Hcase : q = p \/ q <> p) by (destruct q, p; auto; right; discriminate).
  destruct Hcase as [->|Hq]; [exact Hp|].
  rewrite (Hothers q Hq). apply Hok.
Qed.

Lemma clear_pools_empty s s' :
  clear s = Ok (tt, s') -> forall p, pool_get p (globals s') = [].
Proof.
  unfold clear. intros E.
  apply bind_Ok_inv in E as (ring & s1 & _ & E).
  apply bind_Ok_inv in E as ([] & s2 & _ & E).
  apply bind_Ok_inv in E as (buffer & s3 & _ & E).
  apply bind_Ok_inv in E as ([] & s4 & _ & E).
  apply bind_Ok_inv in E as (combined & s5 & _ & E).
  apply bind_Ok_inv in E as ([] & s6 & _ & E).
  apply bind_Ok_inv in E as ([] & s7 & E7 & E).
  apply bind_Ok_inv in E as ([] & s8 & E8 & E).
  inversion E7; subst. inversion E8; subst. inversion E; subst.
  intros p. destruct p; reflexivity.
Qed.

Lemma is_u64_wrap64 z : is_u64 (wrap64 z).
Proof.
  unfold is_u64, wrap64.
  pose proof (Z.mod_pos_bound z (2 ^ 64) ltac:(lia)). lia.
Qed.

Lemma run_call_keeps call s s' :
  pools_ok storable (globals s) ->
  call_typed call ->
  run_call call s = Ok (tt, s') ->
  pools_ok storable (globals s').
Proof.
  intros Hok Htc.
  destruct call as [ops|iface| | |hnd addr addrSize|alloc|alloc|alloc|];
    cbn [run_call call_typed] in *.
  - unfold initialize. destruct (mInitialized (globals s)); intros E;
      inversion E; subst; [exact Hok|].
    intros p. specialize (Hok p). now destruct p.
  - intros E. inversion E; subst.
    intros p. specialize (Hok p). now destruct p.
  - intros E. apply bind_Ok_inv in E as (res & s1 & E1 & E).
    inversion E; subst.
    eapply (pools_ok_step RingPool), newAllocation_keeps; eauto.
    split; reflexivity.
  - intros E. apply bind_Ok_inv in E as (res & s1 & E1 & E).
    inversion E; subst.
    apply bind_Ok_inv in E1 as (size & s0 & E0 & E1). inversion E0; subst.
    eapply (pools_ok_step BufferPool), newAllocation_keeps; eauto.
    split; reflexivity.
  - destruct Htc as [H32 H64].
    intros E. apply bind_Ok_inv in E as (res & s1 & E1 & E).
    inversion E; subst.
    unfold allocRingAndBufferStorageDedicated in E1.
    destruct (hnd =? 0); [discriminate E1|].
    apply bind_Ok_inv in E1 as (perCtx & s0 & E0 & E1). inversion E0; subst.
    apply bind_Ok_inv in E1 as (create & s2 & E2 & E1).
    eapply (pools_ok_step CombinedPool), newAllocation_keeps; try exact E1.
    + assert (globals s2 = globals s0) as ->; [|exact Hok].
      destruct (negb (addr =? 0));
        [destruct (addrSize <? _); [discriminate E2|]|];
        now inversion E2.
    + exists hnd.
      destruct (negb (addr =? 0));
        [destruct (addrSize <? _); [discriminate E2|]|];
        inversion E2; subst; cbn;
        (split; [reflexivity|]; split; [exact H32|]; split;
         [first [exact H64 | apply is_u64_wrap64] | apply is_u64_0]).
    + assert (globals s2 = globals s0) as ->; [|apply Hok].
      destruct (negb (addr =? 0));
        [destruct (addrSize <? _); [discriminate E2|]|];
        now inversion E2.
  - unfold freeRingStorage. destruct (Allocation.isView alloc).
    + intros E. now inversion E; subst.
    + intros E. eapply (pools_ok_step RingPool), deleteAllocation_keeps; eauto.
  - unfold freeBuffer. destruct (Allocation.isView alloc).
    + intros E. now inversion E; subst.
    + intros E. eapply (pools_ok_step BufferPool), deleteAllocation_keeps; eauto.
  - unfold freeRingAndBuffer.
    intros E. eapply (pools_ok_step CombinedPool), deleteAllocation_keeps; eauto.
  - intros E p. rewrite (clear_pools_empty _ _ E p). constructor.
Qed.

(** Every state of the process that the calls of the core, guest writes
    and loads of saved images reach keeps its pools well formed. *)
Lemma reachable_pools_ok s :
  sub_allocator_round_trip storable ->
  reachable s -> pools_ok storable (globals s).
Proof.
  intros Hlaw Hr. induction Hr as
    [w g Hring Hbuffer Hcombined
    | s call s' _ IH Htc E
    | s w _ IH
    | s p index block bytes _ IH Hlk He Hlen
    | saved s resources rest result _ IHsaved _ _ Hsizes E].
  - intros p. destruct p; cbn; rewrite ?Hring, ?Hbuffer, ?Hcombined; constructor.
  - eapply run_call_keeps; eauto.
  - exact IH.
  - eapply (pools_ok_step p); [exact IH|].
    apply with_block_keeps; [apply IH|].
    apply slot_of_with_contents; [|exact Hlen].
    exact (Forall_lookup_1 _ _ _ _ (IH p) Hlk).
  - eapply load_pools_ok; eauto.
Qed.

Lemma pools_ok_block_ok g :
  pools_ok storable g -> Forall (block_ok storable) (all_blocks g).
Proof.
  intros Hok. unfold all_blocks. rewrite !Forall_app.
  pose proof (Hok RingPool) as Hr. pose proof (Hok BufferPool) as Hb.
  pose proof (Hok CombinedPool) as Hc. cbn in Hr, Hb, Hc.
  split; [|split].
  - eapply Forall_impl; [exact Hr|]. intros b (_ & _ & _ & _ & Ho) He.
    left. now apply Ho.
  - eapply Forall_impl; [exact Hb|]. intros b (_ & _ & _ & _ & Ho) He.
    left. now apply Ho.
  - eapply Forall_impl; [exact Hc|]. intros b Hd He. right. now apply Hd.
Qed.

(** A reachable state on which [initialize] and [setConsumer] have run,
    whose pool sizes fit the stream and whose dedicated blocks the load
    resources cover, is ready for a snapshot. *)
Lemma reachable_snapshot_ready resources s :
  sub_allocator_round_trip storable ->
  reachable s ->
  mControlOps (globals s) <> 0 ->
  ConsumerInterface.globalPreLoad (mConsumerInterface (globals s)) = true ->
  (forall p, Z.of_nat (length (pool_get p (globals s))) < 2 ^ 64) ->
  Forall (resource_supplied resources) (all_blocks (globals s)) ->
  snapshot_ready storable resources (globals s).
Proof.
  intros Hlaw Hr Hops Hpre Hlen Hres.
  unfold snapshot_ready. split; [exact Hops|]. split; [exact Hpre|].
  split; [exact Hblock|].
  split; [exact (Hlen RingPool)|]. split; [exact (Hlen BufferPool)|].
  split; [exact (Hlen CombinedPool)|].
  split; [|exact Hres].
  apply pools_ok_block_ok, reachable_pools_ok; assumption.
Qed.

End Reachability.

(** ** The snapshot round trip from reachable states *)

Section ReachableRoundTrip.
Context {SA W : Type} `{SubAllocator SA} `{Platform} `{Host W}.

(** C1: take any reachable state of the pools on which [initialize] and
    [setConsumer] have run, with pool sizes that fit the 64-bit counts of
    the stream and load resources that name the external memory of every
    dedicated block in use; the sub-allocator reads back with [load] what
    its [save] wrote, and the host returns values of the C++ types.  Then
    [Globals::save] succeeds, and after [clear], [Globals::load] on the
    saved bytes succeeds, consumes exactly those bytes, and yields pools
    of the same lengths in which every block that was in use has the same
    bytes (the same owned bytes, or the same external memory), physical
    offset, dedicated context handle and hostmem id.  A context whose
    members are within their C++ ranges is saved by [save], and [load] on
    those bytes yields a context with the same negotiated version, exiting
    flag and saved ring configuration. *)
Theorem snapshot_round_trip (storable : SA -> Prop) (resources : LoadResources)
    (s : Sys SA W) (c c0 : AddressSpaceGraphicsContext.t)
    (rest rest' : Stream.t) :
  sub_allocator_round_trip storable ->
  SubAllocatorKeeps storable ->
  HostTyped ->
  is_u64 ADDRESS_SPACE_GRAPHICS_BLOCK_SIZE ->
  reachable s ->
  mControlOps (globals s) <> 0 ->
  ConsumerInterface.globalPreLoad (mConsumerInterface (globals s)) = true ->
  (forall p, Z.of_nat (length (pool_get p (globals s))) < 2 ^ 64) ->
  Forall (resource_supplied resources) (all_blocks (globals s)) ->
  context_storable c ->
  can_load_consumer c0 ->
  exists pools_bytes context_bytes w1 s1 s2,
    save (globals s) [] = Ok (tt, pools_bytes)
    /\ AddressSpaceGraphicsContext.save c ([], world s)
       = Ok (tt, (context_bytes, w1))
    /\ clear (mkSys w1 (globals s)) = Ok (tt, s1)
    /\ load resources (pools_bytes ++ rest, s1) = Ok (true, (rest, s2))
    /\ pools_restored (globals s) (globals s2)
    /\ exists c' st,
         AddressSpaceGraphicsContext.load c0 (context_bytes ++ rest', s2)
         = Ok (c', st)
         /\ context_restored c c'.
Proof.
  intros Hlaw Hkeeps Htyped Hblock Hr Hops Hpre Hlen Hres Hc Hc0.
  apply (round_trip_of_ready storable resources); try assumption.
  now apply reachable_snapshot_ready.
Qed.

End ReachableRoundTrip.

(** ** The page allocator and the small host meet the assumptions *)

Section SmallModelReachability.
Import Stream.

Lemma Z_of_byte_range b : 0 <= Z_of_byte b < 256.
Proof.
  unfold Z_of_byte. pose proof (Byte.to_N_bounded b). lia.
Qed.

Lemma be_value_range l acc :
  0 <= acc ->
  acc * 256 ^ Z.of_nat (length l) <= be_value acc l
  < (acc + 1) * 256 ^ Z.of_nat (length l).
Proof.
  revert acc. induction l as [|b l IH]; intros acc Hacc.
  - cbn. lia.
  - cbn [be_value length]. pose proof (Z_of_byte_range b) as Hb.
    specialize (IH (acc * 256 + Z_of_byte b) ltac:(lia)).
    rewrite Nat2Z.inj_succ, Z.pow_succ_r by lia.
    assert (Hp : 0 < 256 ^ Z.of_nat (length l)) by (apply Z.pow_pos_nonneg; lia).
    nia.
Qed.

Lemma getBe64_is_u64 input v rest :
  getBe64 input = Some (v, rest) -> is_u64 v.
Proof.
  unfold getBe64, getBe, read.
  destruct (8 <=? length input)%nat eqn:Hlen; [|discriminate].
  apply Nat.leb_le in Hlen. intros E. inversion E; subst.
  pose proof (be_value_range (firstn 8 input) 0 ltac:(lia)) as Hr.
  rewrite length_firstn, Nat.min_l in Hr by exact Hlen.
  unfold is_u64. change (256 ^ Z.of_nat 8) with (2 ^ 64) in Hr. lia.
Qed.

Lemma load_slots_storable n input slots rest :
  PageAllocator.load_slots n input = Some (slots, rest) ->
  length slots = n /\ Forall is_u64 slots.
Proof.
  revert input slots rest. induction n as [|k IH]; intros input slots rest;
    cbn [PageAllocator.load_slots].
  - intros E. inversion E; subst. split; [reflexivity | constructor].
  - destruct (getBe64 input) as [[count s1]|] eqn:Hc; [|discriminate].
    destruct (PageAllocator.load_slots k s1) as [[slots' s2]|] eqn:Hs;
      [|discriminate].
    intros E. inversion E; subst.
    apply IH in Hs as [Hlen Hall]. apply getBe64_is_u64 in Hc.
    split; [cbn; now rewrite Hlen | now constructor].
Qed.

Lemma page_allocator_keeps : SubAllocatorKeeps PageAllocator.storable.
Proof.
  split.
  - intros buffer size page Hsize. unfold PageAllocator.storable.
    cbn [sa_new page_allocator PageAllocator.create PageAllocator.slots].
    rewrite length_replicate. split.
    + unfold is_u64 in Hsize.
      assert (size / page <= size).
      { destruct (Z_lt_le_dec 0 page) as [Hp|Hp].
        - apply Z.div_le_upper_bound; [exact Hp | nia].
        - destruct (Z.eq_dec page 0) as [->|Hn].
          + rewrite Z.div_0_r. lia.
          + rewrite <- (Z.div_opp_opp size page Hn).
            assert (- size / - page <= 0); [|lia].
            apply Z.div_le_upper_bound; lia. }
      lia.
    + apply Forall_replicate. unfold is_u64. lia.
  - intros size sa [Hlen Hall]. unfold PageAllocator.storable.
    cbn [sa_alloc page_allocator]. unfold PageAllocator.alloc.
    destruct (size <=? 0); [now split|].
    destruct (PageAllocator.pages_for size (PageAllocator.pageSize sa) <=? 0)
      eqn:Hcount; [now split|].
    destruct (find _ _) as [first|] eqn:Hfind; [|now split].
    cbn [snd PageAllocator.slots]. rewrite length_insert. split; [exact Hlen|].
    apply find_some in Hfind as [Hin Hfits].
    apply in_map_iff in Hin as (k & <- & _).
    unfold PageAllocator.fits in Hfits.
    apply andb_prop in Hfits as [Hfit _].
    apply Z.leb_le in Hfit. apply Z.leb_gt in Hcount.
    apply Forall_insert; [exact Hall|]. unfold is_u64. lia.
  - intros ptr sa [Hlen Hall]. unfold PageAllocator.storable.
    cbn [sa_free page_allocator]. unfold PageAllocator.free.
    destruct (_ || _ || _); [now split|].
    destruct (PageAllocator.slots sa !! _) as [count|]; [|now split].
    destruct (0 <? count); [|now split].
    cbn [snd PageAllocator.slots]. rewrite length_insert. split; [exact Hlen|].
    apply Forall_insert; [exact Hall|]. unfold is_u64. lia.
  - intros input sa sa' rest.
    cbn [sa_load page_allocator]. unfold PageAllocator.load.
    destruct (getBe64 input) as [[n s1]|] eqn:Hn; [|discriminate].
    destruct (PageAllocator.load_slots (Z.to_nat n) s1) as [[slots s2]|] eqn:Hs;
      [|discriminate].
    intros E. inversion E; subst.
    apply load_slots_storable in Hs as [Hlen Hall].
    apply getBe64_is_u64 in Hn. unfold is_u64 in Hn.
    split; [|exact Hall]. cbn [PageAllocator.slots]. rewrite Hlen. lia.
Qed.

Lemma small_host_typed : @HostTyped SmallWorld.t small_host.
Proof.
  split.
  - intros size w. cbn. unfold wrap64.
    pose proof (Z.mod_pos_bound (SmallWorld.next_region w) (2 ^ 64) ltac:(lia)).
    unfold is_u64. lia.
  - intros ptr size w. cbn. apply repeat_length.
Qed.

Lemma small_block_size_u64 : is_u64 ADDRESS_SPACE_GRAPHICS_BLOCK_SIZE.
Proof. cbn. unfold is_u64. lia. Qed.

(** On the small model every reachable state has well-formed pools. *)
Lemma small_reachable_pools_ok (s : Sys PageAllocator.t SmallWorld.t) :
  reachable s -> pools_ok PageAllocator.storable (globals s).
Proof.
  apply (reachable_pools_ok PageAllocator.storable page_allocator_keeps
           small_host_typed small_block_size_u64).
  apply page_allocator_round_trip.
Qed.

Ltac run_reachable call :=
  match goal with
  | R : reachable ?s |- _ =>
      let r := eval vm_compute in (run_call call s) in
      match r with
      | Ok (tt, ?s') =>
          let R' := fresh "R" in
          assert (R' : reachable s')
            by (apply (reach_call s call s' R);
                [cbn; unfold is_u32, is_u64; try lia; exact I
                | vm_compute; reflexivity]);
          clear R
      end
  end.

(** The state with one plain and one virtio context is reached by the
    three allocation calls that the two constructors make. *)
Lemma two_context_sys_reachable : reachable two_context_sys.
Proof.
  assert (R : reachable small_sys) by (apply reach_start; reflexivity).
  run_reachable CallAllocRingStorage.
  run_reachable CallAllocBuffer.
  run_reachable (CallAllocRingAndBufferStorageDedicated 7 20000 16).
  apply (reach_world _ (world two_context_sys)) in R0.
  assert (E : two_context_sys = ltac:(let t := type of R0 in
                                       match t with reachable ?x => exact x end))
    by (vm_compute; reflexivity).
  rewrite E. exact R0.
Qed.

Lemma two_context_sys_supplied :
  Forall (resource_supplied sample_resources) (all_blocks (globals two_context_sys)).
Proof. now destruct two_context_sys_ready as (_ & _ & _ & _ & _ & _ & _ & Hres). Qed.

Lemma two_context_sys_sizes p :
  Z.of_nat (length (pool_get p (globals two_context_sys))) < 2 ^ 64.
Proof. destruct p; vm_compute; reflexivity. Qed.

Lemma snapshot_round_trip_witness :
  exists pools_bytes context_bytes w1 s1 s2,
    save (globals two_context_sys) [] = Ok (tt, pools_bytes)
    /\ AddressSpaceGraphicsContext.save sample_virtio_context
         ([], world two_context_sys)
       = Ok (tt, (context_bytes, w1))
    /\ clear (mkSys w1 (globals two_context_sys)) = Ok (tt, s1)
    /\ load sample_resources (pools_bytes ++ [], s1) = Ok (true, ([], s2))
    /\ pools_restored (globals two_context_sys) (globals s2)
    /\ exists c' st,
         AddressSpaceGraphicsContext.load snapshot_target
           (context_bytes ++ [], s2)
         = Ok (c', st)
         /\ context_restored sample_virtio_context c'.
Proof.
  refine (snapshot_round_trip PageAllocator.storable sample_resources
            two_context_sys sample_virtio_context snapshot_target [] []
            page_allocator_round_trip page_allocator_keeps small_host_typed
            small_block_size_u64 two_context_sys_reachable _ _
            two_context_sys_sizes two_context_sys_supplied
            sample_virtio_context_storable snapshot_target_can_load).
  - vm_compute. discriminate.
  - vm_compute. reflexivity.
Defined.

End SmallModelReachability.

(* ===================================================================== *)
(** * Further properties of the code *)
(* ===================================================================== *)

(** ** [onUnavailableRead]: the counter and the snapshot commands *)

Section UnavailableReadMore.
Import AddressSpaceGraphicsContext.

Lemma sleep_loop_frame c q done :
  let c' := after (sleep_loop c q done) in
  mUnavailableReadCount c' = mUnavailableReadCount c
  /\ mExiting c' = mExiting c
  /\ mVersion c' = mVersion c
  /\ mCurrentConsumer c' = mCurrentConsumer c
  /\ mSavedConfig c' = mSavedConfig c
  /\ mRingAllocation c' = mRingAllocation c
  /\ mBufferAllocation c' = mBufferAllocation c
  /\ mCombinedAllocation c' = mCombinedAllocation c
  /\ ring_config (mHostContext c') = ring_config (mHostContext c).
Proof.
  revert c done. induction q as [|cmd rest IH]; intros c done.
  - cbn. repeat split.
  - destruct cmd; cbn [sleep_loop]; try (cbn; repeat split; reflexivity).
    match goal with
    | |- context [sleep_loop ?c1 rest ?d1] =>
        destruct (IH c1 d1) as (E1 & E2 & E3 & E4 & E5 & E6 & E7 & E8 & E9)
    end.
    cbn zeta. rewrite E1, E2, E3, E4, E5, E6, E7, E8, E9.
    cbn. repeat split; reflexivity.
Qed.

(** X1: whatever the context and the queued messages, after a call of
    [onUnavailableRead] the consecutive-unavailable-read counter is below
    the threshold 8 (and not negative); the call changes the counter, the
    shared host state and the message queue only: the exiting flag, the
    negotiated version, the consumer handle, the saved configuration, the
    three Allocations and the live ring configuration are as before. *)
Theorem onUnavailableRead_counter_below_threshold c :
  let c' := after (onUnavailableRead c) in
  0 <= mUnavailableReadCount c' < kMaxUnavailableReads
  /\ mExiting c' = mExiting c
  /\ mVersion c' = mVersion c
  /\ mCurrentConsumer c' = mCurrentConsumer c
  /\ mSavedConfig c' = mSavedConfig c
  /\ mRingAllocation c' = mRingAllocation c
  /\ mBufferAllocation c' = mBufferAllocation c
  /\ mCombinedAllocation c' = mCombinedAllocation c
  /\ ring_config (mHostContext c') = ring_config (mHostContext c).
Proof.
  cbn zeta. rewrite onUnavailableRead_cases.
  destruct (reaches_sleep c) eqn:Hr.
  - destruct (sleep_loop_frame (set_mUnavailableReadCount 0 c)
                (mConsumerMessages c) [EvYield])
      as (Hn & He & Hv & Hc & Hs & Ha & Hb & Hd & Hg).
    rewrite Hn, He, Hv, Hc, Hs, Ha, Hb, Hd, Hg.
    cbn. unfold kMaxUnavailableReads. repeat split; lia.
  - unfold reaches_sleep in Hr. apply orb_false_elim in Hr as [_ Hr].
    apply Z.leb_gt in Hr. cbn.
    pose proof (Z.mod_pos_bound (mUnavailableReadCount c + 1) (2 ^ 32)
                  ltac:(lia)) as Hm.
    unfold wrap32 in *. repeat split; lia.
Qed.

(** X2: a call that waits and is handed [PausePreSnapshot] (after any
    number of [Sleep] re-arms) returns -2, and one handed
    [ResumePostSnapshot] returns -3; in both cases the host state stays
    NEED_NOTIFY, the counter is 0 and the commands queued behind are left
    in the queue.  A command outside the enumeration ends the call in the
    abort of the [default] case. *)
Theorem onUnavailableRead_snapshot_commands c k rest :
  reaches_sleep c = true ->
  (mConsumerMessages c = repeat Sleep k ++ PausePreSnapshot :: rest ->
   let call := onUnavailableRead c in
   ending call = Returned (-2)
   /\ host_state (mHostContext (after call)) = ASG_HOST_STATE_NEED_NOTIFY
   /\ mUnavailableReadCount (after call) = 0
   /\ mConsumerMessages (after call) = rest)
  /\ (mConsumerMessages c = repeat Sleep k ++ ResumePostSnapshot :: rest ->
      let call := onUnavailableRead c in
      ending call = Returned (-3)
      /\ host_state (mHostContext (after call)) = ASG_HOST_STATE_NEED_NOTIFY
      /\ mUnavailableReadCount (after call) = 0
      /\ mConsumerMessages (after call) = rest)
  /\ (forall v,
        mConsumerMessages c = repeat Sleep k ++ Command_unlisted v :: rest ->
        ending (onUnavailableRead c) = Aborted (UnknownConsumerCommand v)).
Proof.
  intros Hr.
  split; [|split]; [intros Hq | intros Hq | intros v Hq]; cbn zeta;
    rewrite onUnavailableRead_cases, Hr, Hq, sleep_loop_after_sleeps;
    destruct c as [ra ba ca [rs cb cbs rc hs] v0 e n vi sc ci cc cm];
    cbn; repeat split; reflexivity.
Qed.

Lemma onUnavailableRead_snapshot_commands_witness :
  reaches_sleep eighth_read_context = true
  /\ ending (onUnavailableRead
               (set_mConsumerMessages [Sleep; PausePreSnapshot; Wakeup]
                  eighth_read_context))
     = Returned (-2).
Proof.
  split; [reflexivity|].
  exact (proj1 (proj1 (onUnavailableRead_snapshot_commands
                         (set_mConsumerMessages [Sleep; PausePreSnapshot; Wakeup]
                            eighth_read_context)
                         1 [Wakeup] eq_refl) eq_refl)).
Defined.

End UnavailableReadMore.

(** ** [perform]: the pings other than SET_VERSION *)

Section PerformMore.
Context {W : Type} `{Platform} `{Host W}.
Import AddressSpaceGraphicsContext.


End PerformMore.

Section PerformMoreRuns.
Import AddressSpaceGraphicsContext.


End PerformMoreRuns.

(** ** [newAllocation]: where the Allocation comes from, and what is left alone *)

Ltac case_step :=
  match goal with
  | |- context [if ?b then _ else _] => destruct b eqn:?
  | |- context [match ?e with Some _ => _ | None => _ end] => destruct e eqn:?
  | |- context [let '(_, _) := ?e in _] => destruct e eqn:?
  end.

Section PoolsMore.
Context {SA W : Type} `{SubAllocator SA} `{Platform} `{Host W}.

Implicit Types (block : Block.t SA) (s : Sys SA W) (p : Pool).

Lemma fillBlockLocked_in_use block create s filled s' :
  fillBlockLocked block create s = Ok (filled, s') ->
  Block.isEmpty filled = false.
Proof.
  unfold fillBlockLocked, bind, host_call, host_get, control_op, die, ret.
  repeat (case_step; cbn); intros E; inversion E; subst; reflexivity.
Qed.

Lemma pool_of_with_block p index block s :
  pool_get p (globals (with_block p index block s))
  = <[index := block]> (pool_get p (globals s)).
Proof. unfold with_block. cbn [globals]. apply pool_get_pool_set_same. Qed.

Lemma others_kept_with_block p index block s :
  others_kept p s (with_block p index block s).
Proof.
  intros q Hq. unfold with_block. cbn [globals].
  now apply pool_get_pool_set_other.
Qed.

(** One more slot in front of a scan that starts at [S i]. *)
Lemma scan_prepend create p n i (before mid after : list (Block.t SA)) block
    found :
  (i < length before)%nat ->
  mid = <[i := block]> before ->
  Block.isEmpty block = false ->
  length after = length mid
  /\ (forall j, (j < S i)%nat -> after !! j = mid !! j)
  /\ match found with
     | Some res =>
         exists index,
           (S i <= index < S i + n)%nat
           /\ allocation_in_block create res after index
           /\ (forall j, (S i <= j <= index)%nat -> in_use after j)
           /\ (forall j, (index < j)%nat -> after !! j = mid !! j)
     | None =>
         forall j, (S i <= j < S i + n)%nat -> (j < length mid)%nat ->
                   in_use after j
     end ->
  length after = length before
  /\ (forall j, (j < i)%nat -> after !! j = before !! j)
  /\ match found with
     | Some res =>
         exists index,
           (i <= index < i + S n)%nat
           /\ allocation_in_block create res after index
           /\ (forall j, (i <= j <= index)%nat -> in_use after j)
           /\ (forall j, (index < j)%nat -> after !! j = before !! j)
     | None =>
         forall j, (i <= j < i + S n)%nat -> (j < length before)%nat ->
                   in_use after j
     end.
Proof.
  intros Hi -> He (Hlen & Hlow & Hfound).
  rewrite length_insert in Hlen.
  assert (Hat : in_use after i).
  { exists block. split; [|exact He].
    rewrite Hlow by lia. now apply list_lookup_insert_eq. }
  split; [exact Hlen|]. split.
  { intros j Hj. rewrite Hlow by lia. apply list_lookup_insert_ne. lia. }
  destruct found as [res|].
  - destruct Hfound as (index & Hrange & Hin & Huse & Hhigh).
    exists index. split; [lia|]. split; [exact Hin|]. split.
    + intros j Hj. destruct (Nat.eq_dec j i) as [->|Hne]; [exact Hat|].
      apply Huse. lia.
    + intros j Hj. rewrite Hhigh by exact Hj. apply list_lookup_insert_ne. lia.
  - intros j Hj Hjl. destruct (Nat.eq_dec j i) as [->|Hne]; [exact Hat|].
    apply Hfound; [lia|]. now rewrite length_insert.
Qed.

Lemma newAllocation_scan_spec create p n i s found s' :
  newAllocation_scan create p n i s = Ok (found, s') ->
  others_kept p s s'
  /\ length (pool_get p (globals s')) = length (pool_get p (globals s))
  /\ (forall j, (j < i)%nat ->
               pool_get p (globals s') !! j = pool_get p (globals s) !! j)
  /\ match found with
     | Some res =>
         exists index,
           (i <= index < i + n)%nat
           /\ allocation_in_block create res (pool_get p (globals s')) index
           /\ (forall j, (i <= j <= index)%nat ->
                         in_use (pool_get p (globals s')) j)
           /\ (forall j, (index < j)%nat ->
                         pool_get p (globals s') !! j
                         = pool_get p (globals s) !! j)
     | None =>
         forall j, (i <= j < i + n)%nat ->
                   (j < length (pool_get p (globals s)))%nat ->
                   in_use (pool_get p (globals s')) j
     end.
Proof.
  revert i s. induction n as [|n IH]; intros i s; cbn [newAllocation_scan].
  - intros E. inversion E; subst.
    split; [intros q _; reflexivity|]. split; [reflexivity|].
    split; [reflexivity|]. intros j Hj. lia.
  - unfold get_pool at 1, gets at 1, bind at 1.
    destruct (pool_get p (globals s) !! i) as [block0|] eqn:Hlk.
    2:{ intros E. inversion E; subst.
        split; [intros q _; reflexivity|]. split; [reflexivity|].
        split; [reflexivity|]. intros j Hj Hjl.
        apply lookup_ge_None in Hlk. lia. }
    pose proof (lookup_lt_Some _ _ _ Hlk) as Hi.
    intros E. apply bind_Ok_inv in E as (block & s1 & E1 & E).
    assert (Hstep : others_kept p s s1
                    /\ pool_get p (globals s1)
                       = <[i := block]> (pool_get p (globals s))
                    /\ Block.isEmpty block = false).
    { destruct (Block.isEmpty block0) eqn:Hempty.
      - apply bind_Ok_inv in E1 as (filled & s0 & F & E1).
        pose proof (fillBlockLocked_globals _ _ _ _ _ F) as Hg.
        apply fillBlockLocked_in_use in F.
        apply bind_Ok_inv in E1 as (? & s2 & E1 & E2).
        rewrite set_block_run in E1. inversion E1; subst.
        inversion E2; subst.
        split; [|split; [|exact F]].
        + intros q Hq. rewrite others_kept_with_block by exact Hq.
          now rewrite Hg.
        + now rewrite pool_of_with_block, Hg.
      - inversion E1; subst.
        split; [intros q _; reflexivity|].
        split; [|exact Hempty]. symmetry. now apply list_insert_id. }
    destruct Hstep as (K1 & K2 & K3).
    destruct (bool_decide (Block.dedicatedContextHandle block
                           = AllocationCreateInfo.dedicatedContextHandle create))
      eqn:Hhandle; cbn [negb] in E.
    2:{ apply IH in E as (J1 & J2 & J3 & J4).
        split; [intros q Hq; rewrite (J1 q Hq); exact (K1 q Hq)|].
        apply (scan_prepend create p n i _ (pool_get p (globals s1)) _ block);
          [exact Hi | exact K2 | exact K3 |].
        split; [exact J2|]. split; [exact J3 | exact J4]. }
    apply bool_decide_eq_true in Hhandle.
    destruct (Block.subAlloc block) as [sa|] eqn:Hsa; [|discriminate E].
    destruct (sa_alloc (AllocationCreateInfo.size create) sa) as [buf sa'] eqn:Ha.
    apply bind_Ok_inv in E as (? & s2 & E2 & E).
    rewrite set_block_run in E2. inversion E2; subst. clear E2.
    set (block' := Block.with_subAlloc (Some sa') block) in *.
    assert (L1 : others_kept p s (with_block p i block' s1)).
    { intros q Hq. rewrite others_kept_with_block by exact Hq. exact (K1 q Hq). }
    assert (L2 : pool_get p (globals (with_block p i block' s1))
                 = <[i := block']> (pool_get p (globals s))).
    { now rewrite pool_of_with_block, K2, list_insert_insert_eq. }
    destruct (negb (buf =? 0)).
    + inversion E; subst. split; [exact L1|]. rewrite L2, length_insert.
      split; [reflexivity|]. split.
      { intros j Hj. apply list_lookup_insert_ne. lia. }
      exists i. split; [lia|]. split.
      { exists block', sa'. cbn.
        split; [reflexivity|]. split; [now apply list_lookup_insert_eq|].
        split; [exact K3|]. split; [exact Hhandle|]. split; reflexivity. }
      split.
      { intros j Hj. assert (j = i) as -> by lia.
        exists block'. split; [now apply list_lookup_insert_eq | exact K3]. }
      intros j Hj. apply list_lookup_insert_ne. lia.
    + apply IH in E as (J1 & J2 & J3 & J4).
      split; [intros q Hq; rewrite (J1 q Hq); exact (L1 q Hq)|].
      apply (scan_prepend create p n i _
               (pool_get p (globals (with_block p i block' s1))) _ block');
        [exact Hi | exact L2 | exact K3 |].
      split; [exact J2|]. split; [exact J3 | exact J4].
Qed.

Lemma fillBlockLocked_default_handle create s filled s' :
  fillBlockLocked Block.default create s = Ok (filled, s') ->
  Block.dedicatedContextHandle filled
  = AllocationCreateInfo.dedicatedContextHandle create.
Proof.
  unfold fillBlockLocked.
  destruct (AllocationCreateInfo.dedicatedContextHandle create) as [h|] eqn:Hh.
  - unfold bind, die, ret. repeat (case_step; cbn); intros E; inversion E;
      subst; reflexivity.
  - unfold bind, host_call, host_get, control_op, die, ret.
    repeat (case_step; cbn); intros E; inversion E; subst; reflexivity.
Qed.

Lemma newAllocation_spec create p s res s' :
  newAllocation create p s = Ok (res, s') ->
  exists index,
    allocation_in_block create res (pool_get p (globals s')) index
    /\ (forall j, (j <= index)%nat -> in_use (pool_get p (globals s')) j)
    /\ (forall j, (index < j)%nat ->
                  pool_get p (globals s') !! j = pool_get p (globals s) !! j)
    /\ length (pool_get p (globals s'))
       = Nat.max (length (pool_get p (globals s))) (S index)
    /\ (index <= length (pool_get p (globals s)))%nat
    /\ others_kept p s s'.
Proof.
  unfold newAllocation.
  destruct (AllocationCreateInfo.size create >? ADDRESS_SPACE_GRAPHICS_BLOCK_SIZE);
    [discriminate|].
  intros E. apply bind_Ok_inv in E as (blocks & s1 & E1 & E).
  inversion E1; subst. clear E1.
  apply bind_Ok_inv in E as (found & s2 & E2 & E).
  apply newAllocation_scan_spec in E2 as (K1 & K2 & K3 & K4).
  destruct found as [res0|].
  - inversion E; subst.
    destruct K4 as (index & Hrange & Hin & Huse & Hhigh).
    exists index. split; [exact Hin|]. split; [intros j Hj; apply Huse; lia|].
    split; [exact Hhigh|]. split; [lia|]. split; [lia | exact K1].
  - apply bind_Ok_inv in E as (blocks' & s3 & E3 & E).
    inversion E3; subst. clear E3.
    apply bind_Ok_inv in E as (newBlock & s4 & E4 & E).
    pose proof (fillBlockLocked_globals _ _ _ _ _ E4) as Hg.
    pose proof (fillBlockLocked_in_use _ _ _ _ _ E4) as Hfilled.
    pose proof (fillBlockLocked_default_handle _ _ _ _ E4) as Hhandle.
    destruct (Block.subAlloc newBlock) as [sa|] eqn:Hsa; [|discriminate E].
    destruct (sa_alloc (AllocationCreateInfo.size create) sa) as [buf sa'] eqn:Ha.
    destruct (buf =? 0); [discriminate E|].
    apply bind_Ok_inv in E as (? & s5 & E5 & E).
    inversion E5; subst. inversion E; subst. cbn [globals].
    rewrite pool_get_pool_set_same.
    set (old := pool_get p (globals s3)) in *.
    set (newBlock' := Block.with_subAlloc (Some sa') newBlock).
    exists (length old). split.
    { exists newBlock', sa'. cbn.
      split; [reflexivity|]. split; [apply list_lookup_middle; reflexivity|].
      split; [exact Hfilled|]. split; [exact Hhandle|]. split; reflexivity. }
    split.
    { intros j Hj. destruct (Nat.eq_dec j (length old)) as [->|Hne].
      - exists newBlock'. split; [apply list_lookup_middle; reflexivity|].
        exact Hfilled.
      - destruct (K4 j) as (b & Hb & He); [lia | lia |].
        exists b. split; [|exact He]. rewrite lookup_app_l by lia. exact Hb. }
    split.
    { intros j Hj. rewrite (proj2 (lookup_ge_None _ _)).
      - symmetry. apply lookup_ge_None. lia.
      - rewrite length_app. cbn. lia. }
    split.
    { rewrite length_app. cbn. lia. }
    split; [lia|].
    intros q Hq. cbn [globals].
    rewrite pool_get_pool_set_other by exact Hq. rewrite Hg. exact (K1 q Hq).
Qed.

(** X4: an Allocation that [newAllocation] returns has a buffer that is
    not null, the requested size, the request's dedicated handle and
    hostmem id, and is no view; its [blockIndex] names a block of the pool
    that is in use, is dedicated to the same handle, and whose physical
    offset plus the sub-allocator's offset of the buffer (modulo 2^64) is
    the Allocation's [offsetIntoPhys].  Every slot up to that index is in
    use afterwards: the scan fills the empty slots it passes. *)
Theorem newAllocation_names_block create p s res s' :
  newAllocation create p s = Ok (res, s') ->
  allocation_for create res
  /\ exists index,
       allocation_in_block create res (pool_get p (globals s')) index
       /\ forall j, (j <= index)%nat -> in_use (pool_get p (globals s')) j.
Proof.
  intros E. split; [exact (proj2 (newAllocation_Ok _ _ _ _ _ E))|].
  apply newAllocation_spec in E as (index & Hin & Huse & _).
  exists index. split; assumption.
Qed.

(** X5: [newAllocation] leaves alone everything behind the block it took
    the Allocation from: the slots after [blockIndex] are as they were, the
    two other pools are as they were, and so are the settings of
    [Globals].  The pool never shrinks and grows by at most the one block
    that is appended when no existing block could serve the request. *)
Theorem newAllocation_frame create p s res s' :
  newAllocation create p s = Ok (res, s') ->
  let before := pool_get p (globals s) in
  let after := pool_get p (globals s') in
  (forall j, (Z.to_nat (Allocation.blockIndex res) < j)%nat ->
             after !! j = before !! j)
  /\ (length before <= length after <= S (length before))%nat
  /\ (Allocation.blockIndex res < Z.of_nat (length after))
  /\ others_kept p s s'
  /\ same_settings (globals s) (globals s').
Proof.
  intros E. cbn zeta.
  pose proof (proj1 (newAllocation_Ok _ _ _ _ _ E)) as Hset.
  apply newAllocation_spec
    in E as (index & Hin & _ & Hhigh & Hlen & Hle & Hothers).
  destruct Hin as (block & sa & Hidx & Hlk & _).
  rewrite Hidx, Nat2Z.id.
  pose proof (lookup_lt_Some _ _ _ Hlk) as Hlt.
  split; [exact Hhigh|]. split; [lia|]. split; [lia|].
  split; [exact Hothers | exact Hset].
Qed.

Section Preservation.
Variables (Q : Block.t SA -> Prop) (Pw : W -> Prop)
  (create : AllocationCreateInfo.t).
Hypothesis Q_with_subAlloc : forall block sa, Q block -> Q (Block.with_subAlloc sa block).
Hypothesis Q_filled :
  forall block s filled s',
    fillBlockLocked block create s = Ok (filled, s') -> Q filled.
Hypothesis Pw_filled :
  forall block s filled s',
    fillBlockLocked block create s = Ok (filled, s') ->
    Pw (world s) -> Pw (world s').

Lemma newAllocation_scan_preserves p n i s found s' :
  Forall Q (pool_get p (globals s)) -> Pw (world s) ->
  newAllocation_scan create p n i s = Ok (found, s') ->
  Forall Q (pool_get p (globals s')) /\ Pw (world s').
Proof.
  revert i s. induction n as [|n IH]; intros i s Hall Hw;
    cbn [newAllocation_scan].
  - intros E. inversion E; subst. split; assumption.
  - unfold get_pool at 1, gets at 1, bind at 1.
    destruct (pool_get p (globals s) !! i) as [block0|] eqn:Hlk.
    2:{ intros E. inversion E; subst. split; assumption. }
    pose proof (Forall_lookup_1 _ _ _ _ Hall Hlk) as Hb0.
    intros E. apply bind_Ok_inv in E as (block & s1 & E1 & E).
    assert (Hstep : Forall Q (pool_get p (globals s1)) /\ Pw (world s1)
                    /\ Q block).
    { destruct (Block.isEmpty block0).
      - apply bind_Ok_inv in E1 as (filled & s0 & F & E1).
        pose proof (fillBlockLocked_globals _ _ _ _ _ F) as Hg.
        pose proof (Q_filled _ _ _ _ F) as Hq.
        pose proof (Pw_filled _ _ _ _ F Hw) as Hw0.
        apply bind_Ok_inv in E1 as (? & s2 & E1 & E2).
        rewrite set_block_run in E1. inversion E1; subst.
        inversion E2; subst. rewrite pool_of_with_block, Hg.
        split; [now apply Forall_insert|]. split; assumption.
      - inversion E1; subst. repeat split; assumption. }
    destruct Hstep as (K1 & K2 & K3).
    destruct (negb (bool_decide _)); [now apply IH in E|].
    destruct (Block.subAlloc block) as [sa|]; [|discriminate E].
    destruct (sa_alloc (AllocationCreateInfo.size create) sa) as [buf sa'].
    apply bind_Ok_inv in E as (? & s2 & E2 & E).
    rewrite set_block_run in E2. inversion E2; subst. clear E2.
    assert (L : Forall Q (pool_get p (globals (with_block p i
                   (Block.with_subAlloc (Some sa') block) s1)))).
    { rewrite pool_of_with_block. apply Forall_insert; [exact K1|].
      now apply Q_with_subAlloc. }
    destruct (negb (buf =? 0)).
    + inversion E; subst. split; [exact L | exact K2].
    + apply IH in E; [exact E | exact L | exact K2].
Qed.

Lemma newAllocation_preserves p s res s' :
  Forall Q (pool_get p (globals s)) -> Pw (world s) ->
  newAllocation create p s = Ok (res, s') ->
  Forall Q (pool_get p (globals s')) /\ Pw (world s').
Proof.
  intros Hall Hw. unfold newAllocation.
  destruct (AllocationCreateInfo.size create >? ADDRESS_SPACE_GRAPHICS_BLOCK_SIZE);
    [discriminate|].
  intros E. apply bind_Ok_inv in E as (blocks & s1 & E1 & E).
  inversion E1; subst. clear E1.
  apply bind_Ok_inv in E as (found & s2 & E2 & E).
  apply newAllocation_scan_preserves in E2 as [K1 K2]; [|exact Hall|exact Hw].
  destruct found as [res0|].
  - inversion E; subst. split; assumption.
  - apply bind_Ok_inv in E as (blocks' & s3 & E3 & E).
    inversion E3; subst. clear E3.
    apply bind_Ok_inv in E as (newBlock & s4 & E4 & E).
    pose proof (fillBlockLocked_globals _ _ _ _ _ E4) as Hg.
    pose proof (Q_filled _ _ _ _ E4) as Hq.
    pose proof (Pw_filled _ _ _ _ E4 K2) as Hw4.
    destruct (Block.subAlloc newBlock) as [sa|]; [|discriminate E].
    destruct (sa_alloc (AllocationCreateInfo.size create) sa) as [buf sa'].
    destruct (buf =? 0); [discriminate E|].
    apply bind_Ok_inv in E as (? & s5 & E5 & E).
    inversion E5; subst. inversion E; subst. cbn [globals world].
    rewrite pool_get_pool_set_same. split; [|exact Hw4].
    apply Forall_app. split; [exact K1|].
    constructor; [|constructor]. now apply Q_with_subAlloc.
Qed.

End Preservation.

(** ** [deleteAllocation]: what a free leaves alone *)

Lemma pool_set_pool_set p (bs bs' : list (Block.t SA)) (g : Globals SA) :
  pool_set p bs (pool_set p bs' g) = pool_set p bs g.
Proof. destruct p; reflexivity. Qed.

Lemma globals_with_block_twice p index block block' s s1 :
  globals s1 = globals (with_block p index block' s) ->
  globals (with_block p index block s1) = globals (with_block p index block s).
Proof.
  intros E. unfold with_block in *. cbn [globals] in *. rewrite E.
  now rewrite pool_get_pool_set_same, list_insert_insert_eq, pool_set_pool_set.
Qed.

Lemma deleteAllocation_slot (alloc : Allocation.t) p s s' :
  Allocation.buffer alloc <> 0 ->
  deleteAllocation alloc p s = Ok (tt, s') ->
  let index := Z.to_nat (Allocation.blockIndex alloc) in
  Allocation.blockIndex alloc < Z.of_nat (length (pool_get p (globals s)))
  /\ exists block block',
       pool_get p (globals s) !! index = Some block
       /\ globals s' = globals (with_block p index block' s)
       /\ (Block.external block = true ->
           block' = destroyed block /\ world s' = world s)
       /\ (Block.external block = false ->
           exists sa,
             Block.subAlloc block = Some sa
             /\ fst (sa_free (Allocation.buffer alloc) sa) = true
             /\ let sa' := snd (sa_free (Allocation.buffer alloc) sa) in
                let freed := Block.with_subAlloc (Some sa') block in
                block' = if sa_empty sa' then destroyed freed else freed).
Proof.
  intros Hbuf. cbn zeta. unfold deleteAllocation.
  destruct (Z.eqb_spec (Allocation.buffer alloc) 0) as [|_]; [contradiction|].
  unfold get_pool at 1, gets at 1, bind at 1.
  destruct (Z.leb_spec (Z.of_nat (length (pool_get p (globals s))))
              (Allocation.blockIndex alloc)) as [|Hlt]; [discriminate|].
  set (index := Z.to_nat (Allocation.blockIndex alloc)).
  destruct (pool_get p (globals s) !! index) as [block|] eqn:Hlk;
    [|discriminate].
  intros E. split; [exact Hlt|]. revert E.
  destruct (Block.external block) eqn:Hext.
  - intros E. rewrite (bind_Ok _ _ _ _ _ (destroyBlockLocked_external block s Hext))
      in E.
    rewrite set_block_run in E. inversion E; subst.
    exists block, (destroyed block). split; [reflexivity|].
    split; [reflexivity|].
    split; [intros _; split; reflexivity | intros Hx; congruence].
  - destruct (Block.subAlloc block) as [sa|] eqn:Hsa; [|discriminate].
    destruct (sa_free (Allocation.buffer alloc) sa) as [freed sa'] eqn:Hfree.
    intros E. apply bind_Ok_inv in E as (? & s1 & E1 & E).
    rewrite set_block_run in E1. inversion E1; subst. clear E1.
    destruct freed; cbn [negb] in E; [|discriminate E].
    apply bind_Ok_inv in E as (should & s2 & E2 & E).
    rewrite (shouldDestryBlockLocked_run _ sa') in E2 by reflexivity.
    inversion E2; subst. clear E2.
    set (b1 := Block.with_subAlloc (Some sa') block) in *.
    exists block, (if sa_empty sa' then destroyed b1 else b1).
    split; [reflexivity|]. split.
    + destruct (sa_empty sa').
      * apply bind_Ok_inv in E as (gone & s3 & E3 & E).
        apply destroyBlockLocked_keeps in E3 as [-> Hg].
        rewrite set_block_run in E. inversion E; subst.
        now apply (globals_with_block_twice p index _ b1).
      * now inversion E; subst.
    + split; [intros Hx; congruence|]. intros _. exists sa.
      split; [exact Hsa|]. rewrite Hfree. cbn [fst snd]. split; reflexivity.
Qed.

(** X6: a [deleteAllocation] that returns changes at most the block at
    [alloc.blockIndex] of the pool it is called on: the pool keeps its
    length (blocks are never removed, only emptied), every other slot is as
    it was, the two other pools are as they were, and so are the settings
    of [Globals]. *)
Theorem deleteAllocation_frame (alloc : Allocation.t) p s s' :
  deleteAllocation alloc p s = Ok (tt, s') ->
  let before := pool_get p (globals s) in
  let after := pool_get p (globals s') in
  length after = length before
  /\ (forall j, j <> Z.to_nat (Allocation.blockIndex alloc) ->
                after !! j = before !! j)
  /\ others_kept p s s'
  /\ same_settings (globals s) (globals s').
Proof.
  intros E. cbn zeta.
  destruct (Z.eq_dec (Allocation.buffer alloc) 0) as [Hz|Hnz].
  - unfold deleteAllocation in E. rewrite Hz in E. inversion E; subst.
    split; [reflexivity|]. split; [reflexivity|].
    split; [apply others_kept_refl | apply same_settings_refl].
  - destruct (deleteAllocation_slot alloc p s s' Hnz E)
      as (_ & block & block' & _ & Hg & _).
    rewrite Hg, pool_of_with_block.
    split; [apply length_insert|]. split.
    + intros j Hj. apply list_lookup_insert_ne. congruence.
    + split.
      * intros q Hq. rewrite Hg. now apply others_kept_with_block.
      * unfold with_block. cbn [globals]. apply same_settings_pool_set.
Qed.

(** X7: an Allocation that [newAllocation] has just returned can be
    handed back: [deleteAllocation] on it finds the block (it never ends in
    the abort for a block index out of range) and finds a sub-allocator in
    it (it never goes through a null [subAlloc]). *)
Theorem deleteAllocation_finds_new_allocation create p s res s' :
  newAllocation create p s = Ok (res, s') ->
  deleteAllocation res p s' <> Die BlockIndexNotFound
  /\ deleteAllocation res p s' <> Undef NullSubAllocator.
Proof.
  intros E.
  pose proof (proj2 (newAllocation_Ok _ _ _ _ _ E)) as (Hbuf & _).
  apply newAllocation_spec in E as (index & Hin & _).
  destruct Hin as (block & sa & Hidx & Hlk & _ & _ & Hsa & _).
  assert (Hcases : forall out,
             deleteAllocation res p s' = out ->
             out = Die FailedToFree \/ out = Undef NullControlOps
             \/ exists s'', out = Ok (tt, s'')).
  { intros out Hout.
    rewrite (deleteAllocation_at res p s' index block Hbuf Hidx Hlk) in Hout.
    destruct (Block.external block) eqn:Hext.
    - rewrite (bind_Ok _ _ _ _ _ (destroyBlockLocked_external block s' Hext))
        in Hout.
      rewrite set_block_run in Hout. subst out. eauto.
    - rewrite Hsa in Hout.
      destruct (sa_free (Allocation.buffer res) sa) as [freed sa'].
      rewrite (bind_Ok _ _ _ _ _ (set_block_run _ _ _ _)) in Hout.
      destruct freed; cbn [negb] in Hout; [|subst out; now left].
      rewrite (bind_Ok _ _ _ _ _
                 (shouldDestryBlockLocked_run
                    (Block.with_subAlloc (Some sa') block) sa' _ eq_refl))
        in Hout.
      destruct (sa_empty sa'); [|subst out; unfold ret; eauto].
      unfold bind in Hout. rewrite destroyBlockLocked_owned in Hout by exact Hext.
      destruct (mControlOps (globals (with_block p index _ s')) =? 0);
        [subst out; right; left; reflexivity|].
      rewrite set_block_run in Hout. subst out. eauto. }
  destruct (Hcases _ eq_refl) as [-> | [-> | [s'' ->]]]; split; discriminate.
Qed.

Lemma fillBlockLocked_dedicated_inv block create s filled s' :
  AllocationCreateInfo.dedicatedContextHandle create <> None ->
  fillBlockLocked block create s = Ok (filled, s') ->
  s' = s /\ Block.external filled = true /\ Block.isEmpty filled = false
  /\ AllocationCreateInfo.externalAddr create <> 0.
Proof.
  intros Hh. unfold fillBlockLocked.
  destruct (AllocationCreateInfo.dedicatedContextHandle create); [|contradiction].
  destruct (negb (AllocationCreateInfo.virtioGpu create)); [discriminate|].
  destruct (Z.eqb_spec (AllocationCreateInfo.externalAddr create) 0);
    [discriminate|].
  intros E. inversion E; subst. auto.
Qed.

Lemma dedicated_create handle externalAddr externalAddrSize s create s1 :
  (if negb (externalAddr =? 0)
   then
     if externalAddrSize
        <? wrap64 (sizeof_asg_ring_storage + mPerContextBufferSize (globals s))
     then die ExternalAddressSizeTooSmall
     else
       ret {| AllocationCreateInfo.virtioGpu := true;
              AllocationCreateInfo.hostmemRegisterFixed := false;
              AllocationCreateInfo.fromLoad := false;
              AllocationCreateInfo.size := externalAddrSize;
              AllocationCreateInfo.hostmemId := 0;
              AllocationCreateInfo.externalAddr := externalAddr;
              AllocationCreateInfo.dedicatedContextHandle := Some handle |}
   else
     ret {| AllocationCreateInfo.virtioGpu := true;
            AllocationCreateInfo.hostmemRegisterFixed := false;
            AllocationCreateInfo.fromLoad := false;
            AllocationCreateInfo.size :=
              wrap64 (sizeof_asg_ring_storage
                      + mPerContextBufferSize (globals s));
            AllocationCreateInfo.hostmemId := 0;
            AllocationCreateInfo.externalAddr := 0;
            AllocationCreateInfo.dedicatedContextHandle := Some handle |}) s
  = Ok (create, s1) ->
  s1 = s
  /\ AllocationCreateInfo.dedicatedContextHandle create = Some handle
  /\ AllocationCreateInfo.virtioGpu create = true
  /\ AllocationCreateInfo.externalAddr create = externalAddr.
Proof.
  destruct (Z.eqb_spec externalAddr 0) as [->|Hne]; cbn [negb].
  - intros E. inversion E; subst. auto.
  - destruct (externalAddrSize <? _); [discriminate|].
    intros E. inversion E; subst. auto.
Qed.

Lemma dedicated_alloc_block handle externalAddr externalAddrSize s res s1 :
  Forall external_when_in_use (mCombinedBlocks (globals s)) ->
  allocRingAndBufferStorageDedicated handle externalAddr externalAddrSize s
  = Ok (res, s1) ->
  world s1 = world s
  /\ others_kept CombinedPool s s1
  /\ Allocation.buffer res <> 0
  /\ exists index block,
       Allocation.blockIndex res = Z.of_nat index
       /\ mCombinedBlocks (globals s1) !! index = Some block
       /\ Block.isEmpty block = false
       /\ Block.external block = true.
Proof.
  intros Hall. unfold allocRingAndBufferStorageDedicated.
  destruct (handle =? 0); [discriminate|].
  intros E. apply bind_Ok_inv in E as (perCtx & s0 & E0 & E).
  inversion E0; subst. clear E0.
  apply bind_Ok_inv in E as (create & s2 & E2 & E).
  apply dedicated_create in E2 as (-> & Hh & _ & _).
  assert (Hsome : AllocationCreateInfo.dedicatedContextHandle create <> None)
    by (rewrite Hh; discriminate).
  pose proof (proj2 (newAllocation_Ok _ _ _ _ _ E)) as (Hbuf & _).
  assert (Q1 : forall (block : Block.t SA) sa,
             external_when_in_use block ->
             external_when_in_use (Block.with_subAlloc sa block))
    by (intros block sa Hb; exact Hb).
  assert (Q2 : forall block st filled st',
             fillBlockLocked block create st = Ok (filled, st') ->
             external_when_in_use filled).
  { intros block st filled st' F _.
    now apply fillBlockLocked_dedicated_inv in F as (_ & He & _). }
  assert (Q3 : forall block st filled st',
             fillBlockLocked block create st = Ok (filled, st') ->
             world st = world s0 -> world st' = world s0).
  { intros block st filled st' F Hst.
    apply fillBlockLocked_dedicated_inv in F as (-> & _); assumption. }
  destruct (newAllocation_preserves external_when_in_use
              (fun w => w = world s0) create Q1 Q2 Q3 CombinedPool s0 res s1
              Hall eq_refl E) as [Hall1 Hw].
  split; [exact Hw|].
  apply newAllocation_spec in E as (index & Hin & _ & _ & _ & _ & Hothers).
  split; [exact Hothers|]. split; [exact Hbuf|].
  destruct Hin as (block & sa & Hidx & Hlk & Hempty & _).
  pose proof (Forall_lookup_1 _ _ _ _ Hall1 Hlk Hempty) as Hext.
  exists index, block. auto.
Qed.

Lemma deleteAllocation_external (alloc : Allocation.t) p s index block :
  Allocation.buffer alloc <> 0 ->
  Allocation.blockIndex alloc = Z.of_nat index ->
  pool_get p (globals s) !! index = Some block ->
  Block.external block = true ->
  deleteAllocation alloc p s
  = Ok (tt, with_block p index (destroyed block) s).
Proof.
  intros Hbuf Hidx Hlk Hext.
  rewrite (deleteAllocation_at alloc p s index block Hbuf Hidx Hlk), Hext.
  rewrite (bind_Ok _ _ _ _ _ (destroyBlockLocked_external block s Hext)).
  apply set_block_run.
Qed.

(** X8: the dedicated path works on the collaborator's memory without any
    call to the host or the control ops.  When every block in use of the
    combined pool is external, [allocRingAndBufferStorageDedicated] leaves
    the host world as it was and returns an Allocation in an external
    block; [freeRingAndBuffer] on that Allocation then returns, leaves the
    host world as it was, and empties that block outright (the
    sub-allocator is neither asked to free nor asked whether it is
    empty). *)
Theorem dedicated_storage_round_trip handle externalAddr externalAddrSize
    s res s1 :
  Forall external_when_in_use (mCombinedBlocks (globals s)) ->
  allocRingAndBufferStorageDedicated handle externalAddr externalAddrSize s
  = Ok (res, s1) ->
  world s1 = world s
  /\ exists index block,
       Allocation.blockIndex res = Z.of_nat index
       /\ mCombinedBlocks (globals s1) !! index = Some block
       /\ Block.isEmpty block = false
       /\ Block.external block = true
       /\ freeRingAndBuffer res s1
          = Ok (tt, with_block CombinedPool index (destroyed block) s1).
Proof.
  intros Hall E.
  destruct (dedicated_alloc_block _ _ _ _ _ _ Hall E)
    as (Hw & _ & Hbuf & index & block & Hidx & Hlk & Hempty & Hext).
  split; [exact Hw|].
  exists index, block. split; [exact Hidx|]. split; [exact Hlk|].
  split; [exact Hempty|]. split; [exact Hext|].
  unfold freeRingAndBuffer.
  now apply deleteAllocation_external.
Qed.

(** ** Aborts of the dedicated path *)

Lemma fillBlockLocked_without_address block create s handle :
  AllocationCreateInfo.dedicatedContextHandle create = Some handle ->
  AllocationCreateInfo.virtioGpu create = true ->
  AllocationCreateInfo.externalAddr create = 0 ->
  fillBlockLocked block create s = Die DedicatedWithoutExternalAddr.
Proof.
  intros Hh Hv Ha. unfold fillBlockLocked. now rewrite Hh, Hv, Ha.
Qed.

Lemma newAllocation_scan_unserved create p n i s handle out :
  AllocationCreateInfo.dedicatedContextHandle create = Some handle ->
  AllocationCreateInfo.virtioGpu create = true ->
  AllocationCreateInfo.externalAddr create = 0 ->
  handle_unserved handle (pool_get p (globals s)) ->
  newAllocation_scan create p n i s = out ->
  out = Die DedicatedWithoutExternalAddr \/ out = Ok (None, s).
Proof.
  intros Hh Hv Ha Hun. revert i.
  induction n as [|n IH]; intros i; cbn [newAllocation_scan].
  - intros <-. now right.
  - unfold get_pool at 1, gets at 1, bind at 1.
    destruct (pool_get p (globals s) !! i) as [block0|] eqn:Hlk;
      [|intros <-; now right].
    pose proof (Forall_lookup_1 _ _ _ _ Hun Hlk) as Hb0.
    destruct (Block.isEmpty block0) eqn:Hempty.
    + intros <-. left. unfold bind.
      now rewrite (fillBlockLocked_without_address _ _ _ handle Hh Hv Ha).
    + rewrite ret_then. rewrite Hh.
      destruct (bool_decide (Block.dedicatedContextHandle block0 = Some handle))
        eqn:Hd.
      * apply bool_decide_eq_true in Hd. now elim (Hb0 Hempty).
      * cbn [negb]. apply IH.
Qed.

Lemma newAllocation_unserved create p s handle :
  AllocationCreateInfo.dedicatedContextHandle create = Some handle ->
  AllocationCreateInfo.virtioGpu create = true ->
  AllocationCreateInfo.externalAddr create = 0 ->
  handle_unserved handle (pool_get p (globals s)) ->
  newAllocation create p s
  = if AllocationCreateInfo.size create >? ADDRESS_SPACE_GRAPHICS_BLOCK_SIZE
    then Die WantedSizeGreaterThanBlockSize
    else Die DedicatedWithoutExternalAddr.
Proof.
  intros Hh Hv Ha Hun. unfold newAllocation.
  destruct (_ >? ADDRESS_SPACE_GRAPHICS_BLOCK_SIZE); [reflexivity|].
  assert (G : forall (st : Sys SA W),
             get_pool p st = Ok (pool_get p (globals st), st)) by reflexivity.
  rewrite (bind_Ok _ _ _ _ _ (G s)).
  destruct (newAllocation_scan_unserved create p
              (length (pool_get p (globals s))) 0%nat s handle _
              Hh Hv Ha Hun eq_refl) as [E|E].
  - unfold bind at 1. now rewrite E.
  - rewrite (bind_Ok _ _ _ _ _ E), (bind_Ok _ _ _ _ _ (G s)).
    unfold bind at 1.
    now rewrite (fillBlockLocked_without_address _ _ _ handle Hh Hv Ha).
Qed.

(** X9: [allocRingAndBufferStorageDedicated] aborts when the handle is 0;
    with a handle and an external address it aborts when the external size
    is below [sizeof(asg_ring_storage)] plus the per-context buffer size
    (modulo 2^64); with a handle but no external address it never makes a
    block: unless a block in use of the combined pool is already dedicated
    to that handle, the call ends in the abort of [fillBlockLocked] for a
    dedicated request without an address (or, when the size exceeds the
    block size, in the abort of the size check). *)
Theorem dedicated_storage_aborts handle externalAddr externalAddrSize s :
  let wanted :=
    wrap64 (sizeof_asg_ring_storage + mPerContextBufferSize (globals s)) in
  (handle = 0 ->
   allocRingAndBufferStorageDedicated handle externalAddr externalAddrSize s
   = Die DedicatedWithoutHandle)
  /\ (handle <> 0 -> externalAddr <> 0 -> externalAddrSize < wanted ->
      allocRingAndBufferStorageDedicated handle externalAddr externalAddrSize s
      = Die ExternalAddressSizeTooSmall)
  /\ (handle <> 0 -> externalAddr = 0 ->
      handle_unserved handle (mCombinedBlocks (globals s)) ->
      allocRingAndBufferStorageDedicated handle externalAddr externalAddrSize s
      = if wanted >? ADDRESS_SPACE_GRAPHICS_BLOCK_SIZE
        then Die WantedSizeGreaterThanBlockSize
        else Die DedicatedWithoutExternalAddr).
Proof.
  cbn zeta. unfold allocRingAndBufferStorageDedicated. split; [|split].
  - intros ->. reflexivity.
  - intros Hh Ha Hsz.
    destruct (Z.eqb_spec handle 0) as [|_]; [contradiction|].
    unfold gets at 1, bind at 1.
    destruct (Z.eqb_spec externalAddr 0) as [|_]; [contradiction|].
    cbn [negb].
    destruct (Z.ltb_spec externalAddrSize
                (wrap64 (sizeof_asg_ring_storage
                         + mPerContextBufferSize (globals s)))); [reflexivity|lia].
  - intros Hh -> Hun.
    destruct (Z.eqb_spec handle 0) as [|_]; [contradiction|].
    unfold gets at 1, bind at 1. cbn [Z.eqb negb]. rewrite ret_then.
    now rewrite (newAllocation_unserved _ CombinedPool s handle).
Qed.

(** ** [clear] and [initialize] *)

Lemma destroy_each_globals (blocks : list (Block.t SA)) s s' :
  destroy_each blocks s = Ok (tt, s') -> globals s' = globals s.
Proof.
  revert s. induction blocks as [|block blocks IH]; intros s;
    cbn [destroy_each].
  - intros E. now inversion E.
  - intros E. apply bind_Ok_inv in E as ([] & s1 & E1 & E).
    apply IH in E. rewrite E.
    destruct (Block.isEmpty block); [now inversion E1|].
    apply bind_Ok_inv in E1 as (gone & s2 & E2 & E1).
    apply destroyBlockLocked_keeps in E2 as [_ Hg]. now inversion E1; subst.
Qed.

Lemma destroy_each_external (blocks : list (Block.t SA)) s :
  Forall external_when_in_use blocks ->
  destroy_each blocks s = Ok (tt, s).
Proof.
  induction 1 as [|block blocks Hb _ IH]; cbn [destroy_each]; [reflexivity|].
  destruct (Block.isEmpty block) eqn:Hempty.
  - rewrite ret_then. exact IH.
  - rewrite bind_assoc.
    rewrite (bind_Ok _ _ _ _ _ (destroyBlockLocked_external block s (Hb Hempty))).
    rewrite !ret_then. exact IH.
Qed.

Lemma clear_globals s s' :
  clear s = Ok (tt, s') -> globals s' = cleared (globals s).
Proof.
  unfold clear. intros E.
  apply bind_Ok_inv in E as (ring & s1 & E1 & E). inversion E1; subst. clear E1.
  apply bind_Ok_inv in E as ([] & s2 & E2 & E).
  apply destroy_each_globals in E2.
  apply bind_Ok_inv in E as (buffer & s3 & E3 & E). inversion E3; subst. clear E3.
  apply bind_Ok_inv in E as ([] & s4 & E4 & E).
  apply destroy_each_globals in E4.
  apply bind_Ok_inv in E as (combined & s5 & E5 & E). inversion E5; subst. clear E5.
  apply bind_Ok_inv in E as ([] & s6 & E6 & E).
  apply destroy_each_globals in E6.
  apply bind_Ok_inv in E as ([] & s7 & E7 & E).
  apply bind_Ok_inv in E as ([] & s8 & E8 & E).
  inversion E7; subst. inversion E8; subst. inversion E; subst.
  cbn. rewrite E6, E4, E2. reflexivity.
Qed.

(** X10: a [clear] that returns leaves the three pools empty and the
    settings of [Globals] as they were, and a second [clear] then changes
    nothing.  [clear] never touches memory it does not own: when every
    block in use is external it needs no control ops and leaves the host
    world exactly as it was. *)
Theorem clear_empties_pools_spares_external s :
  (forall s',
      clear s = Ok (tt, s') ->
      globals s' = cleared (globals s) /\ clear s' = Ok (tt, s'))
  /\ (Forall external_when_in_use (all_blocks (globals s)) ->
      clear s = Ok (tt, mkSys (world s) (cleared (globals s)))).
Proof.
  split.
  - intros s' E. apply clear_globals in E. split; [exact E|].
    destruct s' as [w' g']. cbn [globals] in E. subst g'.
    apply clear_of_cleared.
  - unfold all_blocks. rewrite !Forall_app. intros (Hr & Hb & Hc).
    unfold clear.
    assert (G : forall p (st : Sys SA W),
               get_pool p st = Ok (pool_get p (globals st), st)) by reflexivity.
    rewrite (bind_Ok _ _ _ _ _ (G RingPool s)).
    rewrite (bind_Ok _ _ _ _ _ (destroy_each_external _ s Hr)).
    rewrite (bind_Ok _ _ _ _ _ (G BufferPool s)).
    rewrite (bind_Ok _ _ _ _ _ (destroy_each_external _ s Hb)).
    rewrite (bind_Ok _ _ _ _ _ (G CombinedPool s)).
    rewrite (bind_Ok _ _ _ _ _ (destroy_each_external _ s Hc)).
    reflexivity.
Qed.

(** X11: only the first [initialize] takes effect: a second call with
    other control ops changes nothing, so [initialize ops1] followed by
    [initialize ops2] is [initialize ops1]; a call marks [Globals]
    initialized and leaves the pools, the consumer interface and the
    per-context buffer size alone. *)
Theorem initialize_first_call_wins ops1 ops2 s :
  (initialize ops1 ;;; initialize ops2) s = initialize ops1 s
  /\ exists s',
       initialize ops1 s = Ok (tt, s')
       /\ mInitialized (globals s') = true
       /\ mControlOps (globals s')
          = (if mInitialized (globals s) then mControlOps (globals s) else ops1)
       /\ (forall p, pool_get p (globals s') = pool_get p (globals s))
       /\ mConsumerInterface (globals s') = mConsumerInterface (globals s)
       /\ mPerContextBufferSize (globals s') = mPerContextBufferSize (globals s)
       /\ world s' = world s.
Proof.
  unfold bind, initialize.
  destruct (mInitialized (globals s)) eqn:Hi; cbn.
  - rewrite Hi. split; [reflexivity|]. exists s. rewrite Hi.
    repeat split; reflexivity.
  - split; [reflexivity|]. eexists. split; [reflexivity|]. cbn.
    repeat split; try reflexivity.
Qed.

(** ** Aborts of [fillBlockLocked] *)


(** ** Which aborts [newAllocation] can end in *)

Section AbortReasons.
Variables (P : FatalReason -> Prop) (create : AllocationCreateInfo.t).
Hypothesis P_fill :
  forall block s r, fillBlockLocked block create s = Die r -> P r.
Hypothesis P_size : P WantedSizeGreaterThanBlockSize.
Hypothesis P_full : P FailedToAllocate.

Lemma newAllocation_scan_Die_reasons p n i s r :
  newAllocation_scan create p n i s = Die r -> P r.
Proof.
  revert i s. induction n as [|n IH]; intros i s; cbn [newAllocation_scan].
  - discriminate.
  - unfold get_pool at 1, gets at 1, bind at 1.
    destruct (pool_get p (globals s) !! i) as [block0|]; [|discriminate].
    intros E. apply bind_Die_inv in E as [E | (block & s1 & E1 & E)].
    + destruct (Block.isEmpty block0); [|discriminate E].
      apply bind_Die_inv in E as [E | (filled & s1 & _ & E)].
      * now apply P_fill in E.
      * discriminate E.
    + destruct (negb (bool_decide _)); [now apply IH in E|].
      destruct (Block.subAlloc block) as [sa|]; [|discriminate E].
      destruct (sa_alloc (AllocationCreateInfo.size create) sa) as [buf sa'].
      apply bind_Die_inv in E as [E | (? & s2 & _ & E)]; [discriminate E|].
      destruct (negb (buf =? 0)); [discriminate E | now apply IH in E].
Qed.

Lemma newAllocation_Die_reasons p s r :
  newAllocation create p s = Die r -> P r.
Proof.
  unfold newAllocation.
  destruct (AllocationCreateInfo.size create >? ADDRESS_SPACE_GRAPHICS_BLOCK_SIZE).
  { intros E. inversion E; subst. exact P_size. }
  intros E.
  apply bind_Die_inv in E as [E | (blocks & s1 & _ & E)]; [discriminate E|].
  apply bind_Die_inv in E as [E | (found & s2 & _ & E)].
  { now apply newAllocation_scan_Die_reasons in E. }
  destruct found as [res|]; [discriminate E|].
  apply bind_Die_inv in E as [E | (blocks' & s3 & _ & E)]; [discriminate E|].
  apply bind_Die_inv in E as [E | (newBlock & s4 & _ & E)].
  { now apply P_fill in E. }
  destruct (Block.subAlloc newBlock) as [sa|]; [|discriminate E].
  destruct (sa_alloc (AllocationCreateInfo.size create) sa) as [buf sa'].
  destruct (buf =? 0).
  { inversion E; subst. exact P_full. }
  apply bind_Die_inv in E as [E | (? & s5 & _ & E)]; discriminate E.
Qed.

End AbortReasons.

Lemma fillBlockLocked_Die_plain block create s r :
  AllocationCreateInfo.dedicatedContextHandle create = None ->
  AllocationCreateInfo.virtioGpu create = false ->
  fillBlockLocked block create s = Die r ->
  r = FailedToAllocatePhysical.
Proof.
  intros Hh Hv. unfold fillBlockLocked. rewrite Hh, Hv.
  unfold bind, host_call, host_get, control_op, die, ret.
  repeat (case_step; cbn); intros E; inversion E; reflexivity.
Qed.

Lemma fillBlockLocked_Die_dedicated block create s r handle :
  AllocationCreateInfo.dedicatedContextHandle create = Some handle ->
  AllocationCreateInfo.virtioGpu create = true ->
  fillBlockLocked block create s = Die r ->
  r = DedicatedWithoutExternalAddr.
Proof.
  intros Hh Hv. unfold fillBlockLocked. rewrite Hh, Hv. cbn [negb].
  destruct (_ =? 0); intros E; inversion E; reflexivity.
Qed.

End PoolsMore.

Section PoolsMoreRuns.

Lemma newAllocation_names_block_witness :
  match allocRingStorage small_sys with
  | Ok (res, s') =>
      Allocation.size res = 4 /\ in_use (mRingBlocks (globals s')) 0
  | _ => False
  end.
Proof.
  destruct (allocRingStorage small_sys) as [[res s']| |] eqn:E.
  - destruct (newAllocation_names_block _ RingPool small_sys res s' E)
      as ((_ & Hsize & _) & index & _ & Huse).
    split; [exact Hsize | apply Huse; lia].
  - vm_compute in E. discriminate E.
  - vm_compute in E. discriminate E.
Defined.

Lemma newAllocation_frame_witness :
  match allocBuffer one_ring_block_sys with
  | Ok (_, s') =>
      mRingBlocks (globals s') = mRingBlocks (globals one_ring_block_sys)
  | _ => False
  end.
Proof.
  destruct (allocBuffer one_ring_block_sys) as [[res s']| |] eqn:E.
  - destruct (newAllocation_frame _ BufferPool one_ring_block_sys res s' E)
      as (_ & _ & _ & Hothers & _).
    apply (Hothers RingPool). discriminate.
  - vm_compute in E. discriminate E.
  - vm_compute in E. discriminate E.
Defined.

Lemma deleteAllocation_frame_witness :
  match deleteAllocation ring_allocation RingPool one_ring_block_sys with
  | Ok (_, s') => length (mRingBlocks (globals s')) = 1%nat
  | _ => False
  end.
Proof.
  destruct (deleteAllocation ring_allocation RingPool one_ring_block_sys)
    as [[[] s']| |] eqn:E.
  - destruct (deleteAllocation_frame ring_allocation RingPool
                one_ring_block_sys s' E) as (Hlen & _).
    exact Hlen.
  - vm_compute in E. discriminate E.
  - vm_compute in E. discriminate E.
Defined.

Lemma deleteAllocation_finds_new_allocation_witness :
  allocRingStorage small_sys = Ok (ring_allocation, one_ring_block_sys)
  /\ deleteAllocation ring_allocation RingPool one_ring_block_sys
     <> Die BlockIndexNotFound.
Proof.
  assert (E : allocRingStorage small_sys = Ok (ring_allocation, one_ring_block_sys))
    by (vm_compute; reflexivity).
  split; [exact E|].
  exact (proj1 (deleteAllocation_finds_new_allocation _ RingPool small_sys
                  ring_allocation one_ring_block_sys E)).
Defined.

Lemma dedicated_storage_round_trip_witness :
  match allocRingAndBufferStorageDedicated 7 20000 16 small_sys with
  | Ok (res, s1) =>
      world s1 = SmallWorld.initial
      /\ exists s2, freeRingAndBuffer res s1 = Ok (tt, s2)
  | _ => False
  end.
Proof.
  destruct (allocRingAndBufferStorageDedicated 7 20000 16 small_sys)
    as [[res s1]| |] eqn:E.
  - destruct (dedicated_storage_round_trip 7 20000 16 small_sys res s1
                ltac:(constructor) E)
      as (Hw & index & block & _ & _ & _ & _ & Hfree).
    split; [exact Hw | eexists; exact Hfree].
  - vm_compute in E. discriminate E.
  - vm_compute in E. discriminate E.
Defined.

Lemma dedicated_storage_aborts_witness :
  allocRingAndBufferStorageDedicated 7 0 0 small_sys
  = Die DedicatedWithoutExternalAddr.
Proof.
  destruct (dedicated_storage_aborts 7 0 0 small_sys) as (_ & _ & Hnone).
  exact (Hnone ltac:(lia) eq_refl ltac:(constructor)).
Defined.

End PoolsMoreRuns.

(** ** The constructor and the destructor *)

Section ConstructionMore.
Context {SA W : Type} `{SubAllocator SA} `{Platform} `{Host W}.
Import AddressSpaceGraphicsContext.

Implicit Types (s : Sys SA W) (create : AddressSpaceCreateInfo).

Lemma getConsumerInterface_inv s iface s0 :
  getConsumerInterface s = Ok (iface, s0) -> s0 = s.
Proof.
  unfold getConsumerInterface. intros E.
  apply bind_Ok_inv in E as (i & s00 & Eg & E). inversion Eg; subst.
  destruct (_ || _); now inversion E.
Qed.

Lemma allocBuffer_inv s res s' :
  allocBuffer s = Ok (res, s') ->
  same_settings (globals s) (globals s')
  /\ Allocation.buffer res <> 0
  /\ Allocation.size res = mPerContextBufferSize (globals s)
  /\ Allocation.isView res = false.
Proof.
  unfold allocBuffer. intros E.
  apply bind_Ok_inv in E as (size & s0 & E0 & E). inversion E0; subst.
  apply newAllocation_Ok in E as (S & Hb & Hs & _ & _ & Hv). auto.
Qed.

Lemma allocRingStorage_inv s res s' :
  allocRingStorage s = Ok (res, s') ->
  same_settings (globals s) (globals s')
  /\ Allocation.buffer res <> 0
  /\ Allocation.size res = sizeof_asg_ring_storage
  /\ Allocation.isView res = false.
Proof.
  unfold allocRingStorage. intros E.
  apply newAllocation_Ok in E as (S & Hb & Hs & _ & _ & Hv). auto.
Qed.

(** What a constructor call that returns has done. *)
Lemma construct_inv create s c s' :
  fromSnapshot create = false ->
  construct create s = Ok (c, s') ->
  exists sm,
    constructor_allocates create s (mRingAllocation c) (mBufferAllocation c)
      (mCombinedAllocation c) sm
    /\ globals s' = globals sm
    /\ mPerContextBufferSize (globals sm) = mPerContextBufferSize (globals s)
    /\ getConsumerInterface s = Ok (mConsumerInterface c, s)
    /\ mSavedConfig c = constructor_config (mPerContextBufferSize (globals s))
    /\ ring_config (mHostContext c)
       = constructor_config (mPerContextBufferSize (globals s))
    /\ mVirtioGpuInfo c = constructor_identity create
    /\ mVersion c = initial_mVersion
    /\ mExiting c = 0
    /\ mUnavailableReadCount c = 0
    /\ mConsumerMessages c = []
    /\ (if createRenderThread create
        then ConsumerInterface.create (mConsumerInterface c) = true
             /\ exists unread,
                  consumer_create (mHostContext c) None (virtio_contextId c)
                    (virtio_capsetId c) (virtio_name c) (world sm)
                  = (mCurrentConsumer c, unread, world s')
        else mCurrentConsumer c = 0 /\ world s' = world sm).
Proof.
  intros Hsnap E. unfold construct in E.
  apply bind_Ok_inv in E as (iface & s0 & E0 & E).
  pose proof (getConsumerInterface_inv _ _ _ E0) as ->.
  rewrite Hsnap in E.
  apply bind_Ok_inv in E as (allocs & sm & E1 & E).
  destruct allocs as [[ring buffer] combined].
  assert (Hallocs : constructor_allocates create s ring buffer combined sm
                    /\ mPerContextBufferSize (globals sm)
                       = mPerContextBufferSize (globals s)).
  { unfold constructor_allocates.
    destruct (type create).
    - apply bind_Ok_inv in E1 as (r & s1 & Er & E1).
      apply bind_Ok_inv in E1 as (b & s2 & Eb & E1).
      inversion E1; subst. split; [eauto|].
      apply allocRingStorage_inv in Er as ((Hp & _) & _).
      apply allocBuffer_inv in Eb as ((Hp' & _) & _). congruence.
    - apply bind_Ok_inv in E1 as (cmb & s1 & Ec & E1).
      apply bind_Ok_inv in E1 as (r & s2 & Er & E1).
      pose proof Er as Er'. inversion Er'; subst r s2. clear Er'.
      apply bind_Ok_inv in E1 as (b & s3 & Eb & E1).
      pose proof Eb as Eb'.
      apply bind_Ok_inv in Eb' as (perCtx & s5 & Ep & Eb').
      inversion Ep; subst perCtx s5. inversion Eb'; subst b s3.
      inversion E1; subst.
      split; [split; [exact Ec | split; [exact Er | exact Eb]]|].
      now apply allocRingAndBufferStorageDedicated_Ok in Ec as ((Hp & _) & _).
    - apply bind_Ok_inv in E1 as (r & s1 & Er & E1).
      apply bind_Ok_inv in E1 as (b & s2 & Eb & E1).
      inversion E1; subst. split; [eauto|].
      apply allocRingStorage_inv in Er as ((Hp & _) & _).
      apply allocBuffer_inv in Eb as ((Hp' & _) & _). congruence. }
  destruct Hallocs as [Hallocs Hper].
  cbn beta iota zeta in E.
  destruct (Allocation.buffer ring =? 0); [discriminate E|].
  destruct (Allocation.buffer buffer =? 0); [discriminate E|].
  apply bind_Ok_inv in E as (perCtx & s6 & Ep & E).
  inversion Ep; subst perCtx s6. clear Ep.
  apply bind_Ok_inv in E as (created & s7 & Ecr & E).
  inversion Ecr; subst created s7. clear Ecr.
  rewrite Hper in E.
  exists sm.
  assert (Hid : (if match type create with
                    | VirtioGpuGraphics => true
                    | _ => false
                    end
                 then Some {| contextId := virtioGpuContextId create;
                              capsetId := virtioGpuCapsetId create;
                              name :=
                                if truthy (contextNameSize create)
                                then Some (take (Z.to_nat (contextNameSize create))
                                             (contextName create))
                                else None |}
                 else None) = constructor_identity create).
  { unfold constructor_identity. now destruct (type create). }
  destruct (createRenderThread create).
  - cbn [mConsumerInterface] in E.
    destruct (ConsumerInterface.create iface) eqn:Hcreate; [|discriminate E].
    apply bind_Ok_inv in E as (r & s8 & Ecc & E).
    inversion E; subst c s'. clear E.
    unfold host_call, create_consumer in Ecc.
    cbn [mHostContext world globals] in Ecc.
    match type of Ecc with
    | context [consumer_create ?a ?b ?c ?d ?e ?w] =>
        destruct (consumer_create a b c d e w) as [[h unread] w8] eqn:Hmade
    end.
    inversion Ecc; subst. cbn.
    repeat (split; [first [assumption | reflexivity]|]).
    exists unread. exact Hmade.
  - inversion E; subst c s'. cbn.
    repeat (split; [first [assumption | reflexivity]|]).
    split; reflexivity.
Qed.

Lemma newAllocation_in_use (request : AllocationCreateInfo.t) p s res s' :
  newAllocation request p s = Ok (res, s') ->
  in_use (pool_get p (globals s')) (Z.to_nat (Allocation.blockIndex res)).
Proof.
  intros E. apply newAllocation_spec in E as (index & Hin & _).
  destruct Hin as (block & sa & Hidx & Hlk & Hempty & _).
  rewrite Hidx, Nat2Z.id. exists block. split; assumption.
Qed.

(** X13: a context constructed for a device type other than virtio-gpu
    holds a ring Allocation of [sizeof(asg_ring_storage)] bytes in a block
    in use of the ring pool and a buffer Allocation of the per-context
    buffer size in a block in use of the buffer pool; neither is a view and
    neither buffer is null.  It holds no combined Allocation and no virtio
    identity, and the combined pool is as it was.  The saved ring
    configuration and the live one are both the constructor's: buffer size
    and flush interval from the settings, transfer mode 1, the rest 0. *)
Theorem construct_plain create s c s' :
  type create <> VirtioGpuGraphics ->
  fromSnapshot create = false ->
  construct create s = Ok (c, s') ->
  let ring := mRingAllocation c in
  let buffer := mBufferAllocation c in
  (Allocation.isView ring = false
   /\ Allocation.buffer ring <> 0
   /\ Allocation.size ring = sizeof_asg_ring_storage
   /\ in_use (mRingBlocks (globals s')) (Z.to_nat (Allocation.blockIndex ring)))
  /\ (Allocation.isView buffer = false
      /\ Allocation.buffer buffer <> 0
      /\ Allocation.size buffer = mPerContextBufferSize (globals s)
      /\ in_use (mBufferBlocks (globals s'))
           (Z.to_nat (Allocation.blockIndex buffer)))
  /\ mCombinedAllocation c = Allocation.default
  /\ mCombinedBlocks (globals s') = mCombinedBlocks (globals s)
  /\ mVirtioGpuInfo c = None
  /\ mSavedConfig c = constructor_config (mPerContextBufferSize (globals s))
  /\ ring_config (mHostContext c) = mSavedConfig c.
Proof.
  intros Hty Hsnap E. cbn zeta.
  apply construct_inv in E
    as (sm & Hallocs & Hg & Hper & _ & Hsaved & Hlive & Hid & _); [|exact Hsnap].
  assert (Hplain : exists s1,
             allocRingStorage s = Ok (mRingAllocation c, s1)
             /\ allocBuffer s1 = Ok (mBufferAllocation c, sm)
             /\ mCombinedAllocation c = Allocation.default).
  { unfold constructor_allocates in Hallocs.
    destruct (type create); [exact Hallocs | now elim Hty | exact Hallocs]. }
  assert (Hnone : mVirtioGpuInfo c = None).
  { rewrite Hid. unfold constructor_identity.
    destruct (type create); [reflexivity | now elim Hty | reflexivity]. }
  destruct Hplain as (s1 & Er & Eb & Hc).
  pose proof (allocRingStorage_inv _ _ _ Er) as ((Hp1 & _) & Hrb & Hrs & Hrv).
  pose proof (allocBuffer_inv _ _ _ Eb) as (_ & Hbb & Hbs & Hbv).
  unfold allocRingStorage in Er.
  pose proof (newAllocation_in_use _ _ _ _ _ Er) as Hruse.
  apply newAllocation_spec in Er as (_ & _ & _ & _ & _ & _ & Ho1).
  unfold allocBuffer in Eb.
  apply bind_Ok_inv in Eb as (size & s0 & E0 & Eb). inversion E0; subst.
  pose proof (newAllocation_in_use _ _ _ _ _ Eb) as Hbuse.
  apply newAllocation_spec in Eb as (_ & _ & _ & _ & _ & _ & Ho2).
  rewrite Hg.
  split.
  { split; [exact Hrv|]. split; [exact Hrb|]. split; [exact Hrs|].
    change (mRingBlocks (globals sm)) with (pool_get RingPool (globals sm)).
    rewrite (Ho2 RingPool) by discriminate. exact Hruse. }
  split.
  { split; [exact Hbv|]. split; [exact Hbb|]. split; [congruence|].
    exact Hbuse. }
  split; [exact Hc|]. split.
  { change (mCombinedBlocks (globals sm))
      with (pool_get CombinedPool (globals sm)).
    rewrite (Ho2 CombinedPool) by discriminate.
    now rewrite (Ho1 CombinedPool) by discriminate. }
  split; [exact Hnone|]. split; [exact Hsaved | congruence].
Qed.

Lemma plain_newAllocation_Die create (request : AllocationCreateInfo.t) p s r :
  AllocationCreateInfo.dedicatedContextHandle request = None ->
  AllocationCreateInfo.virtioGpu request = false ->
  newAllocation request p s = Die r ->
  later_abort create r.
Proof.
  intros Hh Hv E.
  apply (newAllocation_Die_reasons (later_abort create) request) in E;
    [exact E | | |].
  - intros block st r0 F.
    apply (fillBlockLocked_Die_plain _ _ _ _ Hh Hv) in F. subst r0.
    split; [reflexivity|]. split; discriminate.
  - split; [reflexivity|]. split; discriminate.
  - split; [reflexivity|]. split; discriminate.
Qed.

Lemma dedicated_newAllocation_Die create (request : AllocationCreateInfo.t)
    p s r handle :
  AllocationCreateInfo.dedicatedContextHandle request = Some handle ->
  AllocationCreateInfo.virtioGpu request = true ->
  newAllocation request p s = Die r ->
  later_abort create r.
Proof.
  intros Hh Hv E.
  apply (newAllocation_Die_reasons (later_abort create) request) in E;
    [exact E | | |].
  - intros block st r0 F.
    apply (fillBlockLocked_Die_dedicated _ _ _ _ handle Hh Hv) in F. subst r0.
    split; [reflexivity|]. split; discriminate.
  - split; [reflexivity|]. split; discriminate.
  - split; [reflexivity|]. split; discriminate.
Qed.

Lemma plain_allocs_Die create s r :
  (ring <- allocRingStorage ;;
   buffer <- allocBuffer ;;
   ret (ring, buffer, Allocation.default)) s = Die r ->
  later_abort create r.
Proof.
  intros E. apply bind_Die_inv in E as [E | (ring & s1 & _ & E)].
  - now apply (plain_newAllocation_Die create) in E.
  - apply bind_Die_inv in E as [E | (buffer & s2 & _ & E)]; [|discriminate E].
    unfold allocBuffer in E.
    apply bind_Die_inv in E as [E | (size & s0 & _ & E)]; [discriminate E|].
    now apply (plain_newAllocation_Die create) in E.
Qed.

Lemma construct_Die create s r :
  construct create s = Die r ->
  getConsumerInterface s = Die r
  \/ (fromSnapshot create = false /\ later_abort create r).
Proof.
  unfold construct. intros E.
  apply bind_Die_inv in E as [E | (iface & s0 & E0 & E)]; [now left|].
  right. pose proof (getConsumerInterface_inv _ _ _ E0) as ->.
  destruct (fromSnapshot create); [discriminate E|].
  split; [reflexivity|].
  apply bind_Die_inv in E as [E | (allocs & sm & E1 & E)].
  - destruct (type create) eqn:Hty.
    + exact (plain_allocs_Die create s r E).
    + apply bind_Die_inv in E as [E | (cmb & s1 & _ & E)].
      * unfold allocRingAndBufferStorageDedicated in E.
        destruct (handle create =? 0).
        { inversion E; subst.
          split; [reflexivity|]. split; [discriminate | intros _; exact Hty]. }
        apply bind_Die_inv in E as [E | (perCtx & s1 & Ep & E)];
          [discriminate E|].
        inversion Ep; subst perCtx s1. clear Ep.
        apply bind_Die_inv in E as [E | (request & s2 & E2 & E)].
        -- destruct (negb (externalAddr create =? 0)); [|discriminate E].
           destruct (externalAddrSize create <? _); [|discriminate E].
           inversion E; subst.
           split; [reflexivity|]. split; [discriminate | intros _; exact Hty].
        -- apply dedicated_create in E2 as (_ & Hh & Hv & _).
           now apply (dedicated_newAllocation_Die create _ _ _ _ _ Hh Hv) in E.
      * apply bind_Die_inv in E as [E | (ring & s2 & _ & E)]; [discriminate E|].
        apply bind_Die_inv in E as [E | (buffer & s3 & _ & E)];
          [|discriminate E].
        unfold allocBufferViewIntoCombined in E.
        apply bind_Die_inv in E as [E | (? & ? & _ & E)]; discriminate E.
    + exact (plain_allocs_Die create s r E).
  - destruct allocs as [[ring buffer] combined].
    cbn beta iota zeta in E.
    assert (Hring : Allocation.buffer ring <> 0
                    /\ (type create <> VirtioGpuGraphics ->
                        Allocation.buffer buffer <> 0)).
    { destruct (type create).
      - apply bind_Ok_inv in E1 as (r1 & s1 & Er & E1).
        apply bind_Ok_inv in E1 as (b1 & s2 & Eb & E1).
        inversion E1; subst.
        apply allocRingStorage_inv in Er as (_ & Hr & _).
        apply allocBuffer_inv in Eb as (_ & Hb & _). auto.
      - apply bind_Ok_inv in E1 as (cmb & s1 & Ec & E1).
        apply allocRingAndBufferStorageDedicated_Ok in Ec as (_ & _ & Hb & _).
        apply bind_Ok_inv in E1 as (r1 & s2 & Er & E1).
        inversion Er; subst r1 s2.
        apply bind_Ok_inv in E1 as (b1 & s3 & Eb & E1).
        inversion E1; subst. split; [exact Hb | intros Hx; now elim Hx].
      - apply bind_Ok_inv in E1 as (r1 & s1 & Er & E1).
        apply bind_Ok_inv in E1 as (b1 & s2 & Eb & E1).
        inversion E1; subst.
        apply allocRingStorage_inv in Er as (_ & Hr & _).
        apply allocBuffer_inv in Eb as (_ & Hb & _). auto. }
    destruct Hring as [Hring Hbuffer].
    destruct (Z.eqb_spec (Allocation.buffer ring) 0) as [|_]; [contradiction|].
    destruct (Z.eqb_spec (Allocation.buffer buffer) 0) as [Hz|_].
    { inversion E; subst. split; [reflexivity|]. split; [discriminate|].
      intros _. destruct (type create) eqn:Hty; try reflexivity;
        now elim Hbuffer. }
    apply bind_Die_inv in E as [E | (perCtx & s6 & _ & E)]; [discriminate E|].
    apply bind_Die_inv in E as [E | (created & s7 & _ & E)]; [discriminate E|].
    destruct (createRenderThread create); [|discriminate E].
    destruct (ConsumerInterface.create _); [|discriminate E].
    apply bind_Die_inv in E as [E | (r1 & s8 & _ & E)]; [|discriminate E].
    unfold host_call in E. destruct (create_consumer _ _ _ _ _ _); discriminate E.
Qed.

(** ** The destructor *)



Lemma getConsumerInterface_destroy s iface s0 :
  getConsumerInterface s = Ok (iface, s0) ->
  ConsumerInterface.destroy iface = true.
Proof.
  unfold getConsumerInterface. intros E.
  apply bind_Ok_inv in E as (i & s00 & Eg & E). inversion Eg; subst.
  destruct (ConsumerInterface.create _), (ConsumerInterface.destroy _) eqn:Hd;
    cbn in E; try discriminate E.
  destruct (_ || _); inversion E; subst. exact Hd.
Qed.

Lemma destruct_of_views c s index block :
  Allocation.isView (mRingAllocation c) = true ->
  Allocation.isView (mBufferAllocation c) = true ->
  ConsumerInterface.destroy (mConsumerInterface c) = true ->
  Allocation.buffer (mCombinedAllocation c) <> 0 ->
  Allocation.blockIndex (mCombinedAllocation c) = Z.of_nat index ->
  mCombinedBlocks (globals s) !! index = Some block ->
  Block.external block = true ->
  destruct_ c s
  = Ok (if mCurrentConsumer c =? 0 then c else exit_signalled c,
        with_block CombinedPool index (destroyed block)
          (mkSys (if mCurrentConsumer c =? 0 then world s
                  else consumer_destroy (mCurrentConsumer c) (world s))
             (globals s))).
Proof.
  intros Hr Hb Hd Hbuf Hidx Hlk Hext. unfold destruct_.
  assert (Hfrees : forall c1 st,
             mRingAllocation c1 = mRingAllocation c ->
             mBufferAllocation c1 = mBufferAllocation c ->
             mCombinedAllocation c1 = mCombinedAllocation c ->
             globals st = globals s ->
             (freeBuffer (mBufferAllocation c1) ;;;
              freeRingStorage (mRingAllocation c1) ;;;
              freeRingAndBuffer (mCombinedAllocation c1) ;;; ret c1) st
             = Ok (c1, with_block CombinedPool index (destroyed block) st)).
  { intros c1 st E1 E2 E3 Hg.
    unfold freeBuffer, freeRingStorage, freeRingAndBuffer.
    rewrite E1, E2, E3, Hr, Hb, !ret_then.
    erewrite bind_Ok; [reflexivity|].
    apply deleteAllocation_external; try assumption.
    cbn [pool_get]. now rewrite Hg. }
  destruct (mCurrentConsumer c =? 0); cbn [negb].
  - rewrite ret_then. rewrite Hfrees by reflexivity. now destruct s.
  - cbn [mConsumerInterface set_mConsumerMessages set_host_state set_mExiting
         mCurrentConsumer].
    rewrite Hd. rewrite bind_assoc.
    erewrite bind_Ok by reflexivity. rewrite ret_then.
    now rewrite Hfrees by reflexivity.
Qed.

(** X17: the pair of constructor and destructor of a virtio-gpu context,
    on pools whose combined blocks in use are all external: the
    constructor's combined Allocation lies in a block in use of the
    combined pool, and the destructor then returns and empties that block
    (the two views are not freed on their own); the other blocks of the
    combined pool stay as the constructor left them, and the ring and
    buffer pools are never touched. *)
Theorem virtio_context_lifecycle create s c s1 :
  type create = VirtioGpuGraphics ->
  fromSnapshot create = false ->
  Forall external_when_in_use (mCombinedBlocks (globals s)) ->
  construct create s = Ok (c, s1) ->
  exists c' s2 index block,
    destruct_ c s1 = Ok (c', s2)
    /\ Allocation.blockIndex (mCombinedAllocation c) = Z.of_nat index
    /\ mCombinedBlocks (globals s1) !! index = Some block
    /\ Block.isEmpty block = false
    /\ mCombinedBlocks (globals s2)
       = <[index := destroyed block]> (mCombinedBlocks (globals s1))
    /\ mRingBlocks (globals s2) = mRingBlocks (globals s)
    /\ mBufferBlocks (globals s2) = mBufferBlocks (globals s).
Proof.
  intros Hty Hsnap Hall E.
  apply construct_inv in E
    as (sm & Hallocs & Hg & _ & Hget & _); [|exact Hsnap].
  unfold constructor_allocates in Hallocs. rewrite Hty in Hallocs.
  destruct Hallocs as (Ec & Er & Eb).
  apply getConsumerInterface_destroy in Hget.
  destruct (dedicated_alloc_block _ _ _ _ _ _ Hall Ec)
    as (_ & Hothers & Hbuf & index & block & Hidx & Hlk & Hempty & Hext).
  assert (Hrv : Allocation.isView (mRingAllocation c) = true).
  { unfold allocRingViewIntoCombined in Er. inversion Er as [Hr].
    first [reflexivity | now rewrite <- Hr]. }
  assert (Hbv : Allocation.isView (mBufferAllocation c) = true).
  { unfold allocBufferViewIntoCombined in Eb.
    apply bind_Ok_inv in Eb as (perCtx & s5 & Ep & Eb).
    inversion Eb as [Hb]. first [reflexivity | now rewrite <- Hb]. }
  rewrite <- Hg in Hlk.
  eexists _, _, index, block.
  split; [now apply (destruct_of_views c s1 index block)|].
  split; [exact Hidx|]. split; [exact Hlk|]. split; [exact Hempty|].
  unfold with_block. cbn [globals pool_get pool_set mCombinedBlocks
                          mRingBlocks mBufferBlocks].
  split; [reflexivity|]. rewrite Hg.
  split.
  - exact (Hothers RingPool ltac:(discriminate)).
  - exact (Hothers BufferPool ltac:(discriminate)).
Qed.

End ConstructionMore.

Section ConstructionSettings.
Context {SA W : Type} `{SubAllocator SA} `{Platform} `{Host W}.

Implicit Types (s : Sys SA W) (create : AddressSpaceCreateInfo).

Lemma getConsumerInterface_complete s :
  getConsumerInterface s
  = if consumer_interface_complete (mConsumerInterface (globals s))
    then Ok (mConsumerInterface (globals s), s)
    else Die ConsumerInterfaceNotSet.
Proof.
  unfold getConsumerInterface, consumer_interface_complete, bind, gets.
  destruct (mConsumerInterface (globals s)) as [[] [] [] [] [] [] [] ? ?];
    reflexivity.
Qed.

(** X14: the constructor ends in the abort for a consumer interface that
    has not been set exactly when one of [create], [destroy], [preSave],
    [globalPreSave], [save], [globalPostSave], [postSave] is unset
    ([postLoad] and [globalPreLoad] are not looked at).  Its only other
    aborts are those of the allocation calls and of the null test on the
    buffer Allocation: the null test on the ring Allocation can never
    fire, and the one on the buffer Allocation only for a virtio-gpu
    context. *)
Theorem construct_aborts create s :
  (AddressSpaceGraphicsContext.construct create s = Die ConsumerInterfaceNotSet
   <-> consumer_interface_complete (mConsumerInterface (globals s)) = false)
  /\ (forall r,
        AddressSpaceGraphicsContext.construct create s = Die r ->
        constructor_abort r = true)
  /\ AddressSpaceGraphicsContext.construct create s <> Die FailedToAllocateRing
  /\ (AddressSpaceGraphicsContext.construct create s = Die FailedToAllocateBuffer ->
      type create = VirtioGpuGraphics).
Proof.
  pose proof (getConsumerInterface_complete s) as Hget.
  assert (Hall : forall r,
             AddressSpaceGraphicsContext.construct create s = Die r ->
             (r = ConsumerInterfaceNotSet
              /\ consumer_interface_complete (mConsumerInterface (globals s))
                 = false)
             \/ later_abort create r).
  { intros r E. apply construct_Die in E as [E | [_ E]]; [left | now right].
    rewrite Hget in E.
    destruct (consumer_interface_complete _); [discriminate E|].
    inversion E. auto. }
  split; [split|split; [|split]].
  - intros E. apply Hall in E as [[_ E] | (_ & E & _)]; [exact E | now elim E].
  - intros Hc. unfold AddressSpaceGraphicsContext.construct, bind.
    now rewrite Hget, Hc.
  - intros r E. apply Hall in E as [[-> _] | (E & _)]; [reflexivity | exact E].
  - intros E. apply Hall in E as [[E _] | (E & _)]; discriminate E.
  - intros E. apply Hall in E as [[E _] | (_ & _ & E)];
      [discriminate E | now apply E].
Qed.

(** X15: a context constructed with [fromSnapshot] set is the bare object:
    the constructor allocates nothing, creates no consumer and leaves
    pools and host world as they were; destroying such an object (one that
    [load] was never called on) likewise changes nothing: its three
    Allocations have null buffers and it has no consumer. *)
Theorem construct_from_snapshot_inert create s :
  fromSnapshot create = true ->
  consumer_interface_complete (mConsumerInterface (globals s)) = true ->
  let c := AddressSpaceGraphicsContext.initial (mConsumerInterface (globals s)) in
  AddressSpaceGraphicsContext.construct create s = Ok (c, s)
  /\ AddressSpaceGraphicsContext.destruct_ c s = Ok (c, s).
Proof.
  intros Hsnap Hc. cbn zeta. split.
  - unfold AddressSpaceGraphicsContext.construct, bind.
    now rewrite getConsumerInterface_complete, Hc, Hsnap.
  - reflexivity.
Qed.

End ConstructionSettings.

Section ConstructionMoreRuns.

Lemma construct_from_snapshot_inert_witness :
  AddressSpaceGraphicsContext.construct
    (mkAddressSpaceCreateInfo 0 Graphics true false 0 0 0 0 [] 0)
    one_ring_block_sys
  = Ok (snapshot_target, one_ring_block_sys).
Proof.
  exact (proj1 (construct_from_snapshot_inert
                  (mkAddressSpaceCreateInfo 0 Graphics true false 0 0 0 0 [] 0)
                  one_ring_block_sys eq_refl eq_refl)).
Defined.

Lemma construct_plain_witness :
  match AddressSpaceGraphicsContext.construct plain_create small_sys with
  | Ok (c, s') =>
      Allocation.size (AddressSpaceGraphicsContext.mRingAllocation c) = 4
      /\ mCombinedBlocks (globals s') = []
  | _ => False
  end.
Proof.
  destruct (AddressSpaceGraphicsContext.construct plain_create small_sys)
    as [[c s']| |] eqn:E.
  - destruct (construct_plain plain_create small_sys c s'
                ltac:(discriminate) eq_refl E)
      as ((_ & _ & Hsize & _) & _ & _ & Hcombined & _).
    split; [exact Hsize | exact Hcombined].
  - vm_compute in E. discriminate E.
  - vm_compute in E. discriminate E.
Defined.


Lemma virtio_context_lifecycle_witness :
  match AddressSpaceGraphicsContext.construct virtio_create small_sys with
  | Ok (c, s1) =>
      exists c' s2,
        AddressSpaceGraphicsContext.destruct_ c s1 = Ok (c', s2)
        /\ mRingBlocks (globals s2) = []
  | _ => False
  end.
Proof.
  destruct (AddressSpaceGraphicsContext.construct virtio_create small_sys)
    as [[c s1]| |] eqn:E.
  - destruct (virtio_context_lifecycle virtio_create small_sys c s1
                eq_refl eq_refl ltac:(constructor) E)
      as (c' & s2 & index & block & Hd & _ & _ & _ & _ & Hring & _).
    exists c', s2. split; [exact Hd | exact Hring].
  - vm_compute in E. discriminate E.
  - vm_compute in E. discriminate E.
Defined.

End ConstructionMoreRuns.

(** ** [preSave] and [postSave]: the consumer around a snapshot *)

Section SnapshotHooksMore.
Context {W : Type} `{Host W}.
Import AddressSpaceGraphicsContext.

Lemma preSave_inv c (w : W) c1 w1 :
  preSave c w = Ok (c1, w1) ->
  if mCurrentConsumer c =? 0 then c1 = c /\ w1 = w
  else
    ConsumerInterface.preSave (mConsumerInterface c) = true
    /\ c1 = set_mConsumerMessages (mConsumerMessages c ++ [PausePreSnapshot]) c
    /\ w1 = consumer_preSave (mCurrentConsumer c) w.
Proof.
  unfold preSave. destruct (mCurrentConsumer c =? 0); cbn [negb].
  - intros [= <- <-]. now split.
  - destruct (ConsumerInterface.preSave (mConsumerInterface c));
      cbn; [|discriminate].
    intros [= <- <-]. auto.
Qed.

Lemma postSave_inv c (w : W) c1 w1 :
  postSave c w = Ok (c1, w1) ->
  if mCurrentConsumer c =? 0 then c1 = c /\ w1 = w
  else
    ConsumerInterface.postSave (mConsumerInterface c) = true
    /\ c1 = set_mConsumerMessages (mConsumerMessages c ++ [ResumePostSnapshot]) c
    /\ w1 = consumer_postSave (mCurrentConsumer c) w.
Proof.
  unfold postSave. destruct (mCurrentConsumer c =? 0); cbn [negb].
  - intros [= <- <-]. now split.
  - destruct c as [ra ba ca hc v0 e n vi sc ci cc cm]. cbn.
    destruct (ConsumerInterface.postSave ci); cbn; [|discriminate].
    intros [= <- <-]. auto.
Qed.

(** X18: [preSave] followed by [postSave] on a context with a consumer
    calls the consumer's two hooks in that order and queues
    [PausePreSnapshot] and then [ResumePostSnapshot] behind what was
    queued; a consumer that then waits in [onUnavailableRead] behind [k]
    pending [Sleep] commands returns -2 and leaves [ResumePostSnapshot]
    at the head of the queue.  On a context without a consumer both calls
    do nothing: no hook is called and no command is queued. *)
Theorem snapshot_pauses_then_resumes c (w : W) c1 w1 c2 w2 :
  preSave c w = Ok (c1, w1) ->
  postSave c1 w1 = Ok (c2, w2) ->
  (mCurrentConsumer c = 0 -> c2 = c /\ w2 = w)
  /\ (mCurrentConsumer c <> 0 ->
      mConsumerMessages c2
      = mConsumerMessages c ++ [PausePreSnapshot; ResumePostSnapshot]
      /\ w2 = consumer_postSave (mCurrentConsumer c)
                (consumer_preSave (mCurrentConsumer c) w)
      /\ forall k,
           mConsumerMessages c = repeat Sleep k ->
           reaches_sleep c = true ->
           ending (onUnavailableRead c2) = Returned (-2)
           /\ mConsumerMessages (after (onUnavailableRead c2))
              = [ResumePostSnapshot]
           /\ host_state (mHostContext (after (onUnavailableRead c2)))
              = ASG_HOST_STATE_NEED_NOTIFY).
Proof.
  intros E1 E2. apply preSave_inv in E1. apply postSave_inv in E2.
  destruct (Z.eqb_spec (mCurrentConsumer c) 0) as [Hz|Hnz].
  - destruct E1 as [-> ->]. rewrite Hz in E2. cbn in E2.
    destruct E2 as [-> ->]. split; [auto | intros Hx; now elim Hx].
  - destruct E1 as (_ & -> & ->).
    change (mCurrentConsumer
              (set_mConsumerMessages
                 (mConsumerMessages c ++ [PausePreSnapshot]) c))
      with (mCurrentConsumer c) in E2.
    destruct (Z.eqb_spec (mCurrentConsumer c) 0) as [Hz|_];
      [now elim Hnz|].
    destruct E2 as (_ & -> & ->).
    split; [intros Hx; now elim Hnz|]. intros _.
    split; [cbn; now rewrite <- app_assoc|].
    split; [reflexivity|].
    intros k Hq Hr.
    set (c2 := set_mConsumerMessages _ _).
    assert (Hr' : reaches_sleep c2 = true) by exact Hr.
    rewrite onUnavailableRead_cases, Hr'.
    assert (Hq' : mConsumerMessages c2
                  = repeat Sleep k ++ PausePreSnapshot :: [ResumePostSnapshot]).
    { subst c2. cbn. rewrite Hq, <- app_assoc. reflexivity. }
    rewrite Hq', sleep_loop_after_sleeps.
    destruct c as [ra ba ca [rs cb cbs rc hs] v0 e n vi sc ci cc cm].
    cbn. repeat split; reflexivity.
Qed.

End SnapshotHooksMore.

Section SnapshotHooksMoreRuns.
Import AddressSpaceGraphicsContext.

Lemma snapshot_pauses_then_resumes_witness :
  match preSave sample_virtio_context SmallWorld.initial with
  | Ok (c1, w1) =>
      match postSave c1 w1 with
      | Ok (c2, _) =>
          mConsumerMessages c2
          = mConsumerMessages sample_virtio_context
            ++ [PausePreSnapshot; ResumePostSnapshot]
      | _ => False
      end
  | _ => False
  end.
Proof.
  destruct (preSave sample_virtio_context SmallWorld.initial)
    as [[c1 w1]| |] eqn:E1; [|vm_compute in E1; discriminate E1..].
  destruct (postSave c1 w1) as [[c2 w2]| |] eqn:E2.
  - destruct (snapshot_pauses_then_resumes sample_virtio_context
                SmallWorld.initial c1 w1 c2 w2 E1 E2) as [_ Hsome].
    destruct Hsome as (Hq & _); [vm_compute; discriminate | exact Hq].
  - vm_compute in E1. injection E1 as <- <-. vm_compute in E2. discriminate E2.
  - vm_compute in E1. injection E1 as <- <-. vm_compute in E2. discriminate E2.
Defined.

End SnapshotHooksMoreRuns.

(** ** The three pools in the states the process reaches *)

Section PoolSeparation.
Context {SA W : Type} `{SubAllocator SA} `{Platform} `{Host W}.
Context (storable : SA -> Prop).
Context (Hkeeps : SubAllocatorKeeps storable) (Htyped : HostTyped)
        (Hblock : is_u64 ADDRESS_SPACE_GRAPHICS_BLOCK_SIZE).

(** X19: in every state that the calls of the core, writes of the guest
    and loads of saved images reach, the pools keep their kinds of blocks
    apart: a block in use is external exactly when it is in the combined
    pool, and carries a dedicated context handle exactly then; every
    block in use has a sub-allocator; a ring or buffer block has the
    fixed block size and a combined block a non-null address. *)
Theorem reachable_pools_separated (s : Sys SA W) p index block :
  sub_allocator_round_trip storable ->
  reachable s ->
  pool_get p (globals s) !! index = Some block ->
  Block.isEmpty block = false ->
  (Block.external block = true <-> p = CombinedPool)
  /\ (is_Some (Block.dedicatedContextHandle block) <-> p = CombinedPool)
  /\ is_Some (Block.subAlloc block)
  /\ (p <> CombinedPool ->
      Block.bufferSize block = ADDRESS_SPACE_GRAPHICS_BLOCK_SIZE)
  /\ (p = CombinedPool -> Block.buffer block <> 0).
Proof.
  intros Hlaw Hr Hlk Hempty.
  pose proof (reachable_pools_ok storable Hkeeps Htyped Hblock s Hlaw Hr p)
    as Hok.
  pose proof (Forall_lookup_1 _ _ _ _ Hok Hlk) as Hslot.
  destruct p; cbn [slot_of] in Hslot.
  1, 2: destruct Hslot as (Hh & _ & _ & He & Ho);
    destruct (Ho Hempty) as (_ & _ & _ & _ & Hsz & _ & _ & sa & Hsa & _);
    rewrite Hh, He, Hsa;
    (split; [split; discriminate|]);
    (split; [split; [intros [x Hx]; discriminate Hx | discriminate]|]);
    (split; [now exists sa|]);
    (split; [intros _; exact Hsz | discriminate]).
  destruct (Hslot Hempty)
    as (h & Hh & _ & _ & He & _ & Hbuf & _ & _ & sa & Hsa & _).
  rewrite Hh, He, Hsa.
  split; [split; reflexivity|].
  split; [split; [reflexivity | intros _; now exists h]|].
  split; [now exists sa|].
  split; [intros Hx; now elim Hx | intros _; exact Hbuf].
Qed.

End PoolSeparation.

(** ** [loadBlockLocked]: a dedicated block and its replacement memory *)

Section PoolLoadMore.
Context {SA W : Type} `{SubAllocator SA} `{Platform} `{Host W}.

Implicit Types (block target : Block.t SA) (s : Sys SA W)
  (rest : Stream.t) (resources : LoadResources).

(** X20: reading back, into any slot, what [saveBlockLocked] wrote for a
    dedicated block in use.  Without load resources the load aborts, and
    so it does when the resources name no memory for the block's context
    handle or name a null address.  Otherwise the loaded block is bound
    to the address the resources name, whatever address the saved block
    had: it is external, in use, at physical offset 0, with the saved
    size, handle and hostmem id, nothing of the host world is touched and
    exactly the block's bytes of the stream are consumed. *)
Theorem loadBlockLocked_binds_replacement storable resources block target
    rest s :
  sub_allocator_round_trip storable ->
  Block.isEmpty block = false ->
  dedicated_block_ok storable block ->
  exists handle,
    Block.dedicatedContextHandle block = Some handle
    /\ (resources = None ->
        loadBlockLocked resources target (block_image block ++ rest, s)
        = Die LoadVirtioWithoutResources)
    /\ (forall m,
          resources = Some m -> m !! handle = None ->
          loadBlockLocked resources target (block_image block ++ rest, s)
          = Die LoadVirtioWithoutReplacement)
    /\ (forall m externalMemory,
          resources = Some m -> m !! handle = Some externalMemory ->
          externalAddress externalMemory = 0 ->
          loadBlockLocked resources target (block_image block ++ rest, s)
          = Die DedicatedWithoutExternalAddr)
    /\ (forall m externalMemory,
          resources = Some m -> m !! handle = Some externalMemory ->
          externalAddress externalMemory <> 0 ->
          exists block',
            loadBlockLocked resources target (block_image block ++ rest, s)
            = Ok (block', (rest, s))
            /\ Block.buffer block' = externalAddress externalMemory
            /\ Block.external block' = true
            /\ Block.isEmpty block' = false
            /\ Block.offsetIntoPhys block' = 0
            /\ Block.bufferSize block' = Block.bufferSize block
            /\ Block.dedicatedContextHandle block' = Some handle
            /\ Block.usesVirtioGpuHostmem block' = true
            /\ Block.hostmemId block' = Block.hostmemId block).
Proof.
  intros Hlaw Hempty (h & Hh & Hhr & Hv & He & Hoff & Hbuf & Hm & Hsz
                        & sa & Hsa & Hst).
  exists h. split; [exact Hh|].
  unfold loadBlockLocked, block_image.
  rewrite Hempty, Hh, Hv, He, Hoff, Hsa. cbn [Z_of_bool].
  rewrite <- !app_assoc. cbn [app].
  read_u32. cbn [truthy Z.eqb negb].
  read_u64. read_u64. read_u32. cbn [Z.eqb Pos.eqb].
  rewrite bind_assoc. read_u32. rewrite !ret_then.
  read_u32. cbn [truthy Z.eqb negb].
  split; [|split; [|split]].
  - intros ->. reflexivity.
  - intros m -> Hlook. rewrite Hlook. reflexivity.
  - intros m em -> Hlook Hz. rewrite Hlook, ret_then.
    read_u64.
    unfold bind at 1, on_sys, fillBlockLocked.
    cbn [snd fst AllocationCreateInfo.dedicatedContextHandle
           AllocationCreateInfo.virtioGpu AllocationCreateInfo.externalAddr
           negb].
    rewrite Hz. reflexivity.
  - intros m em -> Hlook Hnz. rewrite Hlook, ret_then.
    read_u64.
    erewrite on_sys_then
      by (apply (fillBlockLocked_dedicated _ _ _ h); cbn;
          [reflexivity | reflexivity | exact Hnz]).
    cbn [Block.subAlloc AllocationCreateInfo.externalAddr
           AllocationCreateInfo.size AllocationCreateInfo.hostmemId].
    destruct (Hlaw sa (sa_new (externalAddress em) (Block.bufferSize block)
                         ADDRESS_SPACE_GRAPHICS_PAGE_SIZE) rest Hst)
      as (sa' & Hload).
    erewrite from_stream_then by exact Hload.
    block_simpl.
    eexists. split; [reflexivity|]. block_simpl. auto 10.
Qed.

End PoolLoadMore.

Section PoolLoadMoreRuns.

Lemma reachable_pools_separated_witness :
  exists block,
    mCombinedBlocks (globals two_context_sys) !! 0%nat = Some block
    /\ Block.external block = true.
Proof.
  destruct (mCombinedBlocks (globals two_context_sys) !! 0%nat)
    as [block|] eqn:E; [|vm_compute in E; discriminate E].
  exists block. split; [reflexivity|].
  assert (Hempty : Block.isEmpty block = false)
    by (pose proof E as E'; vm_compute in E'; injection E' as <-; reflexivity).
  apply (reachable_pools_separated PageAllocator.storable page_allocator_keeps
           small_host_typed small_block_size_u64 two_context_sys CombinedPool
           0%nat block page_allocator_round_trip two_context_sys_reachable
           E Hempty).
  reflexivity.
Defined.

Lemma loadBlockLocked_binds_replacement_witness :
  exists block block',
    mCombinedBlocks (globals two_context_sys) !! 0%nat = Some block
    /\ loadBlockLocked (Some {[ 7 := mkExternalMemory 30000 16 ]})
         Block.default (block_image block ++ [], small_sys)
       = Ok (block', ([], small_sys))
    /\ Block.buffer block' = 30000.
Proof.
  destruct (mCombinedBlocks (globals two_context_sys) !! 0%nat)
    as [block|] eqn:E; [|vm_compute in E; discriminate E].
  assert (Hfields : Block.isEmpty block = false
                    /\ Block.dedicatedContextHandle block = Some 7)
    by (pose proof E as E'; vm_compute in E'; injection E' as <-;
        split; reflexivity).
  destruct Hfields as [Hempty Hseven].
  pose proof (Forall_lookup_1 _ _ _ _
                (small_reachable_pools_ok two_context_sys
                   two_context_sys_reachable CombinedPool) E Hempty) as Hd.
  destruct (loadBlockLocked_binds_replacement PageAllocator.storable
              (Some {[ 7 := mkExternalMemory 30000 16 ]}) block Block.default
              [] small_sys page_allocator_round_trip Hempty Hd)
    as (handle & Hh & _ & _ & _ & Hbind).
  assert (handle = 7) as -> by congruence.
  destruct (Hbind {[ 7 := mkExternalMemory 30000 16 ]}
              (mkExternalMemory 30000 16) eq_refl eq_refl
              ltac:(cbn; discriminate))
    as (block' & Hload & Hbuf & _).
  exists block, block'. split; [reflexivity|]. split; [exact Hload | exact Hbuf].
Defined.

End PoolLoadMoreRuns.
